(** * The Python client backend of Stone (stone/backends/python_client.py)

    A shallow embedding of [PythonClientBackend]: the recursive type
    formatter, the doc-reference resolver, the default-value renderer, the
    method-declaration builder, the docstring composer and the per-route
    variant synthesiser, followed by the properties proved about them.

    Conventions of the embedding.
    - Python [str] values are [string]s of ASCII characters.
    - The backend writes its output through the emitter of [CodeBackend]
      ([emit], [emit_wrapped_text], [generate_multiline_list], [indent]);
      the embedding records the sequence of emitter calls.
    - Exceptions are values of [exn]; a computation that raises returns
      [inl e].
    - The helpers imported from [stone.backends.helpers],
      [stone.backends.python_helpers], [stone.backends.python_types] and
      the methods inherited from [CodeBackend] are fields of the class
      [Helpers]. *)

From Stdlib Require Import String Ascii List ZArith Bool Lia Arith.
From Stdlib Require Import DecimalString.
Import ListNotations.
Local Open Scope list_scope.
Local Open Scope string_scope.

(* ================================================================= *)
(** ** Python strings *)

Module PyStr.

(** [c in s] for a one-character [c]. *)
Fixpoint contains (c : ascii) (s : string) : bool :=
  match s with
  | EmptyString => false
  | String a s' => if Ascii.eqb a c then true else contains c s'
  end.

(** [str.isspace] on the ASCII range: TAB..CR, FS..US and the space. *)
Definition is_space (c : ascii) : bool :=
  let n := nat_of_ascii c in
  ((9 <=? n)%nat && (n <=? 13)%nat) || ((28 <=? n)%nat && (n <=? 32)%nat).

Definition is_upper (c : ascii) : bool :=
  let n := nat_of_ascii c in (65 <=? n)%nat && (n <=? 90)%nat.

Definition is_lower (c : ascii) : bool :=
  let n := nat_of_ascii c in (97 <=? n)%nat && (n <=? 122)%nat.

Definition is_digit (c : ascii) : bool :=
  let n := nat_of_ascii c in (48 <=? n)%nat && (n <=? 57)%nat.

Definition lower_char (c : ascii) : ascii :=
  if is_upper c then ascii_of_nat (nat_of_ascii c + 32) else c.

Definition upper_char (c : ascii) : ascii :=
  if is_lower c then ascii_of_nat (nat_of_ascii c - 32) else c.

(** [s.lower()] *)
Fixpoint lower (s : string) : string :=
  match s with
  | EmptyString => EmptyString
  | String c s' => String (lower_char c) (lower s')
  end.

(** [s.capitalize()]: first character upper-cased, the rest lower-cased. *)
Definition capitalize (s : string) : string :=
  match s with
  | EmptyString => EmptyString
  | String c s' => String (upper_char c) (lower s')
  end.

Fixpoint lstrip (s : string) : string :=
  match s with
  | EmptyString => EmptyString
  | String c s' => if is_space c then lstrip s' else s
  end.

Fixpoint rstrip (s : string) : string :=
  match s with
  | EmptyString => EmptyString
  | String c s' =>
      match rstrip s' with
      | EmptyString => if is_space c then EmptyString else String c EmptyString
      | r => String c r
      end
  end.

(** [s.strip()] *)
Definition strip (s : string) : string := rstrip (lstrip s).

(** [s.split(sep)] for a one-character separator. *)
Fixpoint split (sep : ascii) (s : string) : list string :=
  match s with
  | EmptyString => [EmptyString]
  | String c s' =>
      if Ascii.eqb c sep then EmptyString :: split sep s'
      else match split sep s' with
           | w :: ws => String c w :: ws
           | [] => [String c EmptyString]
           end
  end.

(** [s.split(sep, 1)]: cut at the first separator, if any. *)
Fixpoint split1 (sep : ascii) (s : string) : list string :=
  match s with
  | EmptyString => [EmptyString]
  | String c s' =>
      if Ascii.eqb c sep then [EmptyString; s']
      else match split1 sep s' with
           | w :: ws => String c w :: ws
           | [] => [String c EmptyString]
           end
  end.

(** [s.rsplit(sep, 1)]: cut at the last separator, if any. *)
Fixpoint rsplit1 (sep : ascii) (s : string) : list string :=
  match s with
  | EmptyString => [EmptyString]
  | String c s' =>
      match rsplit1 sep s' with
      | [a; b] => [String c a; b]
      | _ => if Ascii.eqb c sep then [EmptyString; s'] else [String c s']
      end
  end.

(** The digits of an integer literal once the single underscores allowed
    between digits are removed; [None] when the text is not a literal. *)
Fixpoint digits_of (after_digit : bool) (s : string) : option string :=
  match s with
  | EmptyString => if after_digit then Some EmptyString else None
  | String c s' =>
      if Ascii.eqb c "_"
      then (if after_digit then digits_of false s' else None)
      else if is_digit c
           then option_map (String c) (digits_of true s')
           else None
  end.

Definition unsigned_of (s : string) : option Z :=
  match digits_of false s with
  | Some ds => option_map Z.of_uint (NilEmpty.uint_of_string ds)
  | None => None
  end.

(** [int(s)] in base ten: surrounding whitespace, an optional sign, then
    digits; [None] stands for [ValueError]. *)
Definition int (s : string) : option Z :=
  match strip s with
  | String "-" s' => option_map Z.opp (unsigned_of s')
  | String "+" s' => unsigned_of s'
  | s' => unsigned_of s'
  end.

(** [s.startswith(p)] *)
Fixpoint startswith (p s : string) : bool :=
  match p with
  | EmptyString => true
  | String a p' =>
      match s with
      | EmptyString => false
      | String b s' => Ascii.eqb a b && startswith p' s'
      end
  end.

(** Truth value of a [str]-or-[None]. *)
Definition truthy (o : option string) : bool :=
  match o with
  | Some (String _ _) => true
  | _ => false
  end.

(** [x in l] for a list of strings. *)
Fixpoint mem (x : string) (l : list string) : bool :=
  match l with
  | [] => false
  | y :: l' => if String.eqb x y then true else mem x l'
  end.

(** The docstring delimiter: the double-quote character three times. *)
Definition dquote : ascii := "034"%char.
Definition triple_quote : string :=
  String dquote (String dquote (String dquote EmptyString)).

End PyStr.

(* ================================================================= *)
(** ** The intermediate representation (stone.ir) *)

(** Plain Python values that occur as field defaults. *)
Inductive literal : Type :=
| LNone
| LBool (b : bool)
| LInt (z : Z)
| LFloat (repr : string)
| LStr (s : string).

(** Data types.  [Struct] and [Union] are the user-defined types; a
    composite records the name of the namespace that declares it, its own
    [fields] and [all_fields] (inherited fields first, then its own). *)
Inductive data_type : Type :=
| Void
| Primitive (name : string)
| Nullable (inner : data_type)
| List (elem : data_type)
| Map (key_data_type value_data_type : data_type)
| Struct (c : composite)
| Union (c : composite)
with composite : Type :=
| Composite (name namespace_name : string) (doc : option string)
            (fields all_fields : list field)
with field : Type :=
| Field (name : string) (dt : data_type) (doc : option string)
        (has_default : bool) (default : value)
with value : Type :=
| Lit (l : literal)
| TagRef (union_data_type : data_type) (tag_name : string).

Definition c_name (c : composite) := let 'Composite n _ _ _ _ := c in n.
Definition c_namespace (c : composite) := let 'Composite _ n _ _ _ := c in n.
Definition c_doc (c : composite) := let 'Composite _ _ d _ _ := c in d.
Definition c_fields (c : composite) := let 'Composite _ _ _ f _ := c in f.
Definition c_all_fields (c : composite) := let 'Composite _ _ _ _ f := c in f.

Definition f_name (f : field) := let 'Field n _ _ _ _ := f in n.
Definition f_data_type (f : field) := let 'Field _ t _ _ _ := f in t.
Definition f_doc (f : field) := let 'Field _ _ d _ _ := f in d.
Definition f_has_default (f : field) := let 'Field _ _ _ h _ := f in h.
Definition f_default (f : field) := let 'Field _ _ _ _ v := f in v.

(** The type predicates of [stone.ir]. *)
Definition is_void_type (t : data_type) : bool :=
  match t with Void => true | _ => false end.
Definition is_nullable_type (t : data_type) : bool :=
  match t with Nullable _ => true | _ => false end.
Definition is_list_type (t : data_type) : bool :=
  match t with List _ => true | _ => false end.
Definition is_map_type (t : data_type) : bool :=
  match t with Map _ _ => true | _ => false end.
Definition is_struct_type (t : data_type) : bool :=
  match t with Struct _ => true | _ => false end.
Definition is_union_type (t : data_type) : bool :=
  match t with Union _ => true | _ => false end.
Definition is_user_defined_type (t : data_type) : bool :=
  match t with Struct _ | Union _ => true | _ => false end.
Definition is_tag_ref (v : value) : bool :=
  match v with TagRef _ _ => true | Lit _ => false end.

(** Exceptions raised by the backend or by the Python run time. *)
Inductive exn : Type :=
| AssertionError (msg : string)
| RuntimeError (msg : string)
| AttributeError (attr : string)
| ValueError
| HelperError (msg : string).

(** [t.fields] and [t.all_fields]: only composites have them. *)
Definition dt_fields (t : data_type) : exn + list field :=
  match t with
  | Struct c | Union c => inr (c_fields c)
  | _ => inl (AttributeError "fields")
  end.
Definition dt_all_fields (t : data_type) : exn + list field :=
  match t with
  | Struct c | Union c => inr (c_all_fields c)
  | _ => inl (AttributeError "all_fields")
  end.

(** A route.  [attrs] is the dict of route attributes ([None] is what the
    backend guards against in whitelist mode); [deprecated] is [None] or a
    deprecation record whose [by] is the name of the superseding route. *)
Record route : Type := Route {
  r_name : string;
  r_version : Z;
  r_arg_data_type : data_type;
  r_result_data_type : data_type;
  r_error_data_type : data_type;
  r_doc : option string;
  r_attrs : option (list (string * string));
  r_deprecated : option (option string)
}.

Record namespace : Type := Namespace {
  ns_name : string;
  ns_routes : list route
}.

(** [d.get(key)] on a dict given as its list of items. *)
Fixpoint dict_get (d : list (string * string)) (key : string) : option string :=
  match d with
  | [] => None
  | (k, v) :: d' => if String.eqb k key then Some v else dict_get d' key
  end.

(* ================================================================= *)
(** ** The backend object, its emitter and its helpers *)

(** The parsed command line ([self.args]). *)
Record cli_args : Type := Args {
  module_name : string;
  class_name : string;
  types_package : string;
  error_class_path : string;
  auth_type : option string
}.

(** The mutable attributes of the backend instance. *)
Record backend : Type := Backend {
  args : cli_args;
  cur_namespace : option namespace;
  supported_auth_types : option (list string)
}.

(** One call of the emitter inherited from [CodeBackend].  Optional
    arguments are recorded as passed: [None] is an argument left to its
    default. *)
Inductive cmd : Type :=
| Emit (s : string)
| EmitBlank
| EmitWrapped (s : string) (subsequent_prefix : option string)
| MultilineList (items : list string) (before after : option string)
                (delim : option (string * string)) (compact : option bool)
| IndentEnter
| IndentExit.

(** Helpers whose code lives outside this module. *)
Class Helpers : Type := {
  (** [stone.backends.helpers.fmt_underscores] *)
  fmt_underscores : string -> string;
  (** [stone.backends.python_helpers]: [fmt_func (name, version)] and the
      other naming helpers; [check_route_name_conflict] raises or not. *)
  fmt_class : string -> string;
  fmt_func : string -> Z -> string;
  fmt_namespace : string -> string;
  fmt_obj : value -> string;
  fmt_type : data_type -> string;
  fmt_var : string -> string;
  check_route_name_conflict : namespace -> option exn;
  (** [stone.backends.python_types.class_name_for_data_type] *)
  class_name_for_data_type : data_type -> string;
  (** [CodeBackend.process_doc (doc, handler)] *)
  process_doc : string -> (string -> string -> exn + string) -> exn + string;
  (** What [%r] formats: [repr] of a string, and of a data type of the
      IR. *)
  repr_str : string -> string;
  repr_data_type : data_type -> string
}.

(** Sequencing for computations that may raise. *)
Notation "'let?' x ':=' m 'in' k" :=
  (match m with inl e => inl e | inr x => k end)
  (at level 10, x pattern, m at level 100, k at level 200).

(** The generator monad: reads and writes the backend instance, appends
    emitter calls, may raise. *)
Definition Gen (A : Type) : Type := backend -> exn + (A * backend * list cmd).

Definition ret {A} (a : A) : Gen A := fun self => inr (a, self, []).

Definition bind {A B} (m : Gen A) (k : A -> Gen B) : Gen B :=
  fun self =>
    match m self with
    | inl e => inl e
    | inr (a, self', out) =>
        match k a self' with
        | inl e => inl e
        | inr (b, self'', out') => inr (b, self'', (out ++ out')%list)
        end
    end.

Definition raise {A} (e : exn) : Gen A := fun _ => inl e.
Definition get_self : Gen backend := fun self => inr (self, self, []).
Definition put_self (self' : backend) : Gen unit := fun _ => inr (tt, self', []).
Definition tell (c : cmd) : Gen unit := fun self => inr (tt, self, [c]).
Definition lift {A} (r : exn + A) : Gen A :=
  fun self => match r with inl e => inl e | inr a => inr (a, self, []) end.

Notation "x <- m ;; k" := (bind m (fun x => k))
  (at level 100, m at next level, right associativity).
Notation "m ;; k" := (bind m (fun _ => k))
  (at level 100, right associativity).

Definition when (b : bool) (m : Gen unit) : Gen unit := if b then m else ret tt.

(** [for x in l: body x] *)
Fixpoint for_each {A} (l : list A) (body : A -> Gen unit) : Gen unit :=
  match l with
  | [] => ret tt
  | x :: l' => body x ;; for_each l' body
  end.

(** [with self.indent(): body] *)
Definition with_indent (body : Gen unit) : Gen unit :=
  tell IndentEnter ;; body ;; tell IndentExit.

Definition emit (s : string) : Gen unit := tell (Emit s).
Definition emit_blank : Gen unit := tell EmitBlank.
Definition emit_wrapped_text (s : string) (subsequent_prefix : option string) : Gen unit :=
  tell (EmitWrapped s subsequent_prefix).
Definition generate_multiline_list (items : list string) (before after : option string)
    (delim : option (string * string)) (compact : option bool) : Gen unit :=
  tell (MultilineList items before after delim compact).

(** The emitter calls of a run, [None] when it raises. *)
Definition output {A} (m : Gen A) (self : backend) : option (list cmd) :=
  match m self with
  | inl _ => None
  | inr (_, _, out) => Some out
  end.

(** The note appended to the docstring of download routes. *)
Definition DOCSTRING_CLOSE_RESPONSE : string :=
"If you do not consume the entire response body, then you must call close on the
response object, otherwise you will max out your available connections. We
recommend using the `contextlib.closing
<https://docs.python.org/2/library/contextlib.html#contextlib.closing>`_
context manager to ensure this.".

Section Backend.

Context {H : Helpers}.

(** [self.cur_namespace.name] *)
Definition cur_namespace_name (self : backend) : exn + string :=
  match cur_namespace self with
  | Some ns => inr (ns_name ns)
  | None => inl (AttributeError "name")
  end.

(** [_format_type_in_doc]: a string that Sphinx recognises as a type
    reference in a docstring. *)
Fixpoint _format_type_in_doc (self : backend) (namespace : namespace)
    (data_type : data_type) : string :=
  match data_type with
  | Void => "None"
  | Struct _ | Union _ =>
      ":class:`" ++ types_package (args self) ++ "." ++ ns_name namespace
        ++ "." ++ fmt_type data_type ++ "`"
  | Nullable inner =>
      "Nullable[" ++ _format_type_in_doc self namespace inner ++ "]"
  | List elem =>
      "List[" ++ _format_type_in_doc self namespace elem ++ "]"
  | Map k v =>
      "Map[" ++ _format_type_in_doc self namespace k ++ ", "
        ++ _format_type_in_doc self namespace v ++ "]"
  | Primitive _ => fmt_type data_type
  end.

(** [_generate_python_value]; [namespace] is [None] or the name of a
    namespace. *)
Definition _generate_python_value (namespace : option string) (value : value)
    : exn + string :=
  match value with
  | TagRef union_data_type tag_name =>
      match namespace with
      | None => inl (AttributeError "name")
      | Some name =>
          inr (fmt_namespace name ++ "."
                 ++ class_name_for_data_type union_data_type ++ "."
                 ++ fmt_var tag_name)
      end
  | Lit _ => inr (fmt_obj value)
  end.

(** [_docf]: converts a doc reference to a Sphinx annotation. *)
Definition _docf (self : backend) (tag val : string) : exn + string :=
  if tag =? "type" then
    let? fq_val :=
      (if negb (PyStr.contains "." val)
       then let? ns := cur_namespace_name self in inr (ns ++ "." ++ val)
       else inr val) in
    inr (":class:`" ++ types_package (args self) ++ "." ++ fq_val ++ "`")
  else if tag =? "route" then
    let? (val, version) :=
      (if PyStr.contains ":" val
       then match PyStr.split1 ":" val with
            | [v; version] =>
                match PyStr.int version with
                | Some z => inr (v, z)
                | None => inl ValueError
                end
            | _ => inl ValueError
            end
       else inr (val, 1%Z)) in
    if PyStr.contains "." val
    then inr (":meth:`" ++ fmt_func val version ++ "`")
    else let? ns := cur_namespace_name self in
         inr (":meth:`" ++ ns ++ "_" ++ fmt_func val version ++ "`")
  else if tag =? "link" then
    match PyStr.rsplit1 " " val with
    | [anchor; link] => inr ("`" ++ anchor ++ " <" ++ link ++ ">`_")
    | _ => inl ValueError
    end
  else if tag =? "val" then
    if val =? "null" then inr "None"
    else if (val =? "true") || (val =? "false")
         then inr ("``" ++ PyStr.capitalize val ++ "``")
         else inr val
  else if tag =? "field" then
    inr ("``" ++ val ++ "``")
  else inl (RuntimeError ("Unknown doc ref tag " ++ repr_str tag)).

(** [route.attrs.get(key)] *)
Definition attrs_get (route : route) (key : string) : exn + option string :=
  match r_attrs route with
  | Some d => inr (dict_get d key)
  | None => inl (AttributeError "get")
  end.

Definition style_is (route : route) (style : string) : exn + bool :=
  let? v := attrs_get route "style" in
  inr (match v with Some s => s =? style | None => false end).

(** Truth value of a list and of a list-or-[None]; the items and the
    text behind a value known to be true. *)
Definition nonempty {A} (l : list A) : bool :=
  match l with [] => false | _ :: _ => true end.

Definition truthy_list {A} (o : option (list A)) : bool :=
  match o with Some (_ :: _) => true | _ => false end.

Definition items_of {A} (o : option (list A)) : list A :=
  match o with Some l => l | None => [] end.

Definition text_of (o : option string) : string :=
  match o with Some s => s | None => "" end.

(** [l.append(x)] *)
Definition py_append {A} (l : list A) (x : A) : list A := (l ++ [x])%list.

(** The namespace handed to [_generate_python_value] for a defaulted
    field: that of the field's data type when it is user-defined. *)
Definition default_namespace (field : field) : option string :=
  match f_data_type field with
  | Struct c | Union c => Some (c_namespace c)
  | _ => None
  end.

(** The loop over [arg_data_type.all_fields] of
    [_generate_route_method_decl], appending to [args]. *)
Fixpoint append_field_args (args : list string) (fields : list field)
    : exn + list string :=
  match fields with
  | [] => inr args
  | field :: rest =>
      if is_nullable_type (f_data_type field) then
        append_field_args (py_append args (f_name field ++ "=None")) rest
      else if f_has_default field then
        let ns := default_namespace field in
        let? v := _generate_python_value ns (f_default field) in
        append_field_args (py_append args (f_name field ++ "=" ++ v)) rest
      else
        append_field_args (py_append args (f_name field)) rest
  end.

(** The argument list built by [_generate_route_method_decl]. *)
Definition method_decl_args (arg_data_type : data_type)
    (request_binary_body : bool) (extra_args : option (list string))
    : exn + list string :=
  let args := ["self"] in
  let args := if truthy_list extra_args
              then (args ++ items_of extra_args)%list else args in
  let args := if request_binary_body then py_append args "f" else args in
  if is_struct_type arg_data_type then
    let? all_fields := dt_all_fields arg_data_type in
    append_field_args args all_fields
  else if is_union_type arg_data_type then
    inr (py_append args "arg")
  else if negb (is_void_type arg_data_type) then
    inl (AssertionError ("Unhandled request type: "
                           ++ repr_data_type arg_data_type))
  else inr args.

(** The name given to the method of a route. *)
Definition method_decl_name (namespace : namespace) (route : route)
    (method_name_suffix : string) : string :=
  let method_name :=
    fmt_func (r_name route ++ method_name_suffix) (r_version route) in
  let namespace_name := fmt_underscores (ns_name namespace) in
  namespace_name ++ "_" ++ method_name.

(** [_generate_route_method_decl]: the method prototype for a route. *)
Definition _generate_route_method_decl (namespace : namespace) (route : route)
    (arg_data_type : data_type) (request_binary_body : bool)
    (method_name_suffix : string) (extra_args : option (list string))
    : Gen unit :=
  args <- lift (method_decl_args arg_data_type request_binary_body extra_args) ;;
  generate_multiline_list args
    (Some ("def " ++ method_decl_name namespace route method_name_suffix))
    (Some ":") None None.

(** [_maybe_generate_deprecation_warning] *)
Definition _maybe_generate_deprecation_warning (route : route) : Gen unit :=
  match r_deprecated route with
  | Some by_ =>
      let msg := r_name route ++ " is deprecated." in
      let msg := match by_ with
                 | Some by_name => msg ++ " Use " ++ by_name ++ "."
                 | None => msg
                 end in
      generate_multiline_list ["'" ++ msg ++ "'"; "DeprecationWarning"]
        (Some "warnings.warn") None (Some ("(", ")")) (Some false)
  | None => ret tt
  end.

(** The documentation of one entry of [extra_request_args]. *)
Definition extra_arg_doc (entry : string * string * string) : Gen unit :=
  let '(name, data_type_name, doc) := entry in
  if PyStr.truthy (Some data_type_name) then
    emit_wrapped_text (":param " ++ data_type_name ++ " " ++ name ++ ": " ++ doc)
      (Some "    ")
  else
    emit_wrapped_text (":param " ++ name ++ ": " ++ doc) (Some "    ").

(** The documentation of one field of a struct argument. *)
Definition field_doc (namespace : namespace) (field : field) : Gen unit :=
  self <- get_self ;;
  let type_doc := _format_type_in_doc self namespace (f_data_type field) in
  if PyStr.truthy (f_doc field) then
    doc <- lift (process_doc (text_of (f_doc field)) (_docf self)) ;;
    let field_doc :=
      if is_user_defined_type (f_data_type field)
      then ":param " ++ f_name field ++ ": " ++ doc
      else ":param " ++ type_doc ++ " " ++ f_name field ++ ": " ++ doc in
    emit_wrapped_text field_doc (Some "    ") ;;
    when (is_user_defined_type (f_data_type field))
      (emit (":type " ++ f_name field ++ ": " ++ type_doc))
  else
    emit_wrapped_text (":type " ++ f_name field ++ ": " ++ type_doc) None.

(** The documentation of a union argument. *)
Definition union_arg_doc (namespace : namespace) (arg_data_type : data_type)
    (doc : option string) : Gen unit :=
  self <- get_self ;;
  (if PyStr.truthy doc then
     d <- lift (process_doc (text_of doc) (_docf self)) ;;
     emit_wrapped_text (":param arg: " ++ d) (Some "    ")
   else ret tt) ;;
  emit (":type arg: " ++ _format_type_in_doc self namespace arg_data_type).

(** The block describing all input parameters. *)
Definition param_section (namespace : namespace) (arg_data_type : data_type)
    (fields : list field) (overview : option string)
    (extra_request_args : option (list (string * string * string)))
    : Gen unit :=
  when (truthy_list extra_request_args || nonempty fields)
    (when (PyStr.truthy overview) emit_blank ;;
     when (truthy_list extra_request_args)
       (for_each (items_of extra_request_args) extra_arg_doc) ;;
     match arg_data_type with
     | Struct _ => for_each fields (field_doc namespace)
     | Union c => union_arg_doc namespace arg_data_type (c_doc c)
     | _ => ret tt
     end).

(** The blank line emitted when an overview is followed by no parameter
    section. *)
Definition overview_separator (fields : list field) (overview : option string)
    (extra_request_args : option (list (string * string * string)))
    : Gen unit :=
  when (PyStr.truthy overview
        && negb (truthy_list extra_request_args || nonempty fields))
    emit_blank.

Definition return_section (namespace : namespace) (result_data_type : data_type)
    (extra_return_arg : option string) : Gen unit :=
  self <- get_self ;;
  if PyStr.truthy extra_return_arg then
    let args :=
      if is_void_type result_data_type then ["None"]
      else [_format_type_in_doc self namespace result_data_type] in
    let args := py_append args (text_of extra_return_arg) in
    generate_multiline_list args (Some ":rtype: ") None None None
  else if is_void_type result_data_type then emit ":rtype: None"
  else emit (":rtype: " ++ _format_type_in_doc self namespace result_data_type).

Definition error_section (namespace : namespace) (error_data_type : data_type)
    : Gen unit :=
  self <- get_self ;;
  if negb (is_void_type error_data_type) then
    error_fields <- lift (dt_fields error_data_type) ;;
    when (nonempty error_fields)
      (emit (":raises: :class:`" ++ error_class_path (args self) ++ "`") ;;
       emit_blank ;;
       let error_class_name :=
         last (PyStr.rsplit1 "." (error_class_path (args self))) "" in
       emit ("If this raises, " ++ error_class_name ++ " will contain:") ;;
       with_indent (emit (_format_type_in_doc self namespace error_data_type)))
  else ret tt.

Definition footer_section (footer : option string) : Gen unit :=
  when (PyStr.truthy footer) (emit_blank ;; emit_wrapped_text (text_of footer) None).

(** [_generate_docstring_for_func]: a docstring for a function or
    method. *)
Definition _generate_docstring_for_func (namespace : namespace)
    (arg_data_type result_data_type error_data_type : data_type)
    (overview : option string)
    (extra_request_args : option (list (string * string * string)))
    (extra_return_arg footer : option string) : Gen unit :=
  fields <- (if is_void_type arg_data_type then ret []
             else lift (dt_fields arg_data_type)) ;;
  if negb (nonempty fields) && negb (PyStr.truthy overview) then
    ret tt
  else
    emit PyStr.triple_quote ;;
    when (PyStr.truthy overview) (emit_wrapped_text (text_of overview) None) ;;
    param_section namespace arg_data_type fields overview extra_request_args ;;
    overview_separator fields overview extra_request_args ;;
    return_section namespace result_data_type extra_return_arg ;;
    error_section namespace error_data_type ;;
    footer_section footer ;;
    emit PyStr.triple_quote.

(** The statement that builds the request argument. *)
Definition arg_construction (arg_data_type : data_type) : Gen unit :=
  match arg_data_type with
  | Void => emit "arg = None"
  | Struct c =>
      generate_multiline_list (map f_name (c_all_fields c))
        (Some ("arg = " ++ fmt_namespace (c_namespace c) ++ "."
                 ++ fmt_class (c_name c)))
        None None None
  | Union _ => ret tt
  | _ => raise (AssertionError ("Unhandled request type "
                                  ++ repr_data_type arg_data_type))
  end.

(** The extra request arguments, the extra return argument and the
    footer that [_generate_route_helper] hands to the docstring
    composer. *)
Definition helper_extra_request_args (request_binary_body download_to_file : bool)
    : option (list (string * string * string)) :=
  if request_binary_body then
    Some [("f", "bytes", "Contents to upload.")]
  else if download_to_file then
    Some [("download_path", "str", "Path on local machine to save file.")]
  else None.

Definition helper_extra_return_arg (response_binary_body download_to_file : bool)
    : option string :=
  if response_binary_body && negb download_to_file
  then Some ":class:`requests.models.Response`" else None.

Definition helper_footer (response_binary_body download_to_file : bool)
    : option string :=
  if response_binary_body && negb download_to_file
  then Some DOCSTRING_CLOSE_RESPONSE else None.

(** The call of [self.request] and the return statement of a method. *)
Definition request_call (namespace : namespace) (route : route)
    (request_binary_body : bool) : Gen unit :=
  let args :=
    [fmt_namespace (ns_name namespace) ++ "."
       ++ fmt_func (r_name route) (r_version route);
     "'" ++ ns_name namespace ++ "'";
     "arg"] in
  let args :=
    if request_binary_body then py_append args "f"
    else py_append args "None" in
  generate_multiline_list args (Some "r = self.request") None None (Some false).

Definition return_statement (result_data_type : data_type)
    (download_to_file : bool) : Gen unit :=
  if download_to_file then
    emit "self._save_body_to_file(download_path, r[1])" ;;
    (if is_void_type result_data_type then emit "return None"
     else emit "return r[0]")
  else
    if is_void_type result_data_type then emit "return None"
    else emit "return r".

(** [_generate_route_helper]: a Python method that corresponds to a
    route. *)
Definition _generate_route_helper (namespace : namespace) (route : route)
    (download_to_file : bool) : Gen unit :=
  let arg_data_type := r_arg_data_type route in
  let result_data_type := r_result_data_type route in
  request_binary_body <- lift (style_is route "upload") ;;
  response_binary_body <- lift (style_is route "download") ;;
  (if download_to_file then
     if response_binary_body then
       _generate_route_method_decl namespace route arg_data_type
         request_binary_body "_to_file" (Some ["download_path"])
     else
       raise (AssertionError
                "download_to_file can only be set for download-style routes.")
   else
     _generate_route_method_decl namespace route arg_data_type
       request_binary_body "" None) ;;
  with_indent
    (let extra_request_args :=
       helper_extra_request_args request_binary_body download_to_file in
     let extra_return_arg :=
       helper_extra_return_arg response_binary_body download_to_file in
     let footer := helper_footer response_binary_body download_to_file in
     self <- get_self ;;
     func_docstring <-
       (if PyStr.truthy (r_doc route) then
          d <- lift (process_doc (text_of (r_doc route)) (_docf self)) ;;
          ret (Some d)
        else ret None) ;;
     _generate_docstring_for_func namespace arg_data_type result_data_type
       (r_error_data_type route) func_docstring extra_request_args
       extra_return_arg footer ;;
     _maybe_generate_deprecation_warning route ;;
     arg_construction arg_data_type ;;
     request_call namespace route request_binary_body ;;
     return_statement result_data_type download_to_file) ;;
  emit_blank.

(** The methods of an included route: the standard one and, for a
    download-style route, the one that saves the body to a file. *)
Definition generate_route_variants (namespace : namespace) (route : route)
    : Gen unit :=
  _generate_route_helper namespace route false ;;
  is_download <- lift (style_is route "download") ;;
  when is_download (_generate_route_helper namespace route true).

(** The loop over [self.supported_auth_types], left at the first match. *)
Fixpoint first_supported_auth_type (namespace : namespace) (route : route)
    (route_auth_modes : list string) (supported : list string) : Gen unit :=
  match supported with
  | [] => ret tt
  | base_auth_type :: rest =>
      if PyStr.mem base_auth_type route_auth_modes then
        generate_route_variants namespace route
      else
        first_supported_auth_type namespace route route_auth_modes rest
  end.

(** [[t.strip().lower() for t in s.split(',')]] *)
Definition auth_tokens (s : string) : list string :=
  map (fun t => PyStr.lower (PyStr.strip t)) (PyStr.split "," s).

(** The body of the loop over the routes of a namespace. *)
Definition generate_route (namespace : namespace) (route : route) : Gen unit :=
  self <- get_self ;;
  match supported_auth_types self with
  | None => generate_route_variants namespace route
  | Some supported =>
      let route_auth_attr :=
        match r_attrs route with
        | Some d => dict_get d "auth"
        | None => None
        end in
      match route_auth_attr with
      | None => ret tt
      | Some attr =>
          let route_auth_modes := auth_tokens attr in
          first_supported_auth_type namespace route route_auth_modes supported
      end
  end.

(** [_generate_routes]: the Python methods for the routes of a
    namespace. *)
Definition _generate_routes (namespace : namespace) : Gen unit :=
  self <- get_self ;;
  put_self (Backend (args self) (Some namespace) (supported_auth_types self)) ;;
  self <- get_self ;;
  (match auth_type (args self) with
   | Some a =>
       put_self (Backend (args self) (cur_namespace self) (Some (auth_tokens a)))
   | None => ret tt
   end) ;;
  (match check_route_name_conflict namespace with
   | Some e => raise e
   | None => ret tt
   end) ;;
  for_each (ns_routes namespace) (generate_route namespace).

(** [_generate_route_methods]: the methods for the routes of each
    namespace. *)
Definition _generate_route_methods (namespaces : list namespace) : Gen unit :=
  self <- get_self ;;
  put_self (Backend (args self) None (supported_auth_types self)) ;;
  for_each namespaces
    (fun namespace =>
       when (nonempty (ns_routes namespace))
         (emit "# ------------------------------------------" ;;
          emit ("# Routes in " ++ ns_name namespace ++ " namespace") ;;
          emit_blank ;;
          _generate_routes namespace)).

End Backend.

(* ================================================================= *)
(** ** The generated module *)

(** A namespace of the API as [generate] reads it: the namespace with its
    routes, and its [data_types]. *)
Record api_namespace : Type := ApiNamespace {
  an_namespace : namespace;
  an_data_types : list data_type
}.

(** What is written into the output file: raw text ([emit_raw]) or a call
    of the line emitter. *)
Inductive file_cmd : Type :=
| EmitRaw (s : string)
| Line (c : cmd).

(** The file opened by [output_to_relative_path] and what is written into
    it. *)
Record generated_file : Type := File {
  file_path : string;
  file_content : list file_cmd
}.

(** The top of the generated file. *)
Definition base : string :=
"# -*- coding: utf-8 -*-
# Auto-generated by Stone, do not modify.
# flake8: noqa
# pylint: skip-file

from abc import ABCMeta, abstractmethod
".

Section Generate.

Context {H : Helpers}.

(** The inner loop of [generate] over the routes of a namespace: imports
    [warnings] at the first deprecated route and reports whether it did. *)
Fixpoint import_warnings_in_routes (routes : list route) : Gen bool :=
  match routes with
  | [] => ret false
  | route :: rest =>
      match r_deprecated route with
      | Some _ => emit "import warnings" ;; ret true
      | None => import_warnings_in_routes rest
      end
  end.

(** The outer loop of [generate] over the namespaces, left as soon as a
    deprecated route was found. *)
Fixpoint import_warnings (namespaces : list api_namespace) : Gen bool :=
  match namespaces with
  | [] => ret false
  | namespace :: rest =>
      found_deprecated <-
        import_warnings_in_routes (ns_routes (an_namespace namespace)) ;;
      if found_deprecated then ret true else import_warnings rest
  end.

(** [_generate_imports]: only namespaces that define data types are
    imported. *)
Definition _generate_imports (namespaces : list api_namespace) : Gen unit :=
  self <- get_self ;;
  for_each namespaces
    (fun namespace =>
       when (nonempty (an_data_types namespace))
         (emit ("from " ++ types_package (args self) ++ " import "
                  ++ fmt_namespace (ns_name (an_namespace namespace))))).

(** What [generate] writes after the raw header. *)
Definition generate_body (namespaces : list api_namespace) : Gen unit :=
  import_warnings namespaces ;;
  emit_blank ;;
  _generate_imports namespaces ;;
  emit_blank ;;
  emit_blank ;;
  self <- get_self ;;
  emit ("class " ++ class_name (args self) ++ "(object):") ;;
  with_indent
    (emit "__metaclass__ = ABCMeta" ;;
     emit_blank ;;
     emit "@abstractmethod" ;;
     emit "def request(self, route, namespace, arg, arg_binary=None):" ;;
     with_indent (emit "pass") ;;
     emit_blank ;;
     _generate_route_methods (map an_namespace namespaces)).

(** [generate]: the module with a base class that has a method for each
    route across all namespaces. *)
Definition generate (namespaces : list api_namespace) (self : backend)
    : exn + (backend * generated_file) :=
  match generate_body namespaces self with
  | inl e => inl e
  | inr (_, self', out) =>
      inr (self',
           File (module_name (args self) ++ ".py") (EmitRaw base :: map Line out))
  end.

End Generate.

(* ================================================================= *)
(** ** A concrete instance of the helpers *)

(** Inputs on which the backend is run in the examples, and an instance of
    the helpers to run it with. *)
Module Sample.

Definition decimal (z : Z) : string := NilZero.string_of_int (Z.to_int z).

Definition versioned_func (name : string) (version : Z) : string :=
  if (1 <? version)%Z then PyStr.lower name ++ "_v" ++ decimal version
  else PyStr.lower name.

Definition plain_type (t : data_type) : string :=
  match t with
  | Primitive "String" => "str"
  | Primitive "Boolean" => "bool"
  | Primitive n => n
  | Struct c | Union c => c_name c
  | _ => "object"
  end.

Definition plain_obj (v : value) : string :=
  match v with
  | Lit LNone => "None"
  | Lit (LBool true) => "True"
  | Lit (LBool false) => "False"
  | Lit (LInt z) => decimal z
  | Lit (LFloat r) => r
  | Lit (LStr s) => "'" ++ s ++ "'"
  | TagRef _ t => t
  end.

Definition plain_class_name (t : data_type) : string :=
  match t with
  | Struct c | Union c => c_name c
  | Primitive n => n
  | _ => "object"
  end.

(** [%r] of a string without quotes: the string between single quotes,
    its backslashes doubled; and of a data type: the name of its class. *)
Fixpoint escaped (s : string) : string :=
  match s with
  | EmptyString => EmptyString
  | String c s' =>
      if Ascii.eqb c "092"%char then String c (String c (escaped s'))
      else String c (escaped s')
  end.

Definition quoted (s : string) : string := "'" ++ escaped s ++ "'".

Definition class_repr (t : data_type) : string :=
  match t with
  | Void => "Void"
  | Primitive n => n
  | Nullable _ => "Nullable"
  | List _ => "List"
  | Map _ _ => "Map"
  | Struct c | Union c => c_name c
  end.

(** Modelled from the spec: the naming-convention formatters ("identifier
    casing rules"), the literal formatter and the doc-prose scanner, whose
    code is outside this module.  In this instance [fmt_underscores]
    lower-cases, [fmt_func] lower-cases and appends [_v<version>] to
    versions above one, the other naming helpers leave names as they are,
    literals are rendered as Python literals, [process_doc] leaves text
    without doc references alone, and [%r] renders as [quoted] and
    [class_repr] do. *)
Definition helpers : Helpers := {|
  fmt_underscores := PyStr.lower;
  fmt_class := fun name => name;
  fmt_func := versioned_func;
  fmt_namespace := fun name => name;
  fmt_obj := plain_obj;
  fmt_type := plain_type;
  fmt_var := fun name => name;
  check_route_name_conflict := fun _ => None;
  class_name_for_data_type := plain_class_name;
  process_doc := fun doc _ => inr doc;
  repr_str := quoted;
  repr_data_type := class_repr
|}.

Definition cli : cli_args :=
  Args "base" "DropboxBase" "dropbox" ".exceptions.ApiError" None.

Definition self0 : backend := Backend cli None None.

Definition string_t : data_type := Primitive "String".

Definition path_field : field :=
  Field "path" string_t None false (Lit LNone).

Definition files (routes : list route) : namespace := Namespace "files" routes.

Definition entry_t : data_type := Struct (Composite "Entry" "files" None [] []).

(** A union declared in the namespace [users]. *)
Definition mode_t : data_type :=
  Union (Composite "Mode" "users" None
           [Field "add" Void None false (Lit LNone);
            Field "overwrite" Void None false (Lit LNone)] []).

(** A struct declared with a nullable field that also has a default, a
    field defaulting to a union tag, a field with a literal default and a
    required field, in this order; [all_fields] lists the required field
    before the optional ones. *)
Definition list_folder_arg : composite :=
  let cursor := Field "cursor" (Nullable string_t) None true (Lit (LStr "start")) in
  let mode := Field "mode" mode_t (Some "How to list.") true (TagRef mode_t "add") in
  let recursive :=
    Field "recursive" (Primitive "Boolean") None true (Lit (LBool false)) in
  Composite "ListFolderArg" "files" None
    [cursor; mode; recursive; path_field]
    [path_field; cursor; mode; recursive].

(** The backend while it generates the routes of a namespace. *)
Definition self_in (ns : namespace) : backend := Backend cli (Some ns) None.

(** An upload route without argument and without doc text. *)
Definition upload : route :=
  Route "upload" 1 Void Void Void None (Some [("style", "upload")]) None.

(** A route whose struct argument has an inherited field only, without
    doc text. *)
Definition inherited_arg : composite :=
  Composite "GetMetadataArg" "files" None [] [path_field].

Definition get_metadata : route :=
  Route "get_metadata" 1 (Struct inherited_arg) Void Void None (Some []) None.

(** A download route whose [auth] attribute lists two auth types. *)
Definition download : route :=
  Route "download" 1
    (Struct (Composite "DownloadArg" "files" None [path_field] [path_field]))
    entry_t Void (Some "Download a file.")
    (Some [("style", "download"); ("auth", "x,y")]) None.

(** The same route with an [auth] attribute written in capitals and with
    spaces around the auth types. *)
Definition download_spaced : route :=
  Route "download" 1
    (Struct (Composite "DownloadArg" "files" None [path_field] [path_field]))
    entry_t Void (Some "Download a file.")
    (Some [("style", "download"); ("auth", " X , Y")]) None.

(** The backend configured with the auth-type whitelist [x, y], while it
    generates the routes of a namespace. *)
Definition self_filtered (ns : namespace) : backend :=
  Backend (Args "base" "DropboxBase" "dropbox" ".exceptions.ApiError" (Some "x, y"))
    (Some ns) (Some ["x"; "y"]).

(** A namespace whose name is capitalised, and a route of it. *)
Definition Files (routes : list route) : namespace := Namespace "Files" routes.

Definition list_folder : route :=
  Route "list_folder" 2 Void Void Void None (Some []) None.

(** A struct whose field of primitive type defaults to a union tag. *)
Definition misdefaulted_arg : composite :=
  let fields :=
    [path_field;
     Field "mode" string_t None true (TagRef mode_t "add");
     Field "recursive" (Primitive "Boolean") None true (Lit (LBool false))] in
  Composite "BadArg" "files" None fields fields.

(** A route without attributes dict. *)
Definition bare_route : route :=
  Route "ping" 1 Void Void Void None None None.

(** A deprecated route, superseded by [upload]. *)
Definition old_upload : route :=
  Route "old_upload" 1 Void Void Void (Some "Upload a file.")
    (Some [("style", "upload"); ("auth", " X,Y ")]) (Some (Some "upload")).

(** An API of two namespaces: [files], which defines types, and [users],
    which defines none and has no route. *)
Definition api : list api_namespace :=
  [ApiNamespace (files [get_metadata; old_upload; download]) [entry_t];
   ApiNamespace (Namespace "users" []) []].

(** The file generated for [api], and the backend after the run. *)
Definition generated : generated_file :=
  match generate (H := helpers) api self0 with
  | inr (_, f) => f
  | inl _ => File "" []
  end.

Definition after_generate : backend :=
  Backend cli (Some (files [get_metadata; old_upload; download])) None.

(** The method generated for the deprecated route. *)
Definition old_upload_method : list cmd :=
  match output (_generate_route_helper (H := helpers) (files [old_upload])
                  old_upload false) (self_in (files [old_upload])) with
  | Some out => out
  | None => []
  end.

End Sample.

(* ================================================================= *)
(** ** Vocabulary of the properties *)

(** Bracket nesting of a text: the current depth and the deepest one seen
    while reading it from the left. *)
Fixpoint scan_brackets (cur deepest : nat) (s : string) : nat * nat :=
  match s with
  | EmptyString => (cur, deepest)
  | String c s' =>
      if Ascii.eqb c "[" then scan_brackets (S cur) (Nat.max deepest (S cur)) s'
      else if Ascii.eqb c "]" then scan_brackets (Nat.pred cur) deepest s'
      else scan_brackets cur deepest s'
  end.

Definition bracket_depth (s : string) : nat := snd (scan_brackets 0 0 s).

Fixpoint bracket_free (s : string) : bool :=
  match s with
  | EmptyString => true
  | String c s' => negb (Ascii.eqb c "[") && negb (Ascii.eqb c "]") && bracket_free s'
  end.

(** Number of [Nullable], [List] and [Map] wrappers on the deepest path of
    a data type. *)
Fixpoint wrapper_depth (t : data_type) : nat :=
  match t with
  | Nullable inner => S (wrapper_depth inner)
  | List elem => S (wrapper_depth elem)
  | Map k v => S (Nat.max (wrapper_depth k) (wrapper_depth v))
  | _ => 0
  end.

(** The names [fmt_type] gives to the primitive and user-defined types
    inside [t] contain no bracket. *)
Fixpoint leaves_bracket_free {H : Helpers} (t : data_type) : bool :=
  match t with
  | Void => true
  | Nullable inner => leaves_bracket_free inner
  | List elem => leaves_bracket_free elem
  | Map k v => leaves_bracket_free k && leaves_bracket_free v
  | _ => bracket_free (fmt_type t)
  end.

(** A doc reference [val] that designates the route [r] by its bare name:
    the name alone for version one, or the name, a colon and the version. *)
Definition route_tag_refers (val : string) (r : route) : Prop :=
  (val = r_name r /\ r_version r = 1%Z)
  \/ (exists digits, val = r_name r ++ ":" ++ digits
                     /\ PyStr.int digits = Some (r_version r)).

(** The method declarations among emitter calls: name and parameters. *)
Definition decl_of (c : cmd) : option (string * list string) :=
  match c with
  | MultilineList items
      (Some (String "d" (String "e" (String "f" (String " " name))))) _ _ _ =>
      Some (name, items)
  | _ => None
  end.

Definition method_decls (out : list cmd) : list (string * list string) :=
  flat_map (fun c => match decl_of c with Some d => [d] | None => [] end) out.

Definition not_decl (c : cmd) : Prop := decl_of c = None.

Definition not_blank (c : cmd) : Prop := c <> EmitBlank.

(** The docstring delimiters among emitter calls. *)
Definition is_delimiter (c : cmd) : bool :=
  match c with
  | Emit s => s =? PyStr.triple_quote
  | _ => false
  end.


(** The return-type line of a docstring. *)
Definition is_rtype (c : cmd) : Prop :=
  match c with
  | Emit s => PyStr.startswith ":rtype: " s = true
  | MultilineList _ (Some ":rtype: ") _ _ _ => True
  | _ => False
  end.

(** A run that succeeds and leaves the backend instance as it was. *)
Definition yields {A} (m : Gen A) (self : backend) (a : A) (out : list cmd) : Prop :=
  m self = inr (a, self, out).

(** The [style] attribute of a route is [style]. *)
Definition has_style (r : route) (style : string) : bool :=
  match r_attrs r with
  | Some d =>
      match dict_get d "style" with
      | Some s => s =? style
      | None => false
      end
  | None => false
  end.

(** The [auth] attribute of a route, if any. *)
Definition route_auth_attr (r : route) : option string :=
  match r_attrs r with
  | Some d => dict_get d "auth"
  | None => None
  end.

(** Some entry of the whitelist is among the auth tokens of [attr]. *)
Definition whitelisted (supported : list string) (attr : string) : bool :=
  existsb (fun base_auth_type => PyStr.mem base_auth_type (auth_tokens attr)) supported.

(** The auth filter in the words of the specification: the attribute is
    split on commas, each piece is stripped and lower-cased, and some
    entry of the whitelist is one of the tokens so obtained. *)
Definition passes_whitelist (supported : list string) (attr : string) : Prop :=
  exists entry piece,
    In entry supported
    /\ In piece (PyStr.split "," attr)
    /\ entry = PyStr.lower (PyStr.strip piece).

(** A field that gets a default in a signature, and a list of fields in
    which no such field precedes a required one: the order in which the IR
    lists [all_fields]. *)
Definition is_optional (f : field) : bool :=
  is_nullable_type (f_data_type f) || f_has_default f.

Fixpoint required_first (fields : list field) : bool :=
  match fields with
  | [] => true
  | f :: rest =>
      if is_optional f then forallb is_optional rest else required_first rest
  end.

(** A call of the emitter that neither declares a method nor opens or
    closes a docstring. *)
Definition body_line (c : cmd) : Prop :=
  decl_of c = None /\ is_delimiter c = false.

(** A run that emits [out], every call of which satisfies [P]. *)
Definition emits (P : cmd -> Prop) (m : Gen unit) (self : backend)
    (out : list cmd) : Prop :=
  yields m self tt out /\ Forall P out.

(** A line of documentation text. *)
Definition doc_line (c : cmd) : Prop :=
  match c with
  | Emit _ | EmitWrapped _ _ => True
  | _ => False
  end.

Section WellFormed.

Context {H : Helpers}.

(** The parameter of the method signature that stands for a field, in
    the three cases of the specification: a nullable field defaults to
    None; otherwise a field with a default defaults to its rendered
    value; otherwise the parameter is the bare field name. *)
Inductive param_for (f : field) : string -> Prop :=
| param_nullable :
    is_nullable_type (f_data_type f) = true ->
    param_for f (f_name f ++ "=None")
| param_default (v : string) :
    is_nullable_type (f_data_type f) = false ->
    f_has_default f = true ->
    _generate_python_value (default_namespace f) (f_default f) = inr v ->
    param_for f (f_name f ++ "=" ++ v)
| param_required :
    is_nullable_type (f_data_type f) = false ->
    f_has_default f = false ->
    param_for f (f_name f).

(** The default of a field, when one is used, can be rendered. *)
Definition default_renders (f : field) : Prop :=
  is_nullable_type (f_data_type f) = false ->
  f_has_default f = true ->
  exists v, _generate_python_value (default_namespace f) (f_default f) = inr v.

(** The parameters that precede those of the fields. *)
Definition leading_args (request_binary_body : bool)
    (extra_args : option (list string)) : list string :=
  ("self" :: (if truthy_list extra_args then items_of extra_args else [])
     ++ (if request_binary_body then ["f"] else []))%list.

(** The parameters that follow the leading ones in the declaration of a
    method with argument type [arg_data_type]. *)
Definition decl_params (arg_data_type : data_type) : list string :=
  match method_decl_args arg_data_type false None with
  | inr (_ :: params) => params
  | _ => []
  end.

(** The doc references of a doc text, if any, all resolve. *)
Definition doc_resolves (self : backend) (doc : option string) : Prop :=
  PyStr.truthy doc = true ->
  exists d, process_doc (text_of doc) (_docf self) = inr d.

(** An argument type the backend handles, whose doc texts resolve. *)
Definition arg_documentable (self : backend) (arg_data_type : data_type) : Prop :=
  match arg_data_type with
  | Void => True
  | Struct c => Forall (fun f => doc_resolves self (f_doc f)) (c_fields c)
  | Union c => doc_resolves self (c_doc c)
  | _ => False
  end.

(** An argument type whose signature can be built. *)
Definition arg_declarable (arg_data_type : data_type) : Prop :=
  match arg_data_type with
  | Void | Union _ => True
  | Struct c => Forall default_renders (c_all_fields c)
  | _ => False
  end.

(** An error type is Void or a composite. *)
Definition error_documentable (error_data_type : data_type) : Prop :=
  is_void_type error_data_type || is_user_defined_type error_data_type = true.

(** A route for which generation goes through. *)
Definition route_generable (self : backend) (r : route) : Prop :=
  (exists d, r_attrs r = Some d)
  /\ arg_declarable (r_arg_data_type r)
  /\ arg_documentable self (r_arg_data_type r)
  /\ doc_resolves self (r_doc r)
  /\ error_documentable (r_error_data_type r).

(** The run [m] emits the variants of the route [r]: the standard method
    and, exactly when the style of the route is [download], the method
    that saves the body to a file, declared with the suffix [_to_file]
    and the extra leading parameter [download_path]; no other method is
    declared. *)
Definition generates_variants (ns : namespace) (r : route) (self : backend)
    (m : Gen unit) : Prop :=
  exists standard to_file,
    yields (_generate_route_helper ns r false) self tt standard
    /\ (has_style r "download" = true ->
        yields (_generate_route_helper ns r true) self tt to_file)
    /\ yields m self tt
         (standard ++ (if has_style r "download" then to_file else []))%list
    /\ method_decls standard
       = [(method_decl_name ns r "",
           (leading_args (has_style r "upload") None
              ++ decl_params (r_arg_data_type r))%list)]
    /\ (has_style r "download" = true ->
        method_decls to_file
        = [(method_decl_name ns r "_to_file",
            "self" :: "download_path" :: decl_params (r_arg_data_type r))])
    /\ length (method_decls
                 (standard ++ (if has_style r "download" then to_file else [])))
       = (if has_style r "download" then 2 else 1).

(** The declarations of the variants of a route. *)
Definition variant_decls (ns : namespace) (r : route) : list (string * list string) :=
  (method_decl_name ns r "",
   (leading_args (has_style r "upload") None ++ decl_params (r_arg_data_type r))%list)
  :: (if has_style r "download"
      then [(method_decl_name ns r "_to_file",
             "self" :: "download_path" :: decl_params (r_arg_data_type r))]
      else []).

(** The route passes the auth-type filter of the backend. *)
Definition included (self : backend) (r : route) : bool :=
  match supported_auth_types self with
  | None => true
  | Some supported =>
      match route_auth_attr r with
      | Some attr => whitelisted supported attr
      | None => false
      end
  end.

(** The own fields of an argument type, as the docstring composer reads
    them. *)
Definition own_fields (arg_data_type : data_type) : list field :=
  match arg_data_type with
  | Struct c | Union c => c_fields c
  | _ => []
  end.

(** The blank line that the parameter section starts with. *)
Definition blank_before_params (fields : list field) (overview : option string)
    (extras : option (list (string * string * string))) : list cmd :=
  if (truthy_list extras || nonempty fields) && PyStr.truthy overview
  then [EmitBlank] else [].

(** The blank line that follows an overview without parameters. *)
Definition blank_after_overview (fields : list field) (overview : option string)
    (extras : option (list (string * string * string))) : list cmd :=
  if PyStr.truthy overview && negb (truthy_list extras || nonempty fields)
  then [EmitBlank] else [].

End WellFormed.

(* ================================================================= *)
(** ** Vocabulary of the properties of the generated module *)

(** Whenever the run [m] returns, its output satisfies [Q]. *)
Definition always (Q : list cmd -> Prop) {A} (m : Gen A) : Prop :=
  forall self a self' out, m self = inr (a, self', out) -> Q out.

(** Properties of outputs that hold of the empty output, of the
    concatenation of two outputs that have them, and of an output that has
    them once it is put in an indentation scope. *)
Class Compositional (Q : list cmd -> Prop) : Prop := {
  q_nil : Q [];
  q_app : forall o1 o2, Q o1 -> Q o2 -> Q (o1 ++ o2)%list;
  q_indent : forall o, Q o -> Q (IndentEnter :: o ++ [IndentExit])%list
}.

(** The depth of indentation after the calls [out], starting at [depth];
    [None] when a scope is left that was not entered. *)
Fixpoint indent_scan (depth : nat) (out : list cmd) : option nat :=
  match out with
  | [] => Some depth
  | IndentEnter :: out' => indent_scan (S depth) out'
  | IndentExit :: out' =>
      match depth with
      | O => None
      | S d => indent_scan d out'
      end
  | _ :: out' => indent_scan depth out'
  end.

(** Every indentation scope entered is left, and none is left that was not
    entered. *)
Definition balanced (out : list cmd) : Prop :=
  forall depth, indent_scan depth out = Some depth.

(** The statement that imports [warnings], and a call of
    [warnings.warn]. *)
Definition is_import_warnings (c : cmd) : bool :=
  match c with
  | Emit s => s =? "import warnings"
  | _ => false
  end.

Definition is_warn (c : cmd) : bool :=
  match c with
  | MultilineList _ (Some before) _ _ _ => before =? "warnings.warn"
  | _ => false
  end.

(** A call that does not import [warnings] and that calls
    [warnings.warn] only if [D] holds. *)
Definition line_ok (D : Prop) (c : cmd) : Prop :=
  is_import_warnings c = false /\ (is_warn c = true -> D).

(** A call that neither imports [warnings], nor calls [warnings.warn], nor
    delimits a docstring. *)
Definition quiet (c : cmd) : Prop :=
  is_import_warnings c = false /\ is_warn c = false /\ is_delimiter c = false.

(** An output whose indentation is balanced and whose calls all satisfy
    [P]. *)
Definition tidy (P : cmd -> Prop) (out : list cmd) : Prop :=
  balanced out /\ Forall P out.

(** A text without double quote, and a call of the emitter none of whose
    texts has one: whatever the emitter makes of such a call, it writes no
    docstring delimiter. *)
Definition quoteless (s : string) : bool := negb (PyStr.contains PyStr.dquote s).

Definition quoteless_opt (o : option string) : bool :=
  match o with
  | Some s => quoteless s
  | None => true
  end.

Definition cmd_quoteless (c : cmd) : bool :=
  match c with
  | Emit s => quoteless s
  | EmitWrapped s subsequent_prefix => quoteless s && quoteless_opt subsequent_prefix
  | MultilineList items before after delim _ =>
      forallb quoteless items && quoteless_opt before && quoteless_opt after
      && match delim with
         | Some (opening, closing) => quoteless opening && quoteless closing
         | None => true
         end
  | EmitBlank | IndentEnter | IndentExit => true
  end.

(** A docstring is absent or framed by two delimiters, with no double
    quote, hence no delimiter, in the texts in between. *)
Definition framed (out : list cmd) : Prop :=
  out = []
  \/ exists inner,
       out = (Emit PyStr.triple_quote :: inner ++ [Emit PyStr.triple_quote])%list
       /\ Forall (fun c => cmd_quoteless c = true) inner.

(** The names [fmt_type] gives to the primitive and user-defined types
    inside [t] contain no double quote. *)
Fixpoint leaves_quoteless {H : Helpers} (t : data_type) : bool :=
  match t with
  | Void => true
  | Nullable inner => leaves_quoteless inner
  | List elem => leaves_quoteless elem
  | Map k v => leaves_quoteless k && leaves_quoteless v
  | _ => quoteless (fmt_type t)
  end.

Section DocstringTexts.

Context {H : Helpers}.

(** The doc text, once its references are resolved, has no double
    quote. *)
Definition doc_quoteless (self : backend) (doc : option string) : Prop :=
  forall d, process_doc (text_of doc) (_docf self) = inr d -> quoteless d = true.

(** No text that goes into the docstring has a double quote: the names of
    the package, of the namespace and of the error class, the overview,
    the extra arguments, the footer, the names, rendered types and resolved
    doc texts of the documented fields, and the rendered result and error
    types. *)
Definition arg_quoteless (self : backend) (arg_data_type : data_type) : Prop :=
  match arg_data_type with
  | Struct c =>
      Forall (fun f => quoteless (f_name f) = true
                       /\ leaves_quoteless (f_data_type f) = true
                       /\ doc_quoteless self (f_doc f)) (c_fields c)
  | Union c =>
      leaves_quoteless arg_data_type = true /\ doc_quoteless self (c_doc c)
  | _ => True
  end.

Definition docstring_quoteless (self : backend) (namespace : namespace)
    (arg_data_type result_data_type error_data_type : data_type)
    (overview : option string)
    (extra_request_args : option (list (string * string * string)))
    (extra_return_arg footer : option string) : Prop :=
  quoteless (types_package (args self)) = true
  /\ quoteless (ns_name namespace) = true
  /\ quoteless (error_class_path (args self)) = true
  /\ quoteless_opt overview = true
  /\ quoteless_opt extra_return_arg = true
  /\ quoteless_opt footer = true
  /\ Forall (fun entry : string * string * string =>
               let '(name, data_type_name, doc) := entry in
               quoteless name && quoteless data_type_name && quoteless doc = true)
       (items_of extra_request_args)
  /\ arg_quoteless self arg_data_type
  /\ leaves_quoteless result_data_type = true
  /\ leaves_quoteless error_data_type = true.

End DocstringTexts.

(** The calls that write text, each with the indentation depth at which
    it is made, when the calls [out] start at depth [depth]. *)
Fixpoint depths (depth : nat) (out : list cmd) : list (nat * cmd) :=
  match out with
  | [] => []
  | IndentEnter :: out' => depths (S depth) out'
  | IndentExit :: out' => depths (Nat.pred depth) out'
  | c :: out' => (depth, c) :: depths depth out'
  end.

(** A multi-line list is at depth [base] when it declares a method, and
    one level deeper otherwise. *)
Definition placed (base : nat) (call : nat * cmd) : Prop :=
  match snd call with
  | MultilineList _ _ _ _ _ =>
      fst call = match decl_of (snd call) with
                 | Some _ => base
                 | None => S base
                 end
  | _ => True
  end.

(** The output, started at depth [depth], is balanced and has its
    multi-line lists placed around [base]. *)
Definition laid_out (base depth : nat) (out : list cmd) : Prop :=
  balanced out /\ Forall (placed base) (depths depth out).

(** Properties of outputs indexed by the depth at which the output
    starts: of the empty output, of concatenations, and of an output put in
    an indentation scope when it has the property one level deeper. *)
Class Graded (Q : nat -> list cmd -> Prop) : Prop := {
  g_nil : forall d, Q d [];
  g_app : forall d o1 o2, Q d o1 -> Q d o2 -> Q d (o1 ++ o2)%list;
  g_indent : forall d o, Q (S d) o -> Q d (IndentEnter :: o ++ [IndentExit])%list
}.

(** Whenever the run [m] returns from the backend [self], it has left
    [self] as it was and its output satisfies [Q]. *)
Definition always_from (self : backend) (Q : list cmd -> Prop) {A} (m : Gen A)
    : Prop :=
  forall a self' out, m self = inr (a, self', out) -> self' = self /\ Q out.

(** The route is deprecated; some route of some namespace is. *)
Definition is_deprecated (r : route) : bool :=
  match r_deprecated r with Some _ => true | None => false end.

Definition any_deprecated (namespaces : list api_namespace) : bool :=
  existsb (fun n => existsb is_deprecated (ns_routes (an_namespace n))) namespaces.

(** The calls of the line emitter among the content of a file. *)
Definition file_lines (content : list file_cmd) : list cmd :=
  flat_map (fun fc => match fc with Line c => [c] | EmitRaw _ => [] end) content.

(** The whitelist in force once [_generate_routes] has run: the tokens of
    the configured auth type, or else the whitelist the backend had. *)
Definition effective_whitelist (self : backend) : option (list string) :=
  match auth_type (args self) with
  | Some a => Some (auth_tokens a)
  | None => supported_auth_types self
  end.

(** The backend while the routes of [ns] are generated in a run started
    from [self]. *)
Definition scope (self : backend) (ns : namespace) : backend :=
  Backend (args self) (Some ns) (effective_whitelist self).

Section ModuleDecls.

Context {H : Helpers}.

(** The methods to declare for a namespace and for a list of namespaces:
    the variants of the routes that pass the filter, in order. *)
Definition namespace_decls (self : backend) (ns : namespace)
    : list (string * list string) :=
  flat_map (fun r => if included (scope self ns) r then variant_decls ns r else [])
    (ns_routes ns).

Definition module_decls (self : backend) (namespaces : list namespace)
    : list (string * list string) :=
  flat_map (namespace_decls self) namespaces.

End ModuleDecls.

(** The run [m] leaves the backend as it found it. *)
Definition keeps {A} (m : Gen A) : Prop :=
  forall s a s' out, m s = inr (a, s', out) -> s' = s.

(** What a run returns and emits, or the exception it raises, without the
    backend it leaves; the file that [generate] writes, likewise. *)
Definition result_of {A} (x : exn + (A * backend * list cmd)) : exn + (A * list cmd) :=
  match x with
  | inl e => inl e
  | inr (a, _, out) => inr (a, out)
  end.

Definition file_of (x : exn + (backend * generated_file)) : exn + generated_file :=
  match x with
  | inl e => inl e
  | inr (_, f) => inr f
  end.

(** The last of the namespaces that has routes. *)
Definition last_with_routes (namespaces : list namespace) : option namespace :=
  last (map Some (filter (fun ns => nonempty (ns_routes ns)) namespaces)) None.

(* ================================================================= *)
(** ** Python strings: lemmas *)

Module PyStrFacts.
Import PyStr.

Lemma append_empty_r (s : string) : s ++ "" = s.
Proof. induction s as [|c s IH]; simpl; [reflexivity | now rewrite IH]. Qed.

Lemma append_assoc (a b c : string) : (a ++ b) ++ c = a ++ (b ++ c).
Proof. induction a as [|x a IH]; simpl; [reflexivity | now rewrite IH]. Qed.

Lemma append_inv_tail (a b s : string) : a ++ s = b ++ s -> a = b.
Proof.
  intros E.
  assert (L : list_ascii_of_string a = list_ascii_of_string b).
  { apply (app_inv_tail (list_ascii_of_string s)).
    assert (A : forall x y, list_ascii_of_string (x ++ y)
                  = (list_ascii_of_string x ++ list_ascii_of_string y)%list).
    { intros x y. induction x as [|c x IH]; simpl; [reflexivity | now rewrite IH]. }
    now rewrite <- !A, E. }
  rewrite <- (string_of_list_ascii_of_string a),
          <- (string_of_list_ascii_of_string b).
  now rewrite L.
Qed.

Lemma contains_app (c : ascii) (a b : string) :
  contains c (a ++ b) = contains c a || contains c b.
Proof.
  induction a as [|x a IH]; simpl; [reflexivity|].
  destruct (Ascii.eqb x c); [reflexivity | assumption].
Qed.

Lemma split1_none (sep : ascii) (s : string) :
  contains sep s = false -> split1 sep s = [s].
Proof.
  induction s as [|c s IH]; simpl; [reflexivity|].
  destruct (Ascii.eqb c sep); [discriminate|].
  intros E. now rewrite (IH E).
Qed.

Lemma split1_first (sep : ascii) (a b : string) :
  contains sep a = false -> split1 sep (a ++ String sep b) = [a; b].
Proof.
  induction a as [|c a IH]; simpl.
  - intros _. now rewrite Ascii.eqb_refl.
  - destruct (Ascii.eqb c sep); [discriminate|].
    intros E. now rewrite (IH E).
Qed.

Lemma rsplit1_none (sep : ascii) (s : string) :
  contains sep s = false -> rsplit1 sep s = [s].
Proof.
  induction s as [|c s IH]; simpl; [reflexivity|].
  destruct (Ascii.eqb c sep); [discriminate|].
  intros E. now rewrite (IH E).
Qed.

Lemma rsplit1_last (sep : ascii) (a b : string) :
  contains sep b = false -> rsplit1 sep (a ++ String sep b) = [a; b].
Proof.
  intros E. induction a as [|c a IH]; simpl.
  - rewrite (rsplit1_none _ _ E), Ascii.eqb_refl. reflexivity.
  - now rewrite IH.
Qed.

End PyStrFacts.

(* ================================================================= *)
(** ** The type formatter *)

Section TypeFormatter.

Context {H : Helpers}.

Lemma scan_brackets_app (a b : string) : forall cur deepest,
  scan_brackets cur deepest (a ++ b)
  = let (cur', deepest') := scan_brackets cur deepest a in
    scan_brackets cur' deepest' b.
Proof.
  induction a as [|c a IH]; intros cur deepest; simpl.
  - reflexivity.
  - destruct (Ascii.eqb c "["); [apply IH|].
    destruct (Ascii.eqb c "]"); apply IH.
Qed.

Lemma scan_brackets_free (s : string) : forall cur deepest,
  bracket_free s = true -> scan_brackets cur deepest s = (cur, deepest).
Proof.
  induction s as [|c s IH]; intros cur deepest; simpl; [reflexivity|].
  destruct (Ascii.eqb c "["); [discriminate|].
  destruct (Ascii.eqb c "]"); [discriminate|].
  simpl. apply IH.
Qed.

Lemma bracket_free_app (a b : string) :
  bracket_free (a ++ b) = bracket_free a && bracket_free b.
Proof.
  induction a as [|c a IH]; simpl; [reflexivity|].
  rewrite IH. now rewrite !andb_assoc.
Qed.

(** Reading a formatted type at depth [cur] comes back to [cur], having
    gone [wrapper_depth] levels deeper. *)
Lemma scan_format_type (self : backend) (ns : namespace) :
  bracket_free (types_package (args self)) = true ->
  bracket_free (ns_name ns) = true ->
  forall t cur deepest,
    leaves_bracket_free t = true ->
    cur <= deepest ->
    scan_brackets cur deepest (_format_type_in_doc self ns t)
    = (cur, Nat.max deepest (cur + wrapper_depth t)).
Proof.
  intros Hpkg Hns.
  assert (Hclass : forall t, bracket_free (fmt_type t) = true ->
            bracket_free (":class:`" ++ types_package (args self) ++ "."
                            ++ ns_name ns ++ "." ++ fmt_type t ++ "`") = true).
  { intros t Ht. rewrite !bracket_free_app, Hpkg, Hns, Ht. reflexivity. }
  induction t as [ | name | inner IH | elem IH | k IHk v IHv | c | c ];
    intros cur deepest Hleaf Hle; simpl in Hleaf.
  - simpl. f_equal. lia.
  - simpl. rewrite scan_brackets_free by assumption. f_equal. lia.
  - change (_format_type_in_doc self ns (Nullable inner))
      with ("Nullable" ++ String "[" (_format_type_in_doc self ns inner ++ "]")).
    rewrite scan_brackets_app. simpl.
    rewrite scan_brackets_app, IH by (assumption || lia).
    simpl. f_equal. lia.
  - change (_format_type_in_doc self ns (List elem))
      with ("List" ++ String "[" (_format_type_in_doc self ns elem ++ "]")).
    rewrite scan_brackets_app. simpl.
    rewrite scan_brackets_app, IH by (assumption || lia).
    simpl. f_equal. lia.
  - apply andb_prop in Hleaf. destruct Hleaf as [Hk Hv].
    change (_format_type_in_doc self ns (Map k v))
      with ("Map" ++ String "[" (_format_type_in_doc self ns k
               ++ ", " ++ _format_type_in_doc self ns v ++ "]")).
    rewrite scan_brackets_app. simpl.
    rewrite scan_brackets_app, IHk by (assumption || lia).
    change (", " ++ _format_type_in_doc self ns v ++ "]")
      with (String "," (String " " (_format_type_in_doc self ns v ++ "]"))).
    simpl.
    rewrite scan_brackets_app, IHv by (assumption || lia).
    simpl. f_equal. lia.
  - simpl _format_type_in_doc.
    rewrite scan_brackets_free by (apply Hclass; assumption).
    simpl wrapper_depth. f_equal. lia.
  - simpl _format_type_in_doc.
    rewrite scan_brackets_free by (apply Hclass; assumption).
    simpl wrapper_depth. f_equal. lia.
Qed.

(** C7: the type formatter is a total function on data types; it renders
    Void as "None", and Nullable, List and Map as the wrapper name around
    the bracketed renderings of their components; when the rendered names
    of the leaves (and the package and namespace names) hold no bracket,
    the bracket-nesting depth of the output is the wrapper depth of the
    type. *)
Theorem format_type_in_doc_nesting (self : backend) (ns : namespace) (t : data_type) :
  bracket_free (types_package (args self)) = true ->
  bracket_free (ns_name ns) = true ->
  leaves_bracket_free t = true ->
  _format_type_in_doc self ns Void = "None"
  /\ (forall inner, _format_type_in_doc self ns (Nullable inner)
        = "Nullable[" ++ _format_type_in_doc self ns inner ++ "]")
  /\ (forall elem, _format_type_in_doc self ns (List elem)
        = "List[" ++ _format_type_in_doc self ns elem ++ "]")
  /\ (forall k v, _format_type_in_doc self ns (Map k v)
        = "Map[" ++ _format_type_in_doc self ns k ++ ", "
            ++ _format_type_in_doc self ns v ++ "]")
  /\ bracket_depth (_format_type_in_doc self ns t) = wrapper_depth t.
Proof.
  intros Hpkg Hns Hleaf.
  repeat split; try reflexivity.
  unfold bracket_depth.
  rewrite (scan_format_type self ns Hpkg Hns t 0 0 Hleaf (Nat.le_refl 0)).
  reflexivity.
Qed.

End TypeFormatter.

(** The nesting property on [Map[str, Nullable[List[Entry]]]]. *)
Lemma format_type_in_doc_nesting_witness :
  _format_type_in_doc (H := Sample.helpers) Sample.self0 (Sample.files [])
    (Map Sample.string_t (Nullable (List Sample.entry_t)))
  = "Map[str, Nullable[List[:class:`dropbox.files.Entry`]]]"
  /\ bracket_depth
       (_format_type_in_doc (H := Sample.helpers) Sample.self0 (Sample.files [])
          (Map Sample.string_t (Nullable (List Sample.entry_t))))
     = 3.
Proof.
  split; [reflexivity|].
  apply (format_type_in_doc_nesting (H := Sample.helpers)
           Sample.self0 (Sample.files [])
           (Map Sample.string_t (Nullable (List Sample.entry_t)))
           eq_refl eq_refl eq_refl).
Defined.

(* ================================================================= *)
(** ** The doc-reference resolver *)

Section DocResolver.

Context {H : Helpers}.
Import PyStr PyStrFacts.

Lemma docf_val_other (self : backend) (v : string) :
  v <> "null" -> v <> "true" -> v <> "false" -> _docf self "val" v = inr v.
Proof.
  intros N T F. unfold _docf. simpl.
  apply String.eqb_neq in N, T, F. now rewrite N, T, F.
Qed.

Lemma docf_link (self : backend) (anchor url : string) :
  contains " " url = false ->
  _docf self "link" (anchor ++ " " ++ url)
  = inr ("`" ++ anchor ++ " <" ++ url ++ ">`_").
Proof.
  intros E. unfold _docf. simpl.
  change (anchor ++ String " " url) with (anchor ++ String " " url).
  now rewrite (rsplit1_last " " anchor url E).
Qed.

Lemma docf_type_bare (self : backend) (ns : namespace) (foo : string) :
  cur_namespace self = Some ns ->
  contains "." foo = false ->
  _docf self "type" foo
  = inr (":class:`" ++ types_package (args self) ++ "." ++ ns_name ns
           ++ "." ++ foo ++ "`").
Proof.
  intros Hns E. unfold _docf, cur_namespace_name. simpl.
  rewrite E, Hns. simpl. now rewrite append_assoc.
Qed.

Lemma docf_type_qualified (self : backend) (q foo : string) :
  _docf self "type" (q ++ "." ++ foo)
  = inr (":class:`" ++ types_package (args self) ++ "." ++ q
           ++ "." ++ foo ++ "`").
Proof.
  unfold _docf. simpl.
  rewrite contains_app. simpl. rewrite orb_true_r. simpl.
  now rewrite append_assoc.
Qed.

(** C8: [val] references resolve [null] to None, [true] and [false] to
    their capitalised emphasised forms and anything else to itself; a
    [link] reference is cut at its last space into anchor and url; a
    [type] reference to a name without a dot resolves like the same name
    qualified by the current namespace. *)
Theorem docf_resolutions (self : backend) (ns : namespace)
    (anchor url foo v : string) :
  cur_namespace self = Some ns ->
  contains " " url = false ->
  contains "." foo = false ->
  v <> "null" -> v <> "true" -> v <> "false" ->
  _docf self "val" "null" = inr "None"
  /\ _docf self "val" "true" = inr "``True``"
  /\ _docf self "val" "false" = inr "``False``"
  /\ _docf self "val" v = inr v
  /\ _docf self "link" (anchor ++ " " ++ url)
     = inr ("`" ++ anchor ++ " <" ++ url ++ ">`_")
  /\ _docf self "type" foo = _docf self "type" (ns_name ns ++ "." ++ foo)
  /\ _docf self "type" foo
     = inr (":class:`" ++ types_package (args self) ++ "." ++ ns_name ns
              ++ "." ++ foo ++ "`").
Proof.
  intros Hns Hurl Hfoo N T F.
  repeat split; try reflexivity.
  - now apply docf_val_other.
  - now apply docf_link.
  - now rewrite docf_type_qualified, (docf_type_bare self ns foo Hns Hfoo).
  - now apply docf_type_bare.
Qed.

(** What a [route] reference by bare name resolves to. *)
Lemma docf_route_bare (self : backend) (ns : namespace) (r : route) (val : string) :
  cur_namespace self = Some ns ->
  contains "." (r_name r) = false ->
  contains ":" (r_name r) = false ->
  route_tag_refers val r ->
  _docf self "route" val
  = inr (":meth:`" ++ ns_name ns ++ "_"
           ++ fmt_func (r_name r) (r_version r) ++ "`").
Proof.
  intros Hns Hdot Hcolon [[-> Hv] | [digits [-> Hint]]];
    unfold _docf, cur_namespace_name; simpl.
  - rewrite Hcolon, Hdot, Hns, Hv. reflexivity.
  - rewrite contains_app. simpl. rewrite orb_true_r.
    rewrite (split1_first ":" (r_name r) digits Hcolon), Hint.
    rewrite Hdot, Hns. reflexivity.
Qed.

(** The reference and the declared method name agree on namespaces whose
    name [fmt_underscores] leaves unchanged. *)
Lemma docf_route_matches_decl (self : backend) (ns : namespace) (r : route)
    (val : string) :
  cur_namespace self = Some ns ->
  contains "." (r_name r) = false ->
  contains ":" (r_name r) = false ->
  route_tag_refers val r ->
  fmt_underscores (ns_name ns) = ns_name ns ->
  _docf self "route" val = inr (":meth:`" ++ method_decl_name ns r "" ++ "`").
Proof.
  intros Hns Hdot Hcolon Hval Hfix.
  rewrite (docf_route_bare self ns r val Hns Hdot Hcolon Hval).
  unfold method_decl_name. now rewrite Hfix, append_empty_r, !append_assoc.
Qed.

(** C2: a [route] reference by bare name resolves to the raw name of the
    current namespace followed by the formatted route name, while the
    declaration names the method after the namespace name passed through
    [fmt_underscores]: whenever that helper changes the namespace name,
    the reference is not the name of the declared method. *)
Theorem docf_route_differs_from_decl (self : backend) (ns : namespace)
    (r : route) (val : string) :
  cur_namespace self = Some ns ->
  contains "." (r_name r) = false ->
  contains ":" (r_name r) = false ->
  route_tag_refers val r ->
  fmt_underscores (ns_name ns) <> ns_name ns ->
  _docf self "route" val
  = inr (":meth:`" ++ ns_name ns ++ "_"
           ++ fmt_func (r_name r) (r_version r) ++ "`")
  /\ _docf self "route" val
     <> inr (":meth:`" ++ method_decl_name ns r "" ++ "`").
Proof.
  intros Hns Hdot Hcolon Hval Hchg.
  rewrite (docf_route_bare self ns r val Hns Hdot Hcolon Hval).
  split; [reflexivity|].
  intros E. injection E as E. apply Hchg.
  unfold method_decl_name in E.
  rewrite append_empty_r, !append_assoc in E. simpl in E.
  symmetry. exact (append_inv_tail _ _ _ E).
Qed.

(** C6, as the code has it: a tag reference renders as the formatted
    name of the namespace passed in, the class name of the referenced
    union and the formatted tag name; the declaration builder passes the
    namespace of the defaulted field's own data type, so a field of union
    type defaulting to a tag of that union is rendered in the namespace of
    the union. *)
Theorem python_value_of_tag_ref (namespace_name : string)
    (union_data_type : data_type) (tag_name : string)
    (field_name : string) (doc : option string) (has_default : bool)
    (c : composite) :
  _generate_python_value (Some namespace_name) (TagRef union_data_type tag_name)
  = inr (fmt_namespace namespace_name ++ "."
           ++ class_name_for_data_type union_data_type ++ "."
           ++ fmt_var tag_name)
  /\ (let field :=
        Field field_name (Union c) doc has_default (TagRef (Union c) tag_name) in
      _generate_python_value (default_namespace field) (f_default field)
      = inr (fmt_namespace (c_namespace c) ++ "."
               ++ class_name_for_data_type (Union c) ++ "."
               ++ fmt_var tag_name)).
Proof. split; reflexivity. Qed.

End DocResolver.

(** The resolutions of C8 in the namespace [files]. *)
Lemma docf_resolutions_witness :
  _docf (H := Sample.helpers) (Sample.self_in (Sample.files [])) "val" "null"
  = inr "None"
  /\ _docf (H := Sample.helpers) (Sample.self_in (Sample.files [])) "val" "true"
     = inr "``True``"
  /\ _docf (H := Sample.helpers) (Sample.self_in (Sample.files [])) "val" "false"
     = inr "``False``"
  /\ _docf (H := Sample.helpers) (Sample.self_in (Sample.files [])) "val" "1024"
     = inr "1024"
  /\ _docf (H := Sample.helpers) (Sample.self_in (Sample.files [])) "link"
       ("Docs" ++ " " ++ "http://example.com")
     = inr ("`" ++ "Docs" ++ " <" ++ "http://example.com" ++ ">`_")
  /\ _docf (H := Sample.helpers) (Sample.self_in (Sample.files [])) "type" "Foo"
     = _docf (H := Sample.helpers) (Sample.self_in (Sample.files [])) "type"
         ("files" ++ "." ++ "Foo")
  /\ _docf (H := Sample.helpers) (Sample.self_in (Sample.files [])) "type" "Foo"
     = inr (":class:`" ++ "dropbox" ++ "." ++ "files" ++ "." ++ "Foo" ++ "`").
Proof.
  apply (docf_resolutions (H := Sample.helpers)
           (Sample.self_in (Sample.files [])) (Sample.files [])
           "Docs" "http://example.com" "Foo" "1024"
           eq_refl eq_refl eq_refl);
    discriminate.
Defined.

(** In the namespace [Files] the reference to [list_folder:2] is
    [Files_list_folder_v2]; the declared method is [files_list_folder_v2]. *)
Lemma docf_route_differs_from_decl_witness :
  _docf (H := Sample.helpers)
    (Sample.self_in (Sample.Files [Sample.list_folder])) "route" "list_folder:2"
  = inr (":meth:`" ++ "Files" ++ "_"
           ++ fmt_func (Helpers := Sample.helpers) "list_folder" 2 ++ "`")
  /\ _docf (H := Sample.helpers)
       (Sample.self_in (Sample.Files [Sample.list_folder])) "route" "list_folder:2"
     <> inr (":meth:`"
               ++ method_decl_name (H := Sample.helpers)
                    (Sample.Files [Sample.list_folder]) Sample.list_folder ""
               ++ "`").
Proof.
  apply (docf_route_differs_from_decl (H := Sample.helpers)
           (Sample.self_in (Sample.Files [Sample.list_folder]))
           (Sample.Files [Sample.list_folder]) Sample.list_folder
           "list_folder:2" eq_refl eq_refl eq_refl).
  - right. exists "2". split; reflexivity.
  - simpl. discriminate.
Defined.

(** The two names of the witness, evaluated. *)
Example docf_route_in_Files :
  _docf (H := Sample.helpers)
    (Sample.self_in (Sample.Files [Sample.list_folder])) "route" "list_folder:2"
  = inr ":meth:`Files_list_folder_v2`"
  /\ method_decl_name (H := Sample.helpers)
       (Sample.Files [Sample.list_folder]) Sample.list_folder ""
     = "files_list_folder_v2".
Proof. split; reflexivity. Qed.

(** C6 as stated fails: rendered for the namespace [files], a reference to
    a tag of the union [Mode] of the namespace [users] names [files], not
    the namespace of the union. *)
Lemma python_value_of_tag_ref_counterexample :
  _generate_python_value (H := Sample.helpers) (Some "files")
    (TagRef Sample.mode_t "add")
  = inr "files.Mode.add"
  /\ _generate_python_value (H := Sample.helpers) (Some "files")
       (TagRef Sample.mode_t "add")
     <> inr (fmt_namespace (Helpers := Sample.helpers) "users" ++ "."
               ++ class_name_for_data_type (Helpers := Sample.helpers) Sample.mode_t
               ++ "." ++ fmt_var (Helpers := Sample.helpers) "add").
Proof. split; [reflexivity | discriminate]. Qed.

(* ================================================================= *)
(** ** Runs of the generator *)

Section GenFacts.

Lemma yields_ret {A} (a : A) self : yields (ret a) self a [].
Proof. reflexivity. Qed.

Lemma yields_tell c self : yields (tell c) self tt [c].
Proof. reflexivity. Qed.

Lemma yields_get_self self : yields get_self self self [].
Proof. reflexivity. Qed.

Lemma yields_lift {A} (r : exn + A) (a : A) self :
  r = inr a -> yields (lift r) self a [].
Proof. intros ->. reflexivity. Qed.

Lemma yields_bind {A B} (m : Gen A) (k : A -> Gen B) self a b o1 o2 :
  yields m self a o1 -> yields (k a) self b o2 ->
  yields (bind m k) self b (o1 ++ o2)%list.
Proof. unfold yields, bind. intros -> ->. reflexivity. Qed.

Lemma emits_nil P self : emits P (ret tt) self [].
Proof. split; [reflexivity | constructor]. Qed.

Lemma emits_tell (P : cmd -> Prop) c self : P c -> emits P (tell c) self [c].
Proof. intros Hc. split; [reflexivity | repeat constructor; assumption]. Qed.

Lemma emits_seq P (m k : Gen unit) self o1 o2 :
  emits P m self o1 -> emits P k self o2 ->
  emits P (m ;; k) self (o1 ++ o2)%list.
Proof.
  intros [Y1 F1] [Y2 F2]. split.
  - now apply yields_bind with (a := tt).
  - apply Forall_app. now split.
Qed.

Lemma emits_get_self P (k : backend -> Gen unit) self out :
  emits P (k self) self out -> emits P (self' <- get_self ;; k self') self out.
Proof.
  intros [Y F]. split; [|assumption].
  exact (yields_bind get_self k self self tt [] out (yields_get_self self) Y).
Qed.

Lemma emits_lift {A} P (r : exn + A) (k : A -> Gen unit) a self out :
  r = inr a -> emits P (k a) self out -> emits P (x <- lift r ;; k x) self out.
Proof.
  intros E [Y F]. split; [|assumption].
  exact (yields_bind (lift r) k self a tt [] out (yields_lift r a self E) Y).
Qed.

(** A loop whose body always emits admissible calls does so as a whole,
    and emits something when the list is not empty and each round does. *)
Lemma emits_for_each {A} P (body : A -> Gen unit) self (l : list A) :
  (forall x, In x l -> exists out, emits P (body x) self out /\ out <> []) ->
  exists out, emits P (for_each l body) self out /\ (l <> [] -> out <> []).
Proof.
  induction l as [|x l IH]; intros Hbody.
  - exists []. split; [apply emits_nil | congruence].
  - destruct (Hbody x (or_introl eq_refl)) as [o1 [E1 N1]].
    destruct IH as [o2 [E2 _]].
    { intros y Hy. apply Hbody. now right. }
    exists (o1 ++ o2)%list. split.
    + simpl. now apply emits_seq.
    + intros _ E. apply app_eq_nil in E. now destruct E.
Qed.

Lemma Forall_app_intro {A} (P : A -> Prop) (l1 l2 : list A) :
  Forall P l1 -> Forall P l2 -> Forall P (l1 ++ l2).
Proof. intros F1 F2. apply Forall_app. now split. Qed.

Lemma method_decls_app o1 o2 :
  method_decls (o1 ++ o2) = (method_decls o1 ++ method_decls o2)%list.
Proof. unfold method_decls. apply flat_map_app. Qed.

Lemma method_decls_none out : Forall not_decl out -> method_decls out = [].
Proof.
  induction 1 as [|c out Hc _ IH]; [reflexivity|].
  unfold method_decls in *. simpl. unfold not_decl in Hc. now rewrite Hc.
Qed.

Lemma doc_line_not_decl c : doc_line c -> not_decl c.
Proof. destruct c; simpl; intros []; reflexivity. Qed.

Lemma doc_line_not_blank c : doc_line c -> not_blank c.
Proof. destruct c; simpl; intros []; discriminate. Qed.

End GenFacts.

(* ================================================================= *)
(** ** The method-declaration builder *)

Section MethodDecl.

Context {H : Helpers}.

Lemma param_for_functional (f : field) (p q : string) :
  param_for f p -> param_for f q -> p = q.
Proof.
  intros [Hn | v Hn Hd Hv | Hn Hd] [Hn' | v' Hn' Hd' Hv' | Hn' Hd'];
    try reflexivity; try congruence.
Qed.

Lemma params_for_functional (fs : list field) (ps qs : list string) :
  Forall2 param_for fs ps -> Forall2 param_for fs qs -> ps = qs.
Proof.
  intros Hp. revert qs.
  induction Hp as [|f p fs ps Hf _ IH]; intros qs Hq; inversion Hq; subst.
  - reflexivity.
  - f_equal; [eapply param_for_functional; eassumption | now apply IH].
Qed.

(** The loop over the fields appends, in order, the parameter of each
    field. *)
Lemma append_field_args_params (fs : list field) : forall args,
  Forall default_renders fs ->
  exists params,
    append_field_args args fs = inr (args ++ params)%list
    /\ Forall2 param_for fs params.
Proof.
  induction fs as [|f fs IH]; intros args Hr.
  - exists []. split; [simpl; now rewrite app_nil_r | constructor].
  - inversion Hr as [|? ? Hf Hfs]; subst.
    cbn [append_field_args].
    destruct (is_nullable_type (f_data_type f)) eqn:Hn.
    + destruct (IH (py_append args (f_name f ++ "=None")) Hfs) as [ps [E F]].
      exists ((f_name f ++ "=None") :: ps). split.
      * rewrite E. unfold py_append. now rewrite <- app_assoc.
      * constructor; [now apply param_nullable | assumption].
    + destruct (f_has_default f) eqn:Hd.
      * destruct (Hf Hn Hd) as [v Hv]. rewrite Hv.
        destruct (IH (py_append args (f_name f ++ "=" ++ v)) Hfs) as [ps [E F]].
        exists ((f_name f ++ "=" ++ v) :: ps). split.
        -- rewrite E. unfold py_append. now rewrite <- app_assoc.
        -- constructor; [now apply param_default | assumption].
      * destruct (IH (py_append args (f_name f)) Hfs) as [ps [E F]].
        exists (f_name f :: ps). split.
        -- rewrite E. unfold py_append. now rewrite <- app_assoc.
        -- constructor; [now apply param_required | assumption].
Qed.

Lemma method_decl_args_leading (binary : bool) (extra : option (list string)) :
  (let args := ["self"] in
   let args := if truthy_list extra then (args ++ items_of extra)%list else args in
   if binary then py_append args "f" else args)
  = leading_args binary extra.
Proof.
  unfold leading_args, py_append.
  destruct (truthy_list extra), binary; simpl; try reflexivity.
  - now rewrite app_nil_r.
Qed.

Lemma method_decl_args_struct (c : composite) (binary : bool)
    (extra : option (list string)) :
  Forall default_renders (c_all_fields c) ->
  exists params,
    method_decl_args (Struct c) binary extra
    = inr (leading_args binary extra ++ params)%list
    /\ Forall2 param_for (c_all_fields c) params.
Proof.
  intros Hr. unfold method_decl_args. simpl.
  rewrite method_decl_args_leading.
  now apply append_field_args_params.
Qed.

Lemma method_decl_args_other (arg : data_type) (binary : bool)
    (extra : option (list string)) :
  is_struct_type arg = false ->
  arg_declarable arg ->
  method_decl_args arg binary extra
  = inr (leading_args binary extra
           ++ (if is_union_type arg then ["arg"] else []))%list.
Proof.
  intros Hs Hd. unfold method_decl_args.
  rewrite Hs, method_decl_args_leading.
  destruct arg; simpl in *; try contradiction; try discriminate.
  - now rewrite app_nil_r.
  - reflexivity.
Qed.

(** Every declarable argument type gets a signature: the leading
    parameters, then parameters that depend on the argument type only. *)
Lemma method_decl_args_total (arg : data_type) (binary : bool)
    (extra : option (list string)) :
  arg_declarable arg ->
  method_decl_args arg binary extra
  = inr (leading_args binary extra ++ decl_params arg)%list.
Proof.
  intros Hd. destruct (is_struct_type arg) eqn:Hs.
  - destruct arg; try discriminate.
    destruct (method_decl_args_struct c binary extra Hd) as [ps [E F]].
    destruct (method_decl_args_struct c false None Hd) as [ps0 [E0 F0]].
    unfold decl_params. rewrite E, E0. simpl.
    now rewrite (params_for_functional _ _ _ F F0).
  - rewrite (method_decl_args_other arg binary extra Hs Hd).
    unfold decl_params.
    rewrite (method_decl_args_other arg false None Hs Hd). reflexivity.
Qed.


(** C3: for a Struct argument the declaration lists, after the leading
    parameters, one parameter per field of [all_fields], in the order of
    [all_fields]; the own [fields] of the struct, which are in declaration
    order, are not read: structs with the same [all_fields] get the same
    declaration.  The parameter of a field is decided by the first case
    that applies among: nullable type (default None), has a default
    (default the rendered value), neither (required); and this fixes the
    parameters. *)
Theorem method_decl_params_follow_fields (self : backend) (ns : namespace)
    (r : route) (c : composite) (binary : bool) (suffix : string)
    (extra : option (list string)) :
  Forall default_renders (c_all_fields c) ->
  (exists params,
     yields (_generate_route_method_decl ns r (Struct c) binary suffix extra)
       self tt
       [MultilineList (leading_args binary extra ++ params)
          (Some ("def " ++ method_decl_name ns r suffix)) (Some ":") None None]
     /\ Forall2 param_for (c_all_fields c) params
     /\ (forall params',
           Forall2 param_for (c_all_fields c) params' -> params' = params))
  /\ (forall c',
        c_all_fields c' = c_all_fields c ->
        _generate_route_method_decl ns r (Struct c') binary suffix extra
        = _generate_route_method_decl ns r (Struct c) binary suffix extra).
Proof.
  intros Hr. split.
  - destruct (method_decl_args_struct c binary extra Hr) as [ps [E F]].
    exists ps. repeat split.
    + unfold _generate_route_method_decl, yields, bind, lift,
        generate_multiline_list, tell.
      rewrite E. reflexivity.
    + assumption.
    + intros ps' F'. eapply params_for_functional; eassumption.
  - intros c' Hsame.
    unfold _generate_route_method_decl, method_decl_args.
    cbn [is_struct_type dt_all_fields]. now rewrite Hsame.
Qed.

End MethodDecl.

(** The signature built for the struct [ListFolderArg]: the nullable field
    defaults to None although it has a default of its own. *)
Lemma method_decl_params_follow_fields_witness :
  (exists params,
     yields (_generate_route_method_decl (H := Sample.helpers)
               (Sample.files [Sample.list_folder]) Sample.list_folder
               (Struct Sample.list_folder_arg) false "" None)
       Sample.self0 tt
       [MultilineList (leading_args false None ++ params)
          (Some ("def " ++ method_decl_name (H := Sample.helpers)
                             (Sample.files [Sample.list_folder])
                             Sample.list_folder ""))
          (Some ":") None None]
     /\ Forall2 (param_for (H := Sample.helpers))
          (c_all_fields Sample.list_folder_arg) params
     /\ (forall params',
           Forall2 (param_for (H := Sample.helpers))
             (c_all_fields Sample.list_folder_arg) params' ->
           params' = params))
  /\ (forall c',
        c_all_fields c' = c_all_fields Sample.list_folder_arg ->
        _generate_route_method_decl (H := Sample.helpers)
          (Sample.files [Sample.list_folder]) Sample.list_folder
          (Struct c') false "" None
        = _generate_route_method_decl (H := Sample.helpers)
            (Sample.files [Sample.list_folder]) Sample.list_folder
            (Struct Sample.list_folder_arg) false "" None).
Proof.
  apply (method_decl_params_follow_fields (H := Sample.helpers) Sample.self0
           (Sample.files [Sample.list_folder]) Sample.list_folder
           Sample.list_folder_arg false "" None).
  repeat constructor; intros _ _; eexists; reflexivity.
Defined.

(** The struct [ListFolderArg] declares its fields in the order cursor,
    mode, recursive, path, and its [all_fields] has the required path
    first: the signature follows [all_fields], not the declaration
    order. *)
Lemma method_decl_params_follow_fields_counterexample :
  map f_name (c_fields Sample.list_folder_arg)
  = ["cursor"; "mode"; "recursive"; "path"]
  /\ required_first (c_all_fields Sample.list_folder_arg) = true
  /\ yields (_generate_route_method_decl (H := Sample.helpers)
               (Sample.files [Sample.list_folder]) Sample.list_folder
               (Struct Sample.list_folder_arg) false "" None)
       Sample.self0 tt
       [MultilineList
          ["self"; "path"; "cursor=None"; "mode=users.Mode.add";
           "recursive=False"]
          (Some "def files_list_folder_v2") (Some ":") None None]
  /\ ~ Forall2 (param_for (H := Sample.helpers))
         (c_fields Sample.list_folder_arg)
         ["path"; "cursor=None"; "mode=users.Mode.add"; "recursive=False"].
Proof.
  repeat split; try reflexivity.
  intros F. inversion F as [|f p fs ps P _]; subst.
  inversion P; discriminate.
Qed.

(* ================================================================= *)
(** ** The docstring composer *)

Section Docstring.

Context {H : Helpers}.

Lemma extra_arg_doc_emits (entry : string * string * string) self :
  exists out, emits doc_line (extra_arg_doc entry) self out /\ out <> [].
Proof.
  destruct entry as [[name data_type_name] doc]. unfold extra_arg_doc.
  destruct (PyStr.truthy (Some data_type_name));
    eexists; (split; [apply emits_tell; exact I | discriminate]).
Qed.

Lemma field_doc_emits (ns : namespace) (f : field) self :
  doc_resolves self (f_doc f) ->
  exists out, emits doc_line (field_doc ns f) self out /\ out <> [].
Proof.
  intros Hdoc. unfold field_doc.
  destruct (PyStr.truthy (f_doc f)) eqn:Ht.
  - destruct (Hdoc Ht) as [d Hd].
    destruct (is_user_defined_type (f_data_type f)) eqn:Hu.
    + eexists. split.
      * apply emits_get_self. cbv beta iota.
        eapply emits_lift; [exact Hd|]. cbv beta iota.
        apply emits_seq; apply emits_tell; exact I.
      * discriminate.
    + eexists. split.
      * apply emits_get_self. cbv beta iota.
        eapply emits_lift; [exact Hd|]. cbv beta iota.
        apply emits_seq; [apply emits_tell; exact I | apply emits_nil].
      * discriminate.
  - eexists. split.
    + apply emits_get_self. cbv beta iota. apply emits_tell. exact I.
    + discriminate.
Qed.

Lemma union_arg_doc_emits (ns : namespace) (arg : data_type)
    (doc : option string) self :
  doc_resolves self doc ->
  exists out, emits doc_line (union_arg_doc ns arg doc) self out /\ out <> [].
Proof.
  intros Hdoc. unfold union_arg_doc.
  destruct (PyStr.truthy doc) eqn:Ht.
  - destruct (Hdoc Ht) as [d Hd]. eexists. split.
    + apply emits_get_self. apply emits_seq; [|apply emits_tell; exact I].
      eapply emits_lift; [exact Hd|]. apply emits_tell. exact I.
    + discriminate.
  - eexists. split.
    + apply emits_get_self. apply emits_seq; [|apply emits_tell; exact I].
      apply emits_nil.
    + discriminate.
Qed.

(** The documentation of the argument itself: lines of text, at least
    one when the argument has fields of its own. *)
Lemma arg_docs_emit (ns : namespace) (arg : data_type) self :
  arg_documentable self arg ->
  exists out,
    emits doc_line
      (match arg with
       | Struct _ => for_each (own_fields arg) (field_doc ns)
       | Union c => union_arg_doc ns arg (c_doc c)
       | _ => ret tt
       end) self out
    /\ (own_fields arg <> [] -> out <> []).
Proof.
  intros Hok. destruct arg; simpl in Hok; try contradiction.
  - exists []. split; [apply emits_nil | simpl; congruence].
  - apply emits_for_each. intros f Hf. apply field_doc_emits.
    simpl in Hf. rewrite Forall_forall in Hok. now apply Hok.
  - destruct (union_arg_doc_emits ns (Union c) (c_doc c) self Hok) as [o [E N]].
    exists o. now split.
Qed.

Lemma param_section_yields (ns : namespace) (arg : data_type)
    (overview : option string)
    (extras : option (list (string * string * string))) self :
  arg_documentable self arg ->
  exists docs,
    yields (param_section ns arg (own_fields arg) overview extras) self tt
      (blank_before_params (own_fields arg) overview extras ++ docs)%list
    /\ Forall doc_line docs
    /\ (docs = [] <-> truthy_list extras || nonempty (own_fields arg) = false).
Proof.
  intros Hok. unfold param_section, blank_before_params, when.
  destruct (truthy_list extras || nonempty (own_fields arg)) eqn:C; simpl.
  - destruct (arg_docs_emit ns arg self Hok) as [o2 [[Y2 F2] N2]].
    assert (X : exists o1,
               emits doc_line
                 (if truthy_list extras
                  then for_each (items_of extras) extra_arg_doc else ret tt)
                 self o1
               /\ (truthy_list extras = true -> o1 <> [])).
    { destruct (truthy_list extras) eqn:Te.
      - destruct (emits_for_each doc_line extra_arg_doc self (items_of extras))
          as [o [E N]].
        { intros x _. apply extra_arg_doc_emits. }
        exists o. split; [assumption|]. intros _. apply N.
        destruct extras as [[|e l]|]; simpl in *; discriminate.
      - exists []. split; [apply emits_nil | discriminate]. }
    destruct X as [o1 [[Y1 F1] N1]].
    exists (o1 ++ o2)%list. repeat split.
    + apply yields_bind with (a := tt).
      * destruct (PyStr.truthy overview); reflexivity.
      * now apply yields_bind with (a := tt).
    + apply Forall_app. now split.
    + intros E. apply app_eq_nil in E. destruct E as [E1 E2].
      destruct (truthy_list extras); [now elim N1|].
      simpl in C. destruct (own_fields arg); [discriminate|].
      elim N2; [discriminate | assumption].
    + discriminate.
  - exists []. repeat split; constructor.
Qed.

Lemma overview_separator_yields (fields : list field) (overview : option string)
    (extras : option (list (string * string * string))) self :
  yields (overview_separator fields overview extras) self tt
    (blank_after_overview fields overview extras).
Proof.
  unfold overview_separator, blank_after_overview, when.
  destruct (PyStr.truthy overview && negb (truthy_list extras || nonempty fields));
    reflexivity.
Qed.

Lemma return_section_yields (ns : namespace) (result : data_type)
    (extra_return_arg : option string) self :
  exists c,
    yields (return_section ns result extra_return_arg) self tt [c]
    /\ is_rtype c /\ not_decl c.
Proof.
  unfold return_section.
  destruct (PyStr.truthy extra_return_arg) eqn:Te;
    [| destruct (is_void_type result) eqn:Tv];
    eexists; (split; [reflexivity|]);
    split; reflexivity.
Qed.

Lemma error_section_emits (ns : namespace) (err : data_type) self :
  error_documentable err ->
  exists out, emits not_decl (error_section ns err) self out.
Proof.
  unfold error_documentable, error_section. intros Hok.
  destruct err; simpl in Hok; try discriminate.
  - exists []. split; [reflexivity | constructor].
  - destruct (c_fields c) eqn:Ef; eexists;
      (split; [unfold yields, bind, get_self, lift; simpl; rewrite Ef; reflexivity|]);
      repeat constructor.
  - destruct (c_fields c) eqn:Ef; eexists;
      (split; [unfold yields, bind, get_self, lift; simpl; rewrite Ef; reflexivity|]);
      repeat constructor.
Qed.

Lemma footer_section_emits (footer : option string) self :
  exists out, emits not_decl (footer_section footer) self out.
Proof.
  unfold footer_section, when.
  destruct (PyStr.truthy footer); eexists;
    (split; [reflexivity | repeat constructor]).
Qed.

Lemma own_fields_yield (arg : data_type) self :
  arg_documentable self arg ->
  yields (if is_void_type arg then ret [] else lift (dt_fields arg)) self
    (own_fields arg) [].
Proof. destruct arg; simpl; intros Hok; try contradiction; reflexivity. Qed.

(** The layout of a docstring: delimiter, overview, parameter section
    with its leading blank line, separator, return-type line, error
    section and footer, delimiter. *)
Lemma docstring_layout (ns : namespace) (arg result err : data_type)
    (overview : option string)
    (extras : option (list (string * string * string)))
    (extra_return_arg footer : option string) self :
  arg_documentable self arg ->
  error_documentable err ->
  exists docs rtype tail,
    yields (_generate_docstring_for_func ns arg result err overview extras
              extra_return_arg footer) self tt
      (if negb (nonempty (own_fields arg)) && negb (PyStr.truthy overview)
       then []
       else Emit PyStr.triple_quote
              :: (if PyStr.truthy overview
                  then [EmitWrapped (text_of overview) None] else [])
              ++ blank_before_params (own_fields arg) overview extras
              ++ docs
              ++ blank_after_overview (own_fields arg) overview extras
              ++ rtype :: tail ++ [Emit PyStr.triple_quote])%list
    /\ yields (param_section ns arg (own_fields arg) overview extras) self tt
         (blank_before_params (own_fields arg) overview extras ++ docs)%list
    /\ Forall doc_line docs
    /\ (docs = [] <-> truthy_list extras || nonempty (own_fields arg) = false)
    /\ is_rtype rtype /\ not_decl rtype
    /\ Forall not_decl tail.
Proof.
  intros Harg Herr.
  pose proof (own_fields_yield arg self Harg) as Yf.
  destruct (param_section_yields ns arg overview extras self Harg)
    as [docs [Yp [Fd Ed]]].
  pose proof (overview_separator_yields (own_fields arg) overview extras self) as Ys.
  destruct (return_section_yields ns result extra_return_arg self)
    as [rt [Yr [Hr Nr]]].
  destruct (error_section_emits ns err self Herr) as [er [Ye Fe]].
  destruct (footer_section_emits footer self) as [ft [Yft Fft]].
  exists docs, rt, (er ++ ft)%list.
  split; [|repeat split; try assumption; try apply Ed; now apply Forall_app].
  unfold _generate_docstring_for_func.
  apply (yields_bind _ _ self (own_fields arg) tt [] _ Yf).
  destruct (negb (nonempty (own_fields arg)) && negb (PyStr.truthy overview));
    [reflexivity|].
  apply (yields_bind _ _ self tt tt [Emit PyStr.triple_quote] _ (yields_tell _ self)).
  eapply yields_bind with (a := tt).
  { unfold when. destruct (PyStr.truthy overview); reflexivity. }
  rewrite (app_assoc (blank_before_params _ _ _) docs).
  apply (yields_bind _ _ self tt tt _ _ Yp).
  apply (yields_bind _ _ self tt tt _ _ Ys).
  apply (yields_bind _ _ self tt tt [rt] _ Yr).
  rewrite <- app_assoc.
  apply (yields_bind _ _ self tt tt er _ Ye).
  apply (yields_bind _ _ self tt tt ft _ Yft).
  apply yields_tell.
Qed.

(** No docstring is produced exactly when the argument has no field of
    its own and there is no overview, whatever the extra request
    arguments. *)
Lemma docstring_absent_iff (ns : namespace) (arg result err : data_type)
    (overview : option string)
    (extras : option (list (string * string * string)))
    (extra_return_arg footer : option string) self :
  arg_documentable self arg ->
  error_documentable err ->
  exists out,
    yields (_generate_docstring_for_func ns arg result err overview extras
              extra_return_arg footer) self tt out
    /\ (out = [] <-> own_fields arg = [] /\ PyStr.truthy overview = false)
    /\ (out <> [] -> hd_error out = Some (Emit PyStr.triple_quote)).
Proof.
  intros Harg Herr.
  destruct (docstring_layout ns arg result err overview extras
              extra_return_arg footer self Harg Herr)
    as [docs [rt [tail [Y _]]]].
  eexists. split; [exact Y|].
  destruct (own_fields arg) as [|f fs], (PyStr.truthy overview); simpl.
  - split; [split; [intros E; discriminate | intros [_ E]; discriminate]|].
    reflexivity.
  - split; [split; [intros _; now split | reflexivity]|]. intros N. now elim N.
  - split; [split; [intros E; discriminate | intros [E _]; discriminate]|].
    reflexivity.
  - split; [split; [intros E; discriminate | intros [E _]; discriminate]|].
    reflexivity.
Qed.

(** C9: when an overview is written, the parameter section begins with a
    blank line exactly when extra request arguments or fields follow,
    the separator after the overview is emitted exactly when none
    follows, and so the overview and the return-type line are separated
    by exactly one blank line and the documentation lines. *)
Theorem overview_blank_line_exactly_once (ns : namespace)
    (arg result err : data_type) (overview : option string)
    (extras : option (list (string * string * string)))
    (extra_return_arg footer : option string) self :
  PyStr.truthy overview = true ->
  arg_documentable self arg ->
  error_documentable err ->
  exists before docs after rtype tail,
    yields (_generate_docstring_for_func ns arg result err overview extras
              extra_return_arg footer) self tt
      ([Emit PyStr.triple_quote; EmitWrapped (text_of overview) None]
         ++ before ++ docs ++ after ++ rtype :: tail)%list
    /\ yields (param_section ns arg (own_fields arg) overview extras) self tt
         (before ++ docs)%list
    /\ yields (overview_separator (own_fields arg) overview extras) self tt after
    /\ Forall not_blank docs
    /\ is_rtype rtype
    /\ ((truthy_list extras || nonempty (own_fields arg) = true
         /\ before = [EmitBlank] /\ docs <> [] /\ after = [])
        \/ (truthy_list extras || nonempty (own_fields arg) = false
            /\ before = [] /\ docs = [] /\ after = [EmitBlank])).
Proof.
  intros Hov Harg Herr.
  destruct (docstring_layout ns arg result err overview extras
              extra_return_arg footer self Harg Herr)
    as [docs [rt [tail [Y [Yp [Fd [Ed [Hr _]]]]]]]].
  exists (blank_before_params (own_fields arg) overview extras), docs,
    (blank_after_overview (own_fields arg) overview extras), rt,
    (tail ++ [Emit PyStr.triple_quote])%list.
  rewrite Hov, andb_false_r in Y. simpl in Y.
  repeat split.
  - exact Y.
  - exact Yp.
  - apply overview_separator_yields.
  - eapply Forall_impl; [apply doc_line_not_blank | exact Fd].
  - exact Hr.
  - unfold blank_before_params, blank_after_overview. rewrite Hov.
    destruct (truthy_list extras || nonempty (own_fields arg)) eqn:C; simpl.
    + left. repeat split. intros E. apply Ed in E. discriminate.
    + right. repeat split. now apply Ed.
Qed.

End Docstring.

(** The two cases of C9 on the route [list_folder]: with the struct
    argument the blank line opens the parameter section. *)
Lemma overview_blank_line_exactly_once_witness :
  exists before docs after rtype tail,
    yields (_generate_docstring_for_func (H := Sample.helpers)
              (Sample.files []) (Struct Sample.list_folder_arg) Void Void
              (Some "List a folder.") None None None)
      (Sample.self_in (Sample.files [])) tt
      ([Emit PyStr.triple_quote; EmitWrapped "List a folder." None]
         ++ before ++ docs ++ after ++ rtype :: tail)%list
    /\ yields (param_section (H := Sample.helpers) (Sample.files [])
                 (Struct Sample.list_folder_arg)
                 (own_fields (Struct Sample.list_folder_arg))
                 (Some "List a folder.") None)
         (Sample.self_in (Sample.files [])) tt (before ++ docs)%list
    /\ yields (overview_separator (own_fields (Struct Sample.list_folder_arg))
                 (Some "List a folder.") None)
         (Sample.self_in (Sample.files [])) tt after
    /\ Forall not_blank docs
    /\ is_rtype rtype
    /\ ((truthy_list (A := string * string * string) None
           || nonempty (own_fields (Struct Sample.list_folder_arg)) = true
         /\ before = [EmitBlank] /\ docs <> [] /\ after = [])
        \/ (truthy_list (A := string * string * string) None
              || nonempty (own_fields (Struct Sample.list_folder_arg)) = false
            /\ before = [] /\ docs = [] /\ after = [EmitBlank])).
Proof.
  apply (overview_blank_line_exactly_once (H := Sample.helpers)
           (Sample.files []) (Struct Sample.list_folder_arg) Void Void
           (Some "List a folder.") None None None
           (Sample.self_in (Sample.files []))).
  - reflexivity.
  - repeat constructor; intros _; eexists; reflexivity.
  - reflexivity.
Defined.

(** C1 fails on the code: the docstring is skipped whenever the argument
    has no field of its own and there is no overview, also when extra
    request arguments are to be documented; the method generated for an
    upload route without argument and doc text takes the parameter [f] and
    has no docstring. *)
Theorem docstring_skipped_despite_extra_request_args :
  (forall (H : Helpers) (ns : namespace) (result err : data_type)
          (entry : string * string * string)
          (entries : list (string * string * string))
          (extra_return_arg footer : option string) (self : backend),
      _generate_docstring_for_func ns Void result err None
        (Some (entry :: entries)) extra_return_arg footer self
      = inr (tt, self, []))
  /\ output (_generate_route_helper (H := Sample.helpers)
               (Sample.files [Sample.upload]) Sample.upload false)
       (Sample.self_in (Sample.files [Sample.upload]))
     = Some [MultilineList ["self"; "f"] (Some "def files_upload") (Some ":")
               None None;
             IndentEnter;
             Emit "arg = None";
             MultilineList ["files.upload"; "'files'"; "arg"; "f"]
               (Some "r = self.request") None None (Some false);
             Emit "return None";
             IndentExit;
             EmitBlank].
Proof. split; reflexivity. Qed.

(* ================================================================= *)
(** ** The method generated for a route *)

Section RouteHelper.

Context {H : Helpers}.

Lemma style_is_has_style (r : route) (style : string) :
  (exists d, r_attrs r = Some d) -> style_is r style = inr (has_style r style).
Proof.
  intros [d Hd]. unfold style_is, attrs_get, has_style. now rewrite Hd.
Qed.


(** No call made by the docstring composer declares a method. *)
Lemma docstring_not_decl (ns : namespace) (arg result err : data_type)
    (overview : option string)
    (extras : option (list (string * string * string)))
    (extra_return_arg footer : option string) self :
  arg_documentable self arg ->
  error_documentable err ->
  exists doc,
    yields (_generate_docstring_for_func ns arg result err overview extras
              extra_return_arg footer) self tt doc
    /\ Forall not_decl doc.
Proof.
  intros Harg Herr.
  destruct (docstring_layout ns arg result err overview extras
              extra_return_arg footer self Harg Herr)
    as [docs [rt [tail [Y [_ [Fd [_ [_ [Nr Ft]]]]]]]]].
  eexists. split; [exact Y|].
  destruct (negb (nonempty (own_fields arg)) && negb (PyStr.truthy overview));
    [constructor|].
  constructor; [reflexivity|].
  repeat apply Forall_app_intro.
  - destruct (PyStr.truthy overview); repeat constructor.
  - unfold blank_before_params.
    destruct ((truthy_list extras || nonempty (own_fields arg))
              && PyStr.truthy overview); repeat constructor.
  - eapply Forall_impl; [apply doc_line_not_decl | exact Fd].
  - unfold blank_after_overview.
    destruct (PyStr.truthy overview
              && negb (truthy_list extras || nonempty (own_fields arg)));
      repeat constructor.
  - constructor; [exact Nr|]. apply Forall_app_intro; [exact Ft|].
    repeat constructor.
Qed.

Lemma deprecation_emits (r : route) self :
  exists out, emits body_line (_maybe_generate_deprecation_warning r) self out.
Proof.
  unfold _maybe_generate_deprecation_warning.
  destruct (r_deprecated r) as [[by_name|]|]; eexists;
    (split; [reflexivity | repeat constructor]).
Qed.

Lemma arg_construction_emits (arg : data_type) self :
  arg_declarable arg ->
  exists out, emits body_line (arg_construction arg) self out.
Proof.
  destruct arg; simpl; intros Hok; try contradiction; eexists;
    (split; [reflexivity | repeat constructor]).
Qed.

Lemma request_call_emits (ns : namespace) (r : route) (binary : bool) self :
  exists c, emits body_line (request_call ns r binary) self [c].
Proof.
  unfold request_call. destruct binary; eexists;
    (split; [reflexivity | repeat constructor]).
Qed.

Lemma return_statement_emits (result : data_type) (dl : bool) self :
  exists out, emits body_line (return_statement result dl) self out.
Proof.
  unfold return_statement. destruct dl, (is_void_type result); eexists;
    (split; [reflexivity | repeat constructor]).
Qed.

Lemma overview_yields (r : route) self :
  doc_resolves self (r_doc r) ->
  exists overview,
    yields (if PyStr.truthy (r_doc r)
            then d <- lift (process_doc (text_of (r_doc r)) (_docf self)) ;;
                 ret (Some d)
            else ret None) self overview []
    /\ (PyStr.truthy (r_doc r) = false -> overview = None).
Proof.
  intros Hdoc. destruct (PyStr.truthy (r_doc r)) eqn:Ht.
  - destruct (Hdoc Ht) as [d Hd]. exists (Some d). split; [|discriminate].
    unfold yields, bind, lift. rewrite Hd. reflexivity.
  - exists None. split; reflexivity.
Qed.

(** The shape of the method generated for a route: its declaration, then,
    indented, the docstring and the body. *)
Lemma route_helper_layout (ns : namespace) (r : route) (dl : bool) self
    (overview : option string) (doc : list cmd) :
  (exists d, r_attrs r = Some d) ->
  arg_declarable (r_arg_data_type r) ->
  (dl = true -> has_style r "download" = true) ->
  yields (if PyStr.truthy (r_doc r)
          then d <- lift (process_doc (text_of (r_doc r)) (_docf self)) ;;
               ret (Some d)
          else ret None) self overview [] ->
  yields (_generate_docstring_for_func ns (r_arg_data_type r)
            (r_result_data_type r) (r_error_data_type r) overview
            (helper_extra_request_args (has_style r "upload") dl)
            (helper_extra_return_arg (has_style r "download") dl)
            (helper_footer (has_style r "download") dl)) self tt doc ->
  exists dep argc tail,
    yields (_generate_route_helper ns r dl) self tt
      (MultilineList
         (leading_args (has_style r "upload")
            (if dl then Some ["download_path"] else None)
            ++ decl_params (r_arg_data_type r))%list
         (Some ("def " ++ method_decl_name ns r (if dl then "_to_file" else "")))
         (Some ":") None None
         :: IndentEnter :: (doc ++ dep ++ argc ++ tail)%list)
    /\ yields (arg_construction (r_arg_data_type r)) self tt argc
    /\ Forall body_line (dep ++ argc ++ tail)%list.
Proof.
  intros Hattrs Hdecl Hdl Yo Yd.
  pose proof (method_decl_args_total (r_arg_data_type r) (has_style r "upload")
                (if dl then Some ["download_path"] else None) Hdecl) as Eargs.
  destruct (deprecation_emits r self) as [dep [Ydep Fdep]].
  destruct (arg_construction_emits (r_arg_data_type r) self Hdecl)
    as [argc [Yargc Fargc]].
  destruct (request_call_emits ns r (has_style r "upload") self)
    as [req [Yreq Freq]].
  destruct (return_statement_emits (r_result_data_type r) dl self)
    as [rets [Yret Fret]].
  exists dep, argc, ([req] ++ rets ++ [IndentExit; EmitBlank])%list.
  repeat split; try assumption.
  - unfold _generate_route_helper.
    apply (yields_bind _ _ self (has_style r "upload") tt [] _
             (yields_lift _ _ self (style_is_has_style r "upload" Hattrs))).
    apply (yields_bind _ _ self (has_style r "download") tt [] _
             (yields_lift _ _ self (style_is_has_style r "download" Hattrs))).
    simpl.
    match goal with
    | |- yields _ _ _ (?d :: ?rest) =>
        change (d :: rest) with ([d] ++ rest)%list
    end.
    apply yields_bind with (a := tt).
    { destruct dl.
      - rewrite (Hdl eq_refl).
        unfold _generate_route_method_decl, yields, bind, lift.
        rewrite Eargs. reflexivity.
      - unfold _generate_route_method_decl, yields, bind, lift.
        rewrite Eargs. reflexivity. }
    match goal with
    | |- yields _ _ _ ?l =>
        replace l
          with (([IndentEnter] ++ (doc ++ dep ++ argc ++ [req] ++ rets)
                   ++ [IndentExit]) ++ [EmitBlank])%list
          by (simpl; rewrite <- !app_assoc; reflexivity)
    end.
    apply yields_bind with (a := tt); [|apply yields_tell].
    unfold with_indent.
    apply yields_bind with (a := tt); [apply yields_tell|].
    apply yields_bind with (a := tt); [|apply yields_tell].
    apply (yields_bind _ _ self self tt [] _ (yields_get_self self)).
    apply (yields_bind _ _ self overview tt [] _ Yo).
    apply (yields_bind _ _ self tt tt doc _ Yd).
    apply (yields_bind _ _ self tt tt dep _ Ydep).
    apply (yields_bind _ _ self tt tt argc _ Yargc).
    apply (yields_bind _ _ self tt tt [req] _ Yreq).
    exact Yret.
  - repeat apply Forall_app_intro; try assumption.
    repeat constructor.
Qed.

Lemma body_line_not_decl c : body_line c -> not_decl c.
Proof. now intros [N _]. Qed.


(** The method generated for a generable route declares exactly one
    method, with the name and the parameters of its declaration. *)
Lemma route_helper_decls (ns : namespace) (r : route) (dl : bool) self :
  route_generable self r ->
  (dl = true -> has_style r "download" = true) ->
  exists out,
    yields (_generate_route_helper ns r dl) self tt out
    /\ method_decls out
       = [(method_decl_name ns r (if dl then "_to_file" else ""),
           (leading_args (has_style r "upload")
              (if dl then Some ["download_path"] else None)
              ++ decl_params (r_arg_data_type r))%list)].
Proof.
  intros [Hattrs [Hdecl [Hdoc [Hov Herr]]]] Hdl.
  destruct (overview_yields r self Hov) as [overview [Yo _]].
  destruct (docstring_not_decl ns (r_arg_data_type r) (r_result_data_type r)
              (r_error_data_type r) overview
              (helper_extra_request_args (has_style r "upload") dl)
              (helper_extra_return_arg (has_style r "download") dl)
              (helper_footer (has_style r "download") dl) self Hdoc Herr)
    as [doc [Yd Fd]].
  destruct (route_helper_layout ns r dl self overview doc Hattrs Hdecl Hdl Yo Yd)
    as [dep [argc [tail [Y [_ F]]]]].
  eexists. split; [exact Y|].
  change (MultilineList ?a ?b ?c ?d ?e :: IndentEnter :: ?rest)
    with ([MultilineList a b c d e; IndentEnter] ++ rest)%list.
  rewrite method_decls_app.
  rewrite (method_decls_none (doc ++ dep ++ argc ++ tail)).
  - reflexivity.
  - apply Forall_app_intro; [exact Fd|].
    eapply Forall_impl; [apply body_line_not_decl | exact F].
Qed.

Lemma download_is_not_upload (r : route) :
  has_style r "download" = true -> has_style r "upload" = false.
Proof.
  unfold has_style. destruct (r_attrs r) as [d|]; [|discriminate].
  destruct (dict_get d "style") as [s|]; [|discriminate].
  intros E. apply String.eqb_eq in E. now subst.
Qed.

(** The variants of an included route: the standard method and, for a
    download-style route, the method that saves the body to a file, whose
    declaration carries the suffix [_to_file] and the extra leading
    parameter [download_path]. *)
Lemma route_variants_decls (ns : namespace) (r : route) self :
  route_generable self r ->
  generates_variants ns r self (generate_route_variants ns r).
Proof.
  intros Hgen. unfold generates_variants.
  destruct (route_helper_decls ns r false self Hgen) as [o1 [Y1 D1]];
    [discriminate|].
  pose proof Hgen as [Hattrs _].
  assert (Ys : yields (lift (style_is r "download")) self
                 (has_style r "download") []).
  { apply yields_lift. now apply style_is_has_style. }
  destruct (has_style r "download") eqn:Hdl.
  - destruct (route_helper_decls ns r true self Hgen) as [o2 [Y2 D2]];
      [now intros _|].
    exists o1, o2.
    split; [exact Y1|]. split; [intros _; exact Y2|].
    split; [|split; [exact D1|]].
    + unfold generate_route_variants.
      apply (yields_bind _ _ self tt tt o1 _ Y1).
      apply (yields_bind _ _ self true tt [] _ Ys). exact Y2.
    + split.
      * intros _. rewrite D2.
        now rewrite (download_is_not_upload r Hdl).
      * now rewrite method_decls_app, D1, D2.
  - exists o1, [].
    split; [exact Y1|]. split; [discriminate|].
    split; [|split; [exact D1 | split; [discriminate|]]].
    + unfold generate_route_variants.
      apply (yields_bind _ _ self tt tt o1 _ Y1).
      apply (yields_bind _ _ self false tt [] _ Ys). reflexivity.
    + now rewrite app_nil_r, D1.
Qed.

Lemma bind_get_self {A} (k : backend -> Gen A) self :
  (self' <- get_self ;; k self') self = k self self.
Proof.
  unfold bind, get_self. destruct (k self self) as [e | [[a s] o]]; reflexivity.
Qed.

(** The loop over the whitelist generates the variants once when some
    entry is among the auth modes of the route, and nothing otherwise. *)
Lemma first_supported_auth_type_spec (ns : namespace) (r : route)
    (modes : list string) (supported : list string) :
  first_supported_auth_type ns r modes supported
  = if existsb (fun base_auth_type => PyStr.mem base_auth_type modes) supported
    then generate_route_variants ns r
    else ret tt.
Proof.
  induction supported as [|b rest IH]; simpl; [reflexivity|].
  destruct (PyStr.mem b modes); [reflexivity | exact IH].
Qed.

(** The body of the loop over the routes, by cases on the whitelist and on
    the [auth] attribute of the route. *)
Lemma generate_route_cases (ns : namespace) (r : route) self :
  generate_route ns r self
  = match supported_auth_types self with
    | None => generate_route_variants ns r self
    | Some supported =>
        match route_auth_attr r with
        | None => ret tt self
        | Some attr =>
            if whitelisted supported attr
            then generate_route_variants ns r self
            else ret tt self
        end
    end.
Proof.
  unfold generate_route. rewrite bind_get_self.
  destruct (supported_auth_types self) as [supported|]; [|reflexivity].
  unfold route_auth_attr. destruct (r_attrs r) as [d|]; [|reflexivity].
  destruct (dict_get d "auth") as [attr|]; [|reflexivity].
  rewrite first_supported_auth_type_spec. unfold whitelisted.
  now destruct (existsb _ supported).
Qed.

Lemma generates_variants_ext (ns : namespace) (r : route) self (m m' : Gen unit) :
  m' self = m self -> generates_variants ns r self m -> generates_variants ns r self m'.
Proof.
  intros E [o1 [o2 [Y1 [Y2 [Y rest]]]]].
  exists o1, o2. repeat (split; [assumption|]).
  split; [|exact rest]. unfold yields. now rewrite E.
Qed.

(** What [_generate_routes] does before it loops over the routes: the
    namespace becomes the current one and a configured auth type becomes
    the whitelist. *)
Lemma generate_routes_prologue (ns : namespace) self :
  check_route_name_conflict ns = None ->
  _generate_routes ns self
  = for_each (ns_routes ns) (generate_route ns)
      (Backend (args self) (Some ns)
         (match auth_type (args self) with
          | Some a => Some (auth_tokens a)
          | None => supported_auth_types self
          end)).
Proof.
  intros Hc. unfold _generate_routes, bind, get_self, put_self, raise.
  rewrite Hc. simpl.
  destruct (auth_type (args self)); simpl;
    match goal with
    | |- context [for_each ?l ?f ?st] =>
        destruct (for_each l f st) as [e | [[a s'] o]]; reflexivity
    end.
Qed.

(** C5: without an auth-type whitelist a route is always included: it
    yields the standard method and, exactly when its style is
    [download], also the method that saves the body to a file, declared
    with the suffix [_to_file] and the extra leading parameter
    [download_path]. *)
Theorem unfiltered_route_variants (ns : namespace) (r : route) self :
  supported_auth_types self = None ->
  route_generable self r ->
  generates_variants ns r self (generate_route ns r).
Proof.
  intros Hnone Hgen.
  apply (generates_variants_ext ns r self (generate_route_variants ns r)).
  - now rewrite generate_route_cases, Hnone.
  - now apply route_variants_decls.
Qed.


Lemma generates_variants_decls (ns : namespace) (r : route) self (m : Gen unit) :
  generates_variants ns r self m ->
  exists out, yields m self tt out /\ method_decls out = variant_decls ns r.
Proof.
  intros [o1 [o2 [_ [_ [Y [D1 [D2 _]]]]]]].
  eexists. split; [exact Y|].
  rewrite method_decls_app, D1. unfold variant_decls.
  destruct (has_style r "download"); [now rewrite D2 | reflexivity].
Qed.

(** The methods declared for one route: its variants when it passes the
    filter, none otherwise. *)
Lemma generate_route_decls (ns : namespace) (r : route) self :
  (included self r = true -> route_generable self r) ->
  exists out,
    yields (generate_route ns r) self tt out
    /\ method_decls out = if included self r then variant_decls ns r else [].
Proof.
  unfold included. intros Hgen.
  pose proof (generate_route_cases ns r self) as E. unfold yields.
  destruct (supported_auth_types self) as [supported|].
  - destruct (route_auth_attr r) as [attr|]; [|now exists []].
    destruct (whitelisted supported attr); [|now exists []].
    rewrite E.
    now apply generates_variants_decls, route_variants_decls, Hgen.
  - rewrite E.
    now apply generates_variants_decls, route_variants_decls, Hgen.
Qed.

(** The methods declared for a namespace: those of its routes that pass the
    filter, in the order of the routes. *)
Lemma generate_routes_decls (ns : namespace) self :
  check_route_name_conflict ns = None ->
  let self' :=
    Backend (args self) (Some ns)
      (match auth_type (args self) with
       | Some a => Some (auth_tokens a)
       | None => supported_auth_types self
       end) in
  (forall r, In r (ns_routes ns) -> included self' r = true ->
             route_generable self' r) ->
  exists out,
    _generate_routes ns self = inr (tt, self', out)
    /\ method_decls out
       = flat_map (fun r => if included self' r then variant_decls ns r else [])
           (ns_routes ns).
Proof.
  intros Hc self' Hgen. rewrite (generate_routes_prologue ns self Hc).
  fold self'. fold (yields (for_each (ns_routes ns) (generate_route ns)) self' tt).
  induction (ns_routes ns) as [|r rs IH].
  - exists []. split; reflexivity.
  - destruct (generate_route_decls ns r self') as [o1 [Y1 D1]].
    { apply Hgen. now left. }
    destruct IH as [o2 [Y2 D2]].
    { intros r' Hr'. apply Hgen. now right. }
    exists (o1 ++ o2)%list. split.
    + exact (yields_bind _ _ self' tt tt o1 o2 Y1 Y2).
    + simpl. now rewrite method_decls_app, D1, D2.
Qed.

End RouteHelper.

(** C5 on the download route of the namespace [files]: two methods, the
    second with the suffix and the extra leading parameter. *)
Lemma unfiltered_route_variants_witness :
  generates_variants (H := Sample.helpers)
    (Sample.files [Sample.download]) Sample.download
    (Sample.self_in (Sample.files [Sample.download]))
    (generate_route (H := Sample.helpers)
       (Sample.files [Sample.download]) Sample.download)
  /\ option_map method_decls
       (output (generate_route (H := Sample.helpers)
                  (Sample.files [Sample.download]) Sample.download)
          (Sample.self_in (Sample.files [Sample.download])))
     = Some [("files_download", ["self"; "path"]);
             ("files_download_to_file", ["self"; "download_path"; "path"])].
Proof.
  split; [|reflexivity].
  apply (unfiltered_route_variants (H := Sample.helpers)
           (Sample.files [Sample.download]) Sample.download
           (Sample.self_in (Sample.files [Sample.download])) eq_refl).
  repeat split.
  - eexists; reflexivity.
  - repeat constructor; intros _ _; eexists; reflexivity.
  - repeat constructor; intros _; eexists; reflexivity.
  - intros _; eexists; reflexivity.
Defined.

(** The example of the specification: with the auth type [x] configured, a
    route whose [auth] attribute is [x,y] is declared once per variant, and
    a route without [auth] attribute is left out. *)
Example generate_routes_with_whitelist_x :
  option_map method_decls
    (output (_generate_routes (H := Sample.helpers)
               (Sample.files [Sample.get_metadata; Sample.download]))
       (Backend (Args "base" "DropboxBase" "dropbox" ".exceptions.ApiError"
                   (Some "x")) None None))
  = Some [("files_download", ["self"; "path"]);
          ("files_download_to_file", ["self"; "download_path"; "path"])].
Proof. reflexivity. Qed.


(* ================================================================= *)
(** ** Errors and edge cases of the doc-reference resolver *)

Section DocResolverEdges.

Context {H : Helpers}.
Import PyStr PyStrFacts.

(** X1: a doc reference whose tag is none of [type], [route], [link],
    [val] and [field] raises RuntimeError, whatever its value; the message
    ends with the tag as [%r] formats it. *)
Theorem docf_unknown_tag (self : backend) (tag val : string) :
  tag <> "type" -> tag <> "route" -> tag <> "link" -> tag <> "val" ->
  tag <> "field" ->
  _docf self tag val = inl (RuntimeError ("Unknown doc ref tag " ++ repr_str tag)).
Proof.
  intros T R L V F. unfold _docf.
  apply String.eqb_neq in T, R, L, V, F. now rewrite T, R, L, V, F.
Qed.

(** X2: a [link] reference without a space cannot be cut into anchor and
    url and raises ValueError. *)
Theorem docf_link_without_space (self : backend) (val : string) :
  contains " " val = false -> _docf self "link" val = inl ValueError.
Proof.
  intros E. unfold _docf. simpl. now rewrite (rsplit1_none " " val E).
Qed.

(** X3: a [type] or [route] reference that contains a dot is resolved
    without the current namespace: the dotted value is used as it is, the
    route with version one when no version is given. *)
Theorem docf_qualified_ignores_namespace (self : backend) (val : string) :
  contains "." val = true ->
  contains ":" val = false ->
  _docf self "type" val
  = inr (":class:`" ++ types_package (args self) ++ "." ++ val ++ "`")
  /\ _docf self "route" val = inr (":meth:`" ++ fmt_func val 1 ++ "`").
Proof.
  intros D C. unfold _docf. simpl. rewrite D, C. simpl. rewrite D.
  split; reflexivity.
Qed.

(** X4: before a current namespace is set, a [type] or [route] reference
    without a dot (and, for a route, without a version after a colon)
    raises AttributeError. *)
Theorem docf_bare_without_namespace (self : backend) (val : string) :
  cur_namespace self = None ->
  contains "." val = false ->
  contains ":" val = false ->
  _docf self "type" val = inl (AttributeError "name")
  /\ _docf self "route" val = inl (AttributeError "name").
Proof.
  intros N D C. unfold _docf, cur_namespace_name. simpl.
  rewrite D, C, N. simpl. rewrite D. split; reflexivity.
Qed.

(** X5: a [route] reference whose text after the first colon is not an
    integer raises ValueError. *)
Theorem docf_route_bad_version (self : backend) (name version : string) :
  contains ":" name = false ->
  PyStr.int version = None ->
  _docf self "route" (name ++ ":" ++ version) = inl ValueError.
Proof.
  intros C I. unfold _docf. simpl.
  rewrite contains_app. simpl. rewrite orb_true_r.
  now rewrite (split1_first ":" name version C), I.
Qed.

(** X6: the version of a [route] reference defaults to one: the reference
    [name:1] resolves like [name]. *)
Theorem docf_route_default_version (self : backend) (name : string) :
  contains ":" name = false ->
  _docf self "route" (name ++ ":1") = _docf self "route" name.
Proof.
  intros C. unfold _docf. simpl.
  rewrite contains_app. simpl. rewrite orb_true_r.
  rewrite (split1_first ":" name "1" C), C. reflexivity.
Qed.

End DocResolverEdges.

Lemma docf_unknown_tag_witness :
  _docf (H := Sample.helpers) Sample.self0 "a\b" "ApiError"
  = inl (RuntimeError "Unknown doc ref tag 'a\\b'").
Proof.
  apply (docf_unknown_tag (H := Sample.helpers) Sample.self0 "a\b" "ApiError");
    discriminate.
Defined.

Lemma docf_link_without_space_witness :
  _docf (H := Sample.helpers) Sample.self0 "link" "http://example.com"
  = inl ValueError.
Proof.
  apply (docf_link_without_space (H := Sample.helpers) Sample.self0
           "http://example.com" eq_refl).
Defined.

Lemma docf_qualified_ignores_namespace_witness :
  _docf (H := Sample.helpers) Sample.self0 "type" "users.Account"
  = inr (":class:`" ++ "dropbox" ++ "." ++ "users.Account" ++ "`")
  /\ _docf (H := Sample.helpers) Sample.self0 "route" "users.get_account"
     = inr (":meth:`" ++ fmt_func (Helpers := Sample.helpers) "users.get_account" 1
              ++ "`").
Proof.
  split.
  - apply (docf_qualified_ignores_namespace (H := Sample.helpers) Sample.self0
             "users.Account" eq_refl eq_refl).
  - apply (docf_qualified_ignores_namespace (H := Sample.helpers) Sample.self0
             "users.get_account" eq_refl eq_refl).
Defined.

Lemma docf_bare_without_namespace_witness :
  _docf (H := Sample.helpers) Sample.self0 "type" "Account"
  = inl (AttributeError "name")
  /\ _docf (H := Sample.helpers) Sample.self0 "route" "Account"
     = inl (AttributeError "name").
Proof.
  apply (docf_bare_without_namespace (H := Sample.helpers) Sample.self0
           "Account" eq_refl eq_refl eq_refl).
Defined.

Lemma docf_route_bad_version_witness :
  _docf (H := Sample.helpers) (Sample.self_in (Sample.files []))
    "route" ("get_metadata" ++ ":" ++ "two")
  = inl ValueError.
Proof.
  apply (docf_route_bad_version (H := Sample.helpers)
           (Sample.self_in (Sample.files [])) "get_metadata" "two"
           eq_refl eq_refl).
Defined.

Lemma docf_route_default_version_witness :
  _docf (H := Sample.helpers) (Sample.self_in (Sample.files []))
    "route" ("get_metadata" ++ ":1")
  = _docf (H := Sample.helpers) (Sample.self_in (Sample.files []))
      "route" "get_metadata".
Proof.
  apply (docf_route_default_version (H := Sample.helpers)
           (Sample.self_in (Sample.files [])) "get_metadata" eq_refl).
Defined.

(* ================================================================= *)
(** ** Errors and edge cases of the method generation *)

Section MethodEdges.

Context {H : Helpers}.

Lemma append_field_args_raises (f : field) (post : list field) :
  is_nullable_type (f_data_type f) = false ->
  f_has_default f = true ->
  is_user_defined_type (f_data_type f) = false ->
  is_tag_ref (f_default f) = true ->
  forall pre args,
    Forall default_renders pre ->
    append_field_args args (pre ++ f :: post) = inl (AttributeError "name").
Proof.
  intros Hn Hd Hu Ht pre.
  induction pre as [|g pre IH]; intros args Hr.
  - cbn [app append_field_args]. rewrite Hn, Hd.
    assert (N : default_namespace f = None).
    { unfold default_namespace. destruct (f_data_type f); try reflexivity;
        discriminate. }
    cbv zeta. rewrite N. destruct (f_default f); [discriminate | reflexivity].
  - inversion Hr as [|? ? Hg Hpre]; subst.
    cbn [app append_field_args].
    destruct (is_nullable_type (f_data_type g)) eqn:Gn; [now apply IH|].
    destruct (f_has_default g) eqn:Gd; [|now apply IH].
    destruct (Hg Gn Gd) as [v Hv]. cbv zeta. rewrite Hv. now apply IH.
Qed.

(** X7: a struct argument one of whose fields is not nullable, has a
    default that is a union tag, and is not of a user-defined type, cannot
    be declared: the declaration raises AttributeError (the namespace
    handed to the value renderer is None) and nothing is emitted. *)
Theorem method_decl_tag_default_on_plain_field (ns : namespace) (r : route)
    (c : composite) (pre post : list field) (f : field) (binary : bool)
    (suffix : string) (extra : option (list string)) self :
  c_all_fields c = (pre ++ f :: post)%list ->
  Forall default_renders pre ->
  is_nullable_type (f_data_type f) = false ->
  f_has_default f = true ->
  is_user_defined_type (f_data_type f) = false ->
  is_tag_ref (f_default f) = true ->
  _generate_route_method_decl ns r (Struct c) binary suffix extra self
  = inl (AttributeError "name").
Proof.
  intros Hall Hpre Hn Hd Hu Ht.
  unfold _generate_route_method_decl, bind, lift, method_decl_args. simpl.
  rewrite Hall.
  now rewrite (append_field_args_raises f post Hn Hd Hu Ht pre _ Hpre).
Qed.

(** X8: for an argument type that is not a struct, the declaration has the
    leading parameters only when the type is Void, the leading parameters
    and [arg] when it is a union, and raises AssertionError otherwise,
    with a message that ends with the type as [%r] formats it. *)
Theorem method_decl_of_plain_argument (ns : namespace) (r : route)
    (arg : data_type) (binary : bool) (suffix : string)
    (extra : option (list string)) self :
  is_struct_type arg = false ->
  match arg with
  | Void =>
      yields (_generate_route_method_decl ns r arg binary suffix extra) self tt
        [MultilineList (leading_args binary extra)
           (Some ("def " ++ method_decl_name ns r suffix)) (Some ":") None None]
  | Union _ =>
      yields (_generate_route_method_decl ns r arg binary suffix extra) self tt
        [MultilineList (leading_args binary extra ++ ["arg"])%list
           (Some ("def " ++ method_decl_name ns r suffix)) (Some ":") None None]
  | _ =>
      _generate_route_method_decl ns r arg binary suffix extra self
      = inl (AssertionError ("Unhandled request type: " ++ repr_data_type arg))
  end.
Proof.
  intros Hs.
  destruct arg; try discriminate;
    unfold yields, _generate_route_method_decl, bind, lift, method_decl_args;
    cbn [is_struct_type is_union_type is_void_type negb];
    rewrite ?method_decl_args_leading; reflexivity.
Qed.

(** X9: asking for the download-to-file variant of a route whose style is
    not [download] fails the assertion of the helper: AssertionError is
    raised and nothing is emitted. *)
Theorem route_helper_to_file_needs_download (ns : namespace) (r : route) self :
  (exists d, r_attrs r = Some d) ->
  has_style r "download" = false ->
  _generate_route_helper ns r true self
  = inl (AssertionError
           "download_to_file can only be set for download-style routes.").
Proof.
  intros Hattrs Hnd.
  unfold _generate_route_helper, bind, lift.
  rewrite !(style_is_has_style r _ Hattrs), Hnd. reflexivity.
Qed.

(** X10: a route without attributes dict is skipped without output when a
    whitelist is set, and makes the generation raise AttributeError when
    none is set. *)
Theorem generate_route_without_attrs (ns : namespace) (r : route)
    (a : cli_args) (cur : option namespace) (supported : list string) :
  r_attrs r = None ->
  generate_route ns r (Backend a cur (Some supported))
  = inr (tt, Backend a cur (Some supported), [])
  /\ generate_route ns r (Backend a cur None) = inl (AttributeError "get").
Proof.
  intros Hnone. rewrite !generate_route_cases. simpl.
  unfold route_auth_attr. rewrite Hnone. split; [reflexivity|].
  unfold generate_route_variants, _generate_route_helper, bind, lift,
    style_is, attrs_get.
  now rewrite Hnone.
Qed.

End MethodEdges.

Lemma method_decl_tag_default_on_plain_field_witness :
  _generate_route_method_decl (H := Sample.helpers) (Sample.files [])
    Sample.list_folder (Struct Sample.misdefaulted_arg) false "" None
    Sample.self0
  = inl (AttributeError "name").
Proof.
  apply (method_decl_tag_default_on_plain_field (H := Sample.helpers)
           (Sample.files []) Sample.list_folder Sample.misdefaulted_arg
           [Sample.path_field]
           [Field "recursive" (Primitive "Boolean") None true (Lit (LBool false))]
           (Field "mode" Sample.string_t None true (TagRef Sample.mode_t "add"))
           false "" None Sample.self0 eq_refl).
  - repeat constructor; intros _ _; eexists; reflexivity.
  - reflexivity.
  - reflexivity.
  - reflexivity.
  - reflexivity.
Defined.

Lemma method_decl_of_plain_argument_witness :
  _generate_route_method_decl (H := Sample.helpers) (Sample.files [])
    Sample.list_folder (List Sample.string_t) false "" None Sample.self0
  = inl (AssertionError "Unhandled request type: List").
Proof.
  apply (method_decl_of_plain_argument (H := Sample.helpers) (Sample.files [])
           Sample.list_folder (List Sample.string_t) false "" None Sample.self0
           eq_refl).
Defined.

Lemma route_helper_to_file_needs_download_witness :
  _generate_route_helper (H := Sample.helpers) (Sample.files []) Sample.upload true
    Sample.self0
  = inl (AssertionError
           "download_to_file can only be set for download-style routes.").
Proof.
  apply (route_helper_to_file_needs_download (H := Sample.helpers)
           (Sample.files []) Sample.upload Sample.self0).
  - eexists; reflexivity.
  - reflexivity.
Defined.

Lemma generate_route_without_attrs_witness :
  generate_route (H := Sample.helpers) (Sample.files []) Sample.bare_route
    (Backend Sample.cli None (Some ["x"]))
  = inr (tt, Backend Sample.cli None (Some ["x"]), [])
  /\ generate_route (H := Sample.helpers) (Sample.files []) Sample.bare_route
       (Backend Sample.cli None None)
     = inl (AttributeError "get").
Proof.
  apply (generate_route_without_attrs (H := Sample.helpers) (Sample.files [])
           Sample.bare_route Sample.cli None ["x"] eq_refl).
Defined.

(* ================================================================= *)
(** ** The auth-type filter *)

Module AuthFacts.
Import PyStr.

Lemma lower_char_idem (c : ascii) : lower_char (lower_char c) = lower_char c.
Proof. destruct c as [[] [] [] [] [] [] [] []]; reflexivity. Qed.

Lemma is_space_lower_char (c : ascii) : is_space (lower_char c) = is_space c.
Proof. destruct c as [[] [] [] [] [] [] [] []]; reflexivity. Qed.

Lemma lower_char_comma (c : ascii) :
  Ascii.eqb (lower_char c) "," = Ascii.eqb c ",".
Proof. destruct c as [[] [] [] [] [] [] [] []]; reflexivity. Qed.

Lemma lower_idem (s : string) : lower (lower s) = lower s.
Proof.
  induction s as [|c s IH]; simpl; [reflexivity|].
  now rewrite lower_char_idem, IH.
Qed.

Lemma lstrip_lower (s : string) : lstrip (lower s) = lower (lstrip s).
Proof.
  induction s as [|c s IH]; simpl; [reflexivity|].
  rewrite is_space_lower_char. destruct (is_space c); [exact IH | reflexivity].
Qed.

Lemma rstrip_lower (s : string) : rstrip (lower s) = lower (rstrip s).
Proof.
  induction s as [|c s IH]; simpl; [reflexivity|].
  rewrite IH, is_space_lower_char.
  destruct (rstrip s); simpl; [destruct (is_space c)|]; reflexivity.
Qed.

Lemma strip_lower (s : string) : strip (lower s) = lower (strip s).
Proof. unfold strip. now rewrite lstrip_lower, rstrip_lower. Qed.

Lemma split_lower (s : string) : split "," (lower s) = map lower (split "," s).
Proof.
  induction s as [|c s IH]; simpl; [reflexivity|].
  rewrite lower_char_comma, IH.
  destruct (Ascii.eqb c ","); simpl; [reflexivity|].
  destruct (split "," s); reflexivity.
Qed.

Lemma split_nonempty (sep : ascii) (s : string) : split sep s <> [].
Proof.
  destruct s as [|c s]; simpl; [discriminate|].
  destruct (Ascii.eqb c sep); [discriminate|].
  destruct (split sep s); discriminate.
Qed.

Lemma rstrip_idem (s : string) : rstrip (rstrip s) = rstrip s.
Proof.
  induction s as [|c s IH]; simpl; [reflexivity|].
  destruct (rstrip s) as [|d r] eqn:E.
  - destruct (is_space c) eqn:Sc; simpl; [reflexivity | now rewrite Sc].
  - simpl. simpl in IH. now rewrite IH.
Qed.

Lemma rstrip_cons (c : ascii) (s : string) :
  is_space c = false -> rstrip (String c s) = String c (rstrip s).
Proof. intros Sc. simpl. rewrite Sc. now destruct (rstrip s). Qed.

Lemma lstrip_head (s : string) :
  lstrip s = EmptyString
  \/ exists c s', lstrip s = String c s' /\ is_space c = false.
Proof.
  induction s as [|c s IH]; simpl; [now left|].
  destruct (is_space c) eqn:Sc; [exact IH|].
  right. now exists c, s.
Qed.

Lemma strip_idem (s : string) : strip (strip s) = strip s.
Proof.
  unfold strip. destruct (lstrip_head s) as [E | [c [s' [E Sc]]]]; rewrite E.
  - reflexivity.
  - rewrite (rstrip_cons c s' Sc). simpl lstrip. rewrite Sc.
    rewrite <- (rstrip_cons c s' Sc). apply rstrip_idem.
Qed.

Lemma mem_In (x : string) (l : list string) : mem x l = true <-> In x l.
Proof.
  induction l as [|y l IH]; simpl; [split; [discriminate | contradiction]|].
  destruct (String.eqb x y) eqn:E.
  - apply String.eqb_eq in E. split; [intros _; left; now symmetry | reflexivity].
  - apply String.eqb_neq in E. rewrite IH. split; [now right|].
    intros [E' | I]; [now elim E | exact I].
Qed.

End AuthFacts.

Section AuthFilter.

Context {H : Helpers}.
Import PyStr AuthFacts.

(** X11: the tokens of an auth string are normalised: lower-casing the
    string does not change them, every token is stripped and lower-cased
    already, and there is at least one token. *)
Theorem auth_tokens_normalised (s : string) :
  auth_tokens (lower s) = auth_tokens s
  /\ Forall (fun t => strip t = t /\ lower t = t) (auth_tokens s)
  /\ auth_tokens s <> [].
Proof.
  unfold auth_tokens. repeat split.
  - rewrite split_lower, map_map. apply map_ext. intros t.
    now rewrite strip_lower, lower_idem.
  - apply Forall_forall. intros t Ht. apply in_map_iff in Ht.
    destruct Ht as [u [<- _]]. split.
    + now rewrite strip_lower, strip_idem.
    + apply lower_idem.
  - intros E. apply map_eq_nil in E. now apply (split_nonempty "," s).
Qed.

(** X12: the loop over the whitelist depends on which entries the
    whitelist has, not on their order or number: two whitelists with the
    same entries generate the same for every route. *)
Theorem first_supported_auth_type_same_entries (ns : namespace) (r : route)
    (modes supported supported' : list string) :
  (forall entry, In entry supported <-> In entry supported') ->
  first_supported_auth_type ns r modes supported
  = first_supported_auth_type ns r modes supported'.
Proof.
  intros Hsame. rewrite !first_supported_auth_type_spec.
  assert (E : existsb (fun b => mem b modes) supported
              = existsb (fun b => mem b modes) supported').
  { apply eq_true_iff_eq. rewrite !existsb_exists.
    split; intros [b [Hb Hm]]; exists b; (split; [now apply Hsame | exact Hm]). }
  now rewrite E.
Qed.

(** X13: a route whose [auth] attribute has the tokens of the configured
    auth type passes the filter, whatever the string is, the empty string
    included: its variants are generated as without whitelist. *)
Theorem generate_route_same_auth_tokens (ns : namespace) (r : route)
    (configured attr : string) self :
  supported_auth_types self = Some (auth_tokens configured) ->
  route_auth_attr r = Some attr ->
  auth_tokens attr = auth_tokens configured ->
  generate_route ns r self = generate_route_variants ns r self.
Proof.
  intros Hs Ha He. rewrite generate_route_cases, Hs, Ha.
  unfold whitelisted. rewrite He.
  destruct (auth_tokens configured) as [|t ts] eqn:Et.
  - now elim (proj2 (proj2 (auth_tokens_normalised configured))).
  - simpl. now rewrite String.eqb_refl.
Qed.

End AuthFilter.

Lemma first_supported_auth_type_same_entries_witness :
  first_supported_auth_type (H := Sample.helpers) (Sample.files [])
    Sample.download ["x"] ["x"; "y"]
  = first_supported_auth_type (H := Sample.helpers) (Sample.files [])
      Sample.download ["x"] ["y"; "x"; "y"].
Proof.
  apply (first_supported_auth_type_same_entries (H := Sample.helpers)
           (Sample.files []) Sample.download ["x"] ["x"; "y"] ["y"; "x"; "y"]).
  intros entry. simpl. tauto.
Defined.

Lemma generate_route_same_auth_tokens_witness :
  generate_route (H := Sample.helpers) (Sample.files []) Sample.old_upload
    (Sample.self_filtered (Sample.files []))
  = generate_route_variants (H := Sample.helpers) (Sample.files [])
      Sample.old_upload (Sample.self_filtered (Sample.files [])).
Proof.
  apply (generate_route_same_auth_tokens (H := Sample.helpers) (Sample.files [])
           Sample.old_upload "x, y" " X,Y " (Sample.self_filtered (Sample.files []))).
  - reflexivity.
  - reflexivity.
  - reflexivity.
Defined.

(* ================================================================= *)
(** ** The auth-type whitelist *)

Section Whitelist.

Context {H : Helpers}.

(** The inclusion test of the code is the filter as the specification
    words it. *)
Lemma whitelisted_iff (supported : list string) (attr : string) :
  whitelisted supported attr = true <-> passes_whitelist supported attr.
Proof.
  unfold whitelisted, passes_whitelist, auth_tokens.
  rewrite existsb_exists. split.
  - intros [entry [Hin Hmem]]. apply AuthFacts.mem_In in Hmem.
    apply in_map_iff in Hmem. destruct Hmem as [piece [E Hp]].
    exists entry, piece. now repeat split.
  - intros [entry [piece [Hin [Hp E]]]]. exists entry. split; [exact Hin|].
    apply AuthFacts.mem_In. apply in_map_iff. exists piece. now split.
Qed.

(** C4: with an auth-type whitelist, a route without [auth] attribute
    yields nothing; a route with one is generated exactly when some
    whitelist entry is among the tokens obtained by splitting the
    attribute on commas and stripping and lower-casing each piece, and
    then its variants are generated once, as without whitelist, however
    many entries match. *)
Theorem whitelisted_route_variants (ns : namespace) (r : route)
    (supported : list string) self :
  supported_auth_types self = Some supported ->
  match route_auth_attr r with
  | None => yields (generate_route ns r) self tt []
  | Some attr =>
      (passes_whitelist supported attr ->
       generate_route ns r self = generate_route_variants ns r self
       /\ (route_generable self r ->
           generates_variants ns r self (generate_route ns r)))
      /\ (~ passes_whitelist supported attr ->
          yields (generate_route ns r) self tt [])
  end.
Proof.
  intros Hsome.
  pose proof (generate_route_cases ns r self) as E. rewrite Hsome in E.
  destruct (route_auth_attr r) as [attr|]; [|exact E].
  pose proof (whitelisted_iff supported attr) as W.
  destruct (whitelisted supported attr); split.
  - intros _. split; [exact E|]. intros Hgen.
    apply (generates_variants_ext ns r self (generate_route_variants ns r) _ E).
    now apply route_variants_decls.
  - intros Hn. elim Hn. now apply W.
  - intros Hp. apply W in Hp. discriminate.
  - intros _. exact E.
Qed.

End Whitelist.

(** C4 on a download route whose [auth] attribute [ X , Y] matches both
    entries of the whitelist [x, y] once stripped and lower-cased: its two
    variants are generated once. *)
Lemma whitelisted_route_variants_witness :
  (generate_route (H := Sample.helpers)
     (Sample.files [Sample.download_spaced]) Sample.download_spaced
     (Sample.self_filtered (Sample.files [Sample.download_spaced]))
   = generate_route_variants (H := Sample.helpers)
       (Sample.files [Sample.download_spaced]) Sample.download_spaced
       (Sample.self_filtered (Sample.files [Sample.download_spaced]))
   /\ generates_variants (H := Sample.helpers)
        (Sample.files [Sample.download_spaced]) Sample.download_spaced
        (Sample.self_filtered (Sample.files [Sample.download_spaced]))
        (generate_route (H := Sample.helpers)
           (Sample.files [Sample.download_spaced]) Sample.download_spaced))
  /\ option_map method_decls
       (output (generate_route (H := Sample.helpers)
                  (Sample.files [Sample.download_spaced]) Sample.download_spaced)
          (Sample.self_filtered (Sample.files [Sample.download_spaced])))
     = Some [("files_download", ["self"; "path"]);
             ("files_download_to_file", ["self"; "download_path"; "path"])].
Proof.
  split; [|reflexivity].
  pose proof (whitelisted_route_variants (H := Sample.helpers)
                (Sample.files [Sample.download_spaced]) Sample.download_spaced
                ["x"; "y"]
                (Sample.self_filtered (Sample.files [Sample.download_spaced]))
                eq_refl)
    as W.
  change (route_auth_attr Sample.download_spaced) with (Some " X , Y") in W.
  cbv beta iota in W. destruct W as [W _].
  destruct W as [E G].
  { exists "x", " X ". repeat split; [now left | now left]. }
  split; [exact E|]. apply G.
  repeat split.
  - eexists; reflexivity.
  - repeat constructor; intros _ _; eexists; reflexivity.
  - repeat constructor; intros _; eexists; reflexivity.
  - intros _; eexists; reflexivity.
Defined.

(* ================================================================= *)
(** ** What every run of the generator emits *)

Section Always.

Context {Q : list cmd -> Prop} {C : Compositional Q}.

Lemma always_ret {A} (a : A) : always Q (ret a).
Proof. intros self b self' out E. injection E as _ _ <-. apply q_nil. Qed.

Lemma always_raise {A} (e : exn) : always Q (@raise A e).
Proof. intros self b self' out E. discriminate. Qed.

Lemma always_get_self : always Q get_self.
Proof. intros self b self' out E. injection E as _ _ <-. apply q_nil. Qed.

Lemma always_put_self (s : backend) : always Q (put_self s).
Proof. intros self b self' out E. injection E as _ _ <-. apply q_nil. Qed.

Lemma always_lift {A} (r : exn + A) : always Q (lift r).
Proof.
  intros self b self' out E. unfold lift in E. destruct r; [discriminate|].
  injection E as _ _ <-. apply q_nil.
Qed.

Lemma always_tell (c : cmd) : Q [c] -> always Q (tell c).
Proof. intros Hc self b self' out E. injection E as _ _ <-. exact Hc. Qed.

Lemma bind_inr {A B} (m : Gen A) (k : A -> Gen B) self b s2 out :
  bind m k self = inr (b, s2, out) ->
  exists a s1 o1 o2,
    m self = inr (a, s1, o1) /\ k a s1 = inr (b, s2, o2) /\ out = (o1 ++ o2)%list.
Proof.
  unfold bind. destruct (m self) as [e | [[a s1] o1]]; [discriminate|].
  destruct (k a s1) as [e | [[b' s2'] o2]] eqn:E2; [discriminate|].
  intros E. injection E as <- <- <-. now exists a, s1, o1, o2.
Qed.

Lemma always_bind {A B} (m : Gen A) (k : A -> Gen B) :
  always Q m -> (forall a, always Q (k a)) -> always Q (bind m k).
Proof.
  intros Hm Hk self b s2 out E.
  destruct (bind_inr m k self b s2 out E) as [a [s1 [o1 [o2 [E1 [E2 ->]]]]]].
  apply q_app; [eapply Hm | eapply Hk]; eassumption.
Qed.

Lemma always_when (b : bool) (m : Gen unit) : always Q m -> always Q (when b m).
Proof. intros Hm. destruct b; [exact Hm | apply always_ret]. Qed.

Lemma always_for_each {A} (body : A -> Gen unit) (l : list A) :
  (forall x, In x l -> always Q (body x)) -> always Q (for_each l body).
Proof.
  induction l as [|x l IH]; intros Hb; simpl.
  - apply always_ret.
  - apply always_bind; [apply Hb; now left|].
    intros _. apply IH. intros y Hy. apply Hb. now right.
Qed.

Lemma always_with_indent (body : Gen unit) :
  always Q body -> always Q (with_indent body).
Proof.
  intros Hb self b s2 out E. unfold with_indent in E.
  destruct (bind_inr _ _ _ _ _ _ E) as [[] [s1 [o1 [o2 [E1 [E2 ->]]]]]].
  injection E1 as <- <-.
  destruct (bind_inr _ _ _ _ _ _ E2) as [[] [s3 [o3 [o4 [E3 [E4 ->]]]]]].
  unfold tell in E4. injection E4 as _ E4. subst o4.
  apply (q_indent o3). eapply Hb; eassumption.
Qed.

End Always.

Lemma always_weaken (Q Q' : list cmd -> Prop) {A} (m : Gen A) :
  (forall out, Q out -> Q' out) -> always Q m -> always Q' m.
Proof. intros QQ Hm self a self' out E. apply QQ. eapply Hm; eassumption. Qed.

Lemma indent_scan_app (o1 o2 : list cmd) : forall depth,
  indent_scan depth (o1 ++ o2)
  = match indent_scan depth o1 with
    | Some depth' => indent_scan depth' o2
    | None => None
    end.
Proof.
  induction o1 as [|c o1 IH]; intros depth; simpl; [reflexivity|].
  destruct c; try apply IH. destruct depth; [reflexivity | apply IH].
Qed.

#[local] Instance balanced_compositional : Compositional balanced.
Proof.
  split.
  - intros depth. reflexivity.
  - intros o1 o2 H1 H2 depth. now rewrite indent_scan_app, H1, H2.
  - intros o Ho depth. simpl. rewrite indent_scan_app, Ho. reflexivity.
Qed.

#[local] Instance forall_compositional (P : cmd -> Prop) :
  P IndentEnter -> P IndentExit -> Compositional (Forall P).
Proof.
  intros He Hx. split.
  - constructor.
  - intros o1 o2. apply Forall_app_intro.
  - intros o Ho. constructor; [exact He|].
    apply Forall_app_intro; [exact Ho | now constructor].
Qed.

#[local] Instance tidy_compositional (P : cmd -> Prop) :
  P IndentEnter -> P IndentExit -> Compositional (tidy P).
Proof.
  intros He Hx. split.
  - split; [apply q_nil | constructor].
  - intros o1 o2 [B1 F1] [B2 F2]. split; [now apply q_app|].
    now apply Forall_app_intro.
  - intros o [B F]. split; [now apply q_indent|].
    constructor; [exact He|]. apply Forall_app_intro; [exact F | now constructor].
Qed.

Lemma quiet_indent : quiet IndentEnter /\ quiet IndentExit.
Proof. repeat split. Qed.

Lemma line_ok_indent (D : Prop) : line_ok D IndentEnter /\ line_ok D IndentExit.
Proof. repeat split; discriminate. Qed.

#[local] Instance tidy_quiet : Compositional (tidy quiet) :=
  tidy_compositional quiet (proj1 quiet_indent) (proj2 quiet_indent).

#[local] Instance tidy_line_ok (D : Prop) : Compositional (tidy (line_ok D)) :=
  tidy_compositional (line_ok D) (proj1 (line_ok_indent D)) (proj2 (line_ok_indent D)).

Lemma quiet_line_ok (D : Prop) (c : cmd) : quiet c -> line_ok D c.
Proof. intros [I [W _]]. split; [exact I|]. rewrite W. discriminate. Qed.

Lemma always_quiet_line_ok (D : Prop) {A} (m : Gen A) :
  always (tidy quiet) m -> always (tidy (line_ok D)) m.
Proof.
  apply always_weaken. intros out [B F]. split; [exact B|].
  eapply Forall_impl; [apply quiet_line_ok | exact F].
Qed.

(** The walk through a run: at each step a lemma already proved of the
    run at hand ([known]), or else the rule of the construct at its head. *)
Ltac always_walk_with known :=
  repeat
    (cbv beta zeta;
     first
       [ known
       | apply always_ret
       | apply always_raise
       | apply always_get_self
       | apply always_put_self
       | apply always_lift
       | apply always_with_indent
       | apply always_when
       | apply always_bind; [ | intros ? ]
       | apply always_for_each; intros ? ?
       | match goal with
         | |- always _ (if ?b then _ else _) => destruct b
         | |- always _ (match ?x with _ => _ end) => destruct x
         end ]).

Ltac always_walk := always_walk_with fail.

(** A single call is balanced when it is not an indentation call, and is
    quiet or harmless by computation. *)
Ltac tidy_line :=
  apply always_tell; split;
  [ intros depth; reflexivity
  | constructor;
    [ first [ repeat split; reflexivity
            | split; [reflexivity | simpl; discriminate] ]
    | constructor ] ].

Section TidyRuns.

Context {H : Helpers}.

Lemma method_decl_tidy (ns : namespace) (r : route) (arg : data_type)
    (binary : bool) (suffix : string) (extra : option (list string)) :
  always (tidy quiet) (_generate_route_method_decl ns r arg binary suffix extra).
Proof. unfold _generate_route_method_decl. always_walk. tidy_line. Qed.

Lemma extra_arg_doc_tidy (entry : string * string * string) :
  always (tidy quiet) (extra_arg_doc entry).
Proof.
  destruct entry as [[name data_type_name] doc]. unfold extra_arg_doc.
  always_walk; tidy_line.
Qed.

Lemma field_doc_tidy (ns : namespace) (f : field) :
  always (tidy quiet) (field_doc ns f).
Proof. unfold field_doc. always_walk; tidy_line. Qed.

Lemma union_arg_doc_tidy (ns : namespace) (arg : data_type) (doc : option string) :
  always (tidy quiet) (union_arg_doc ns arg doc).
Proof. unfold union_arg_doc. always_walk; tidy_line. Qed.

Lemma param_section_tidy (ns : namespace) (arg : data_type) (fields : list field)
    (overview : option string)
    (extras : option (list (string * string * string))) :
  always (tidy quiet) (param_section ns arg fields overview extras).
Proof.
  unfold param_section.
  always_walk_with
    ltac:(idtac; match goal with
          | |- always _ (extra_arg_doc _) => apply extra_arg_doc_tidy
          | |- always _ (field_doc _ _) => apply field_doc_tidy
          | |- always _ (union_arg_doc _ _ _) => apply union_arg_doc_tidy
          end);
    tidy_line.
Qed.

Lemma overview_separator_tidy (fields : list field) (overview : option string)
    (extras : option (list (string * string * string))) :
  always (tidy quiet) (overview_separator fields overview extras).
Proof. unfold overview_separator. always_walk; tidy_line. Qed.

Lemma return_section_tidy (ns : namespace) (result : data_type)
    (extra_return_arg : option string) :
  always (tidy quiet) (return_section ns result extra_return_arg).
Proof. unfold return_section. always_walk; tidy_line. Qed.

Lemma error_section_tidy (ns : namespace) (err : data_type) :
  always (tidy quiet) (error_section ns err).
Proof.
  unfold error_section. destruct err; simpl; always_walk; tidy_line.
Qed.

Lemma footer_section_tidy (footer : option string) :
  always (tidy quiet) (footer_section footer).
Proof. unfold footer_section. always_walk; tidy_line. Qed.

(** The docstring composer: its calls are those of its sections and the
    two delimiters. *)
Lemma docstring_tidy (D : Prop) (ns : namespace) (arg result err : data_type)
    (overview : option string)
    (extras : option (list (string * string * string)))
    (extra_return_arg footer : option string) :
  always (tidy (line_ok D))
    (_generate_docstring_for_func ns arg result err overview extras
       extra_return_arg footer).
Proof.
  unfold _generate_docstring_for_func.
  always_walk_with
    ltac:(idtac; match goal with
          | |- always _ (param_section _ _ _ _ _) =>
              apply always_quiet_line_ok, param_section_tidy
          | |- always _ (overview_separator _ _ _) =>
              apply always_quiet_line_ok, overview_separator_tidy
          | |- always _ (return_section _ _ _) =>
              apply always_quiet_line_ok, return_section_tidy
          | |- always _ (error_section _ _) =>
              apply always_quiet_line_ok, error_section_tidy
          | |- always _ (footer_section _) =>
              apply always_quiet_line_ok, footer_section_tidy
          end);
    tidy_line.
Qed.

Lemma deprecation_tidy (D : Prop) (r : route) :
  (is_deprecated r = true -> D) ->
  always (tidy (line_ok D)) (_maybe_generate_deprecation_warning r).
Proof.
  intros HD. unfold _maybe_generate_deprecation_warning, is_deprecated in *.
  destruct (r_deprecated r) as [by_|]; [|apply always_ret].
  apply always_tell. split; [intros depth; reflexivity|].
  constructor; [|constructor]. split; [reflexivity|]. intros _. now apply HD.
Qed.

Lemma arg_construction_tidy (arg : data_type) :
  always (tidy quiet) (arg_construction arg).
Proof. unfold arg_construction. always_walk; tidy_line. Qed.

Lemma request_call_tidy (ns : namespace) (r : route) (binary : bool) :
  always (tidy quiet) (request_call ns r binary).
Proof. unfold request_call. always_walk; tidy_line. Qed.

Lemma return_statement_tidy (result : data_type) (dl : bool) :
  always (tidy quiet) (return_statement result dl).
Proof. unfold return_statement. always_walk; tidy_line. Qed.

(** The method of a route: it calls [warnings.warn] only if the route is
    deprecated, and leaves the indentation as it found it. *)
Lemma route_helper_tidy (D : Prop) (ns : namespace) (r : route) (dl : bool) :
  (is_deprecated r = true -> D) ->
  always (tidy (line_ok D)) (_generate_route_helper ns r dl).
Proof.
  intros HD. unfold _generate_route_helper.
  always_walk_with
    ltac:(idtac; match goal with
          | |- always _ (_generate_docstring_for_func _ _ _ _ _ _ _ _) =>
              apply docstring_tidy
          | |- always _ (_maybe_generate_deprecation_warning _) =>
              apply deprecation_tidy; exact HD
          | |- always _ (_generate_route_method_decl _ _ _ _ _ _) =>
              apply always_quiet_line_ok, method_decl_tidy
          | |- always _ (arg_construction _) =>
              apply always_quiet_line_ok, arg_construction_tidy
          | |- always _ (request_call _ _ _) =>
              apply always_quiet_line_ok, request_call_tidy
          | |- always _ (return_statement _ _) =>
              apply always_quiet_line_ok, return_statement_tidy
          end);
    tidy_line.
Qed.

Lemma route_variants_tidy (D : Prop) (ns : namespace) (r : route) :
  (is_deprecated r = true -> D) ->
  always (tidy (line_ok D)) (generate_route_variants ns r).
Proof.
  intros HD. unfold generate_route_variants.
  always_walk_with
    ltac:(idtac; match goal with
          | |- always _ (_generate_route_helper _ _ _) =>
              apply route_helper_tidy; exact HD
          end).
Qed.

Lemma first_supported_tidy (D : Prop) (ns : namespace) (r : route)
    (modes supported : list string) :
  (is_deprecated r = true -> D) ->
  always (tidy (line_ok D)) (first_supported_auth_type ns r modes supported).
Proof.
  intros HD. rewrite first_supported_auth_type_spec.
  destruct (existsb _ supported); [now apply route_variants_tidy|].
  apply always_ret.
Qed.

Lemma generate_route_tidy (D : Prop) (ns : namespace) (r : route) :
  (is_deprecated r = true -> D) ->
  always (tidy (line_ok D)) (generate_route ns r).
Proof.
  intros HD. unfold generate_route.
  always_walk_with
    ltac:(idtac; match goal with
          | |- always _ (generate_route_variants _ _) =>
              apply route_variants_tidy; exact HD
          | |- always _ (first_supported_auth_type _ _ _ _) =>
              apply first_supported_tidy; exact HD
          end).
Qed.

Lemma generate_routes_tidy (D : Prop) (ns : namespace) :
  (forall r, In r (ns_routes ns) -> is_deprecated r = true -> D) ->
  always (tidy (line_ok D)) (_generate_routes ns).
Proof.
  intros HD. unfold _generate_routes.
  always_walk_with
    ltac:(idtac; match goal with
          | Hin : In ?r (ns_routes ns) |- always _ (generate_route _ ?r) =>
              apply generate_route_tidy; exact (HD r Hin)
          end).
Qed.

Lemma generate_route_methods_tidy (D : Prop) (namespaces : list namespace) :
  (forall ns r, In ns namespaces -> In r (ns_routes ns) ->
                is_deprecated r = true -> D) ->
  always (tidy (line_ok D)) (_generate_route_methods namespaces).
Proof.
  intros HD. unfold _generate_route_methods.
  always_walk_with
    ltac:(idtac; match goal with
          | Hin : In ?ns namespaces |- always _ (_generate_routes ?ns) =>
              apply generate_routes_tidy; intros r; exact (HD ns r Hin)
          end);
    tidy_line.
Qed.

Lemma generate_imports_tidy (namespaces : list api_namespace) :
  always (tidy quiet) (_generate_imports namespaces).
Proof. unfold _generate_imports. always_walk; tidy_line. Qed.

(** The loops that import [warnings]: the import is emitted once exactly
    when some route is deprecated, and the backend is left as it was. *)
Lemma import_warnings_in_routes_run (routes : list route) self :
  import_warnings_in_routes routes self
  = inr (existsb is_deprecated routes, self,
         if existsb is_deprecated routes then [Emit "import warnings"] else []).
Proof.
  induction routes as [|r routes IH]; simpl; [reflexivity|].
  unfold is_deprecated at 1 3. destruct (r_deprecated r); [reflexivity | exact IH].
Qed.

Lemma import_warnings_run (namespaces : list api_namespace) self :
  import_warnings namespaces self
  = inr (any_deprecated namespaces, self,
         if any_deprecated namespaces then [Emit "import warnings"] else []).
Proof.
  induction namespaces as [|n namespaces IH]; simpl; [reflexivity|].
  unfold bind. rewrite import_warnings_in_routes_run.
  destruct (existsb is_deprecated (ns_routes (an_namespace n))); simpl;
    [reflexivity|].
  rewrite IH. now destruct (any_deprecated namespaces).
Qed.

Lemma any_deprecated_intro (namespaces : list api_namespace) (ns : namespace)
    (r : route) :
  In ns (map an_namespace namespaces) -> In r (ns_routes ns) ->
  is_deprecated r = true -> any_deprecated namespaces = true.
Proof.
  intros Hns Hr Hd. apply in_map_iff in Hns. destruct Hns as [n [<- Hn]].
  unfold any_deprecated. apply existsb_exists. exists n. split; [exact Hn|].
  apply existsb_exists. now exists r.
Qed.

(** The output of [generate]: the import of [warnings] when some route is
    deprecated, then calls none of which imports [warnings], and which call
    [warnings.warn] only if some route is deprecated; the indentation is
    balanced. *)
Lemma generate_body_run (namespaces : list api_namespace) self a self' out :
  generate_body namespaces self = inr (a, self', out) ->
  exists rest,
    out = ((if any_deprecated namespaces then [Emit "import warnings"] else [])
             ++ rest)%list
    /\ tidy (line_ok (any_deprecated namespaces = true)) rest.
Proof.
  intros E. unfold generate_body in E.
  destruct (bind_inr _ _ _ _ _ _ E) as [found [s1 [o1 [rest [E1 [E2 ->]]]]]].
  rewrite import_warnings_run in E1. injection E1 as _ <- <-.
  exists rest. split; [reflexivity|].
  revert E2. generalize self a self' rest.
  change (always (tidy (line_ok (any_deprecated namespaces = true)))
            (emit_blank ;;
             _generate_imports namespaces ;;
             emit_blank ;;
             emit_blank ;;
             self0 <- get_self ;;
             emit ("class " ++ class_name (args self0) ++ "(object):") ;;
             with_indent
               (emit "__metaclass__ = ABCMeta" ;;
                emit_blank ;;
                emit "@abstractmethod" ;;
                emit "def request(self, route, namespace, arg, arg_binary=None):" ;;
                with_indent (emit "pass") ;;
                emit_blank ;;
                _generate_route_methods (map an_namespace namespaces)))).
  always_walk_with
    ltac:(idtac; match goal with
          | |- always _ (_generate_imports _) =>
              apply always_quiet_line_ok, generate_imports_tidy
          | |- always _ (_generate_route_methods _) =>
              apply generate_route_methods_tidy; intros ns r;
              apply any_deprecated_intro
          end);
    tidy_line.
Qed.

Lemma file_lines_of_lines (out : list cmd) : file_lines (map Line out) = out.
Proof.
  induction out as [|c out IH]; [reflexivity|].
  unfold file_lines in *. simpl. now rewrite IH.
Qed.

Lemma generate_inr (namespaces : list api_namespace) self self' f :
  generate namespaces self = inr (self', f) ->
  exists out,
    generate_body namespaces self = inr (tt, self', out)
    /\ f = File (module_name (args self) ++ ".py") (EmitRaw base :: map Line out)
    /\ file_lines (file_content f) = out.
Proof.
  unfold generate.
  destruct (generate_body namespaces self) as [e | [[[] s1] out]]; [discriminate|].
  intros E. injection E as <- <-. exists out. repeat split.
  simpl. apply file_lines_of_lines.
Qed.

End TidyRuns.

(* ================================================================= *)
(** ** The generated module: warnings, indentation, docstrings *)

Section GeneratedModule.

Context {H : Helpers}.

Lemma no_import_among_line_ok (D : Prop) (out : list cmd) :
  Forall (line_ok D) out -> filter is_import_warnings out = [].
Proof.
  induction 1 as [|c out [Hc _] _ IH]; [reflexivity|].
  simpl. now rewrite Hc.
Qed.

Lemma warn_among_line_ok (D : Prop) (out : list cmd) :
  Forall (line_ok D) out -> existsb is_warn out = true -> D.
Proof.
  intros F E. apply existsb_exists in E. destruct E as [c [Hin Hc]].
  rewrite Forall_forall in F. now apply (F c Hin).
Qed.

(** X14: the module generated for an API imports [warnings] exactly once
    when some route of some namespace is deprecated, and not at all
    otherwise. *)
Theorem generate_imports_warnings_once (namespaces : list api_namespace)
    self self' f :
  generate namespaces self = inr (self', f) ->
  length (filter is_import_warnings (file_lines (file_content f)))
  = if any_deprecated namespaces then 1 else 0.
Proof.
  intros E. destruct (generate_inr namespaces self self' f E) as [out [Eb [_ ->]]].
  destruct (generate_body_run namespaces self tt self' out Eb)
    as [rest [-> [_ F]]].
  rewrite filter_app, (no_import_among_line_ok _ rest F), app_nil_r.
  now destruct (any_deprecated namespaces).
Qed.

(** X15: a generated module that calls [warnings.warn] anywhere starts,
    after its raw header, with the import of [warnings]: a deprecation
    warning is never emitted without the import. *)
Theorem generate_warns_only_with_import (namespaces : list api_namespace)
    self self' f :
  generate namespaces self = inr (self', f) ->
  existsb is_warn (file_lines (file_content f)) = true ->
  any_deprecated namespaces = true
  /\ hd_error (file_lines (file_content f)) = Some (Emit "import warnings").
Proof.
  intros E W. destruct (generate_inr namespaces self self' f E) as [out [Eb [_ L]]].
  rewrite L in *.
  destruct (generate_body_run namespaces self tt self' out Eb)
    as [rest [-> [_ F]]].
  assert (D : any_deprecated namespaces = true).
  { rewrite existsb_app in W. apply orb_prop in W. destruct W as [W | W].
    - destruct (any_deprecated namespaces); [reflexivity | discriminate].
    - exact (warn_among_line_ok _ rest F W). }
  split; [exact D|]. now rewrite D.
Qed.

End GeneratedModule.

Lemma generate_imports_warnings_once_witness :
  generate (H := Sample.helpers) Sample.api Sample.self0
  = inr (Sample.after_generate, Sample.generated)
  /\ length (filter is_import_warnings
               (file_lines (file_content Sample.generated)))
     = 1.
Proof.
  split; [reflexivity|].
  apply (generate_imports_warnings_once (H := Sample.helpers) Sample.api
           Sample.self0 Sample.after_generate Sample.generated eq_refl).
Defined.

Lemma generate_warns_only_with_import_witness :
  existsb is_warn (file_lines (file_content Sample.generated)) = true
  /\ any_deprecated Sample.api = true
  /\ hd_error (file_lines (file_content Sample.generated))
     = Some (Emit "import warnings").
Proof.
  split; [reflexivity|].
  apply (generate_warns_only_with_import (H := Sample.helpers) Sample.api
           Sample.self0 Sample.after_generate Sample.generated eq_refl eq_refl).
Defined.

(* ================================================================= *)
(** ** The methods declared in the generated module *)

Section DeclaredMethods.

Context {H : Helpers}.

Lemma run_bind {A B} (m : Gen A) (k : A -> Gen B) s a s1 o1 b s2 o2 :
  m s = inr (a, s1, o1) -> k a s1 = inr (b, s2, o2) ->
  bind m k s = inr (b, s2, (o1 ++ o2)%list).
Proof. unfold bind. intros -> ->. reflexivity. Qed.

Lemma last_cons {A} (a d : A) (l : list A) : last (a :: l) d = last l a.
Proof.
  revert a d. induction l as [|b l IH]; intros a d; [reflexivity|].
  change (last (a :: b :: l) d) with (last (b :: l) d).
  now rewrite (IH b d), (IH b a).
Qed.

Lemma effective_whitelist_scope (self : backend) (ns : namespace) :
  effective_whitelist (scope self ns) = effective_whitelist self.
Proof.
  unfold scope, effective_whitelist. simpl.
  now destruct (auth_type (args self)).
Qed.

Lemma scope_ext (s self : backend) (ns : namespace) :
  args s = args self -> effective_whitelist s = effective_whitelist self ->
  scope s ns = scope self ns.
Proof. unfold scope. now intros -> ->. Qed.

(** The loop of [_generate_route_methods], from any backend that has the
    arguments and the effective whitelist of [self]. *)
Lemma route_methods_loop (self : backend) (namespaces : list namespace) :
  (forall ns, In ns namespaces -> nonempty (ns_routes ns) = true ->
              check_route_name_conflict ns = None) ->
  (forall ns r, In ns namespaces -> In r (ns_routes ns) ->
                included (scope self ns) r = true ->
                route_generable (scope self ns) r) ->
  forall s,
    args s = args self -> effective_whitelist s = effective_whitelist self ->
    exists s' out,
      for_each namespaces
        (fun namespace =>
           when (nonempty (ns_routes namespace))
             (emit "# ------------------------------------------" ;;
              emit ("# Routes in " ++ ns_name namespace ++ " namespace") ;;
              emit_blank ;;
              _generate_routes namespace)) s
      = inr (tt, s', out)
      /\ args s' = args self
      /\ effective_whitelist s' = effective_whitelist self
      /\ cur_namespace s'
         = last (map Some (filter (fun ns => nonempty (ns_routes ns)) namespaces))
             (cur_namespace s)
      /\ method_decls out = module_decls self namespaces.
Proof.
  induction namespaces as [|ns nss IH]; intros Hc Hg s Ha Hw.
  - exists s, []. repeat split; assumption.
  - assert (IH' := IH (fun n Hn => Hc n (or_intror Hn))
                      (fun n r Hn => Hg n r (or_intror Hn))). clear IH.
    cbn [for_each filter]. unfold module_decls. cbn [flat_map].
    fold (module_decls self nss).
    destruct (nonempty (ns_routes ns)) eqn:Ne.
    + pose proof (generate_routes_decls ns s (Hc ns (or_introl eq_refl) Ne)) as G.
      cbv zeta in G. fold (effective_whitelist s) in G. fold (scope s ns) in G.
      rewrite (scope_ext s self ns Ha Hw) in G.
      destruct (G (fun r => Hg ns r (or_introl eq_refl))) as [o [E D]]. clear G.
      destruct (IH' (scope self ns) eq_refl (effective_whitelist_scope self ns))
        as [s' [o' [E' [Ha' [Hw' [Hcur D']]]]]].
      exists s', (([Emit "# ------------------------------------------";
                    Emit ("# Routes in " ++ ns_name ns ++ " namespace");
                    EmitBlank] ++ o) ++ o')%list.
      repeat split; try assumption.
      * eapply run_bind; [|exact E'].
        unfold when, bind, emit, emit_blank, tell. now rewrite E.
      * cbn [map]. now rewrite last_cons.
      * rewrite !method_decls_app, D, D'. reflexivity.
    + destruct (IH' s Ha Hw) as [s' [o' [E' [Ha' [Hw' [Hcur D']]]]]].
      exists s', o'. repeat split; try assumption.
      * exact (run_bind _ _ s tt s [] tt s' o' eq_refl E').
      * rewrite D'. unfold namespace_decls.
        destruct (ns_routes ns); [reflexivity | discriminate].
Qed.

Lemma route_methods_run (self : backend) (namespaces : list namespace) :
  (forall ns, In ns namespaces -> nonempty (ns_routes ns) = true ->
              check_route_name_conflict ns = None) ->
  (forall ns r, In ns namespaces -> In r (ns_routes ns) ->
                included (scope self ns) r = true ->
                route_generable (scope self ns) r) ->
  exists self' out,
    _generate_route_methods namespaces self = inr (tt, self', out)
    /\ args self' = args self
    /\ cur_namespace self' = last_with_routes namespaces
    /\ method_decls out = module_decls self namespaces.
Proof.
  intros Hc Hg.
  destruct (route_methods_loop self namespaces Hc Hg
              (Backend (args self) None (supported_auth_types self))
              eq_refl eq_refl)
    as [s' [out [E [Ha [_ [Hcur D]]]]]].
  exists s', out. repeat split; try assumption.
  unfold _generate_route_methods.
  eapply (run_bind _ _ self self self [] tt s' out eq_refl).
  exact (run_bind _ _ self tt _ [] tt s' out eq_refl E).
Qed.

Lemma run_bind_raise {A B} (m : Gen A) (k : A -> Gen B) s a s1 o1 e :
  m s = inr (a, s1, o1) -> k a s1 = inl e -> bind m k s = inl e.
Proof. unfold bind. intros -> ->. reflexivity. Qed.

Lemma run_raise_bind {A B} (m : Gen A) (k : A -> Gen B) s e :
  m s = inl e -> bind m k s = inl e.
Proof. unfold bind. intros ->. reflexivity. Qed.

(** [_generate_imports] reads the arguments of the backend only. *)
Lemma generate_imports_run (namespaces : list api_namespace) self :
  exists out,
    method_decls out = []
    /\ forall t, args t = args self ->
                _generate_imports namespaces t = inr (tt, t, out).
Proof.
  assert (L : exists out,
             method_decls out = []
             /\ forall t,
                  for_each namespaces
                    (fun namespace =>
                       when (nonempty (an_data_types namespace))
                         (emit ("from " ++ types_package (args self) ++ " import "
                                  ++ fmt_namespace
                                       (ns_name (an_namespace namespace)))))
                    t
                  = inr (tt, t, out)).
  { induction namespaces as [|n nss [o [D E]]]; [now exists []|].
    cbn [for_each].
    destruct (nonempty (an_data_types n)).
    - eexists. split; [|intros t; eapply run_bind; [reflexivity | apply E]].
      rewrite method_decls_app, D. reflexivity.
    - exists o. split; [exact D|]. intros t.
      exact (run_bind _ _ t tt t [] tt t o eq_refl (E t)). }
  destruct L as [out [D E]]. exists out. split; [exact D|].
  intros t Ht. unfold _generate_imports.
  eapply (run_bind _ _ t t t [] tt t out eq_refl).
  rewrite Ht. apply E.
Qed.

(** [generate_body] is the run of [_generate_route_methods] after a
    prologue that reads the arguments of the backend only and declares no
    method. *)
Lemma generate_body_parts (namespaces : list api_namespace) self :
  exists pre,
    method_decls pre = []
    /\ forall t, args t = args self ->
         generate_body namespaces t
         = match _generate_route_methods (map an_namespace namespaces) t with
           | inl e => inl e
           | inr (_, t', om) => inr (tt, t', (pre ++ om ++ [IndentExit])%list)
           end.
Proof.
  destruct (generate_imports_run namespaces self) as [oi [Di Ei]].
  exists ((if any_deprecated namespaces then [Emit "import warnings"] else [])
            ++ [EmitBlank] ++ oi
            ++ [EmitBlank; EmitBlank;
                Emit ("class " ++ class_name (args self) ++ "(object):");
                IndentEnter;
                Emit "__metaclass__ = ABCMeta";
                EmitBlank;
                Emit "@abstractmethod";
                Emit "def request(self, route, namespace, arg, arg_binary=None):";
                IndentEnter; Emit "pass"; IndentExit;
                EmitBlank])%list.
  split.
  { rewrite !method_decls_app, Di.
    destruct (any_deprecated namespaces); reflexivity. }
  intros t Ht. unfold generate_body.
  destruct (_generate_route_methods (map an_namespace namespaces) t)
    as [e | [[[] t'] om]] eqn:Em.
  - eapply run_bind_raise; [apply import_warnings_run|].
    eapply run_bind_raise; [reflexivity|].
    eapply run_bind_raise; [exact (Ei t Ht)|].
    eapply run_bind_raise; [reflexivity|].
    eapply run_bind_raise; [reflexivity|].
    eapply run_bind_raise; [reflexivity|].
    eapply run_bind_raise; [reflexivity|].
    unfold with_indent.
    eapply run_bind_raise; [reflexivity|].
    apply run_raise_bind.
    eapply run_bind_raise; [reflexivity|].
    eapply run_bind_raise; [reflexivity|].
    eapply run_bind_raise; [reflexivity|].
    eapply run_bind_raise; [reflexivity|].
    eapply run_bind_raise; [reflexivity|].
    eapply run_bind_raise; [reflexivity|].
    exact Em.
  - etransitivity.
    { eapply run_bind; [apply import_warnings_run|].
      eapply run_bind; [reflexivity|].
      eapply run_bind; [exact (Ei t Ht)|].
      eapply run_bind; [reflexivity|].
      eapply run_bind; [reflexivity|].
      eapply run_bind; [reflexivity|].
      eapply run_bind; [reflexivity|].
      unfold with_indent.
      eapply run_bind; [reflexivity|].
      eapply run_bind; [|reflexivity].
      eapply run_bind; [reflexivity|].
      eapply run_bind; [reflexivity|].
      eapply run_bind; [reflexivity|].
      eapply run_bind; [reflexivity|].
      eapply run_bind; [reflexivity|].
      eapply run_bind; [reflexivity|].
      exact Em. }
    rewrite Ht. do 2 f_equal.
    repeat first [rewrite <- app_assoc | progress cbn [app]]. reflexivity.
Qed.

(** The file that [generate] writes, from the run of
    [_generate_route_methods]. *)
Lemma generate_parts (namespaces : list api_namespace) self :
  exists pre,
    method_decls pre = []
    /\ forall t, args t = args self ->
         generate namespaces t
         = match _generate_route_methods (map an_namespace namespaces) t with
           | inl e => inl e
           | inr (_, t', om) =>
               inr (t', File (module_name (args self) ++ ".py")
                          (EmitRaw base
                             :: map Line (pre ++ om ++ [IndentExit])%list))
           end.
Proof.
  destruct (generate_body_parts namespaces self) as [pre [D E]].
  exists pre. split; [exact D|]. intros t Ht.
  unfold generate. rewrite (E t Ht), Ht.
  now destruct (_generate_route_methods (map an_namespace namespaces) t)
    as [e | [[[] t'] om]].
Qed.

(** X18: when no namespace with routes has a route-name conflict and each
    route that passes the filter can be generated, [generate] returns the
    file named after the module, and the methods it declares are the
    variants of the routes that pass the filter, namespace by namespace
    and route by route in order, under one whitelist for all
    namespaces. *)
Theorem generate_declares_route_methods (namespaces : list api_namespace) self :
  (forall ns, In ns (map an_namespace namespaces) ->
              nonempty (ns_routes ns) = true ->
              check_route_name_conflict ns = None) ->
  (forall ns r, In ns (map an_namespace namespaces) -> In r (ns_routes ns) ->
                included (scope self ns) r = true ->
                route_generable (scope self ns) r) ->
  exists self' f,
    generate namespaces self = inr (self', f)
    /\ file_path f = module_name (args self) ++ ".py"
    /\ method_decls (file_lines (file_content f))
       = module_decls self (map an_namespace namespaces).
Proof.
  intros Hc Hg.
  destruct (route_methods_run self (map an_namespace namespaces) Hc Hg)
    as [self' [om [Em [_ [_ Dm]]]]].
  destruct (generate_parts namespaces self) as [pre [Dp E]].
  specialize (E self eq_refl). rewrite Em in E.
  eexists _, _. split; [exact E|]. split; [reflexivity|].
  cbn [file_content]. unfold file_lines. cbn [flat_map app].
  fold (file_lines (map Line (pre ++ om ++ [IndentExit]))).
  rewrite file_lines_of_lines, !method_decls_app, Dp, Dm. cbn [app].
  apply app_nil_r.
Qed.

End DeclaredMethods.

(* ================================================================= *)
(** ** Deprecation warnings of a method *)

Section MethodWarnings.

Context {H : Helpers}.

#[local] Instance warn_free_compositional :
  Compositional (fun out => filter is_warn out = []).
Proof.
  split.
  - reflexivity.
  - intros o1 o2 E1 E2. now rewrite filter_app, E1, E2.
  - intros o E. cbn [filter is_warn]. now rewrite filter_app, E.
Qed.

Lemma warn_free_of_quiet {A} (m : Gen A) :
  always (tidy quiet) m -> always (fun out => filter is_warn out = []) m.
Proof.
  apply always_weaken. intros out [_ F].
  induction F as [|c out [_ [W _]] _ IH]; [reflexivity|].
  cbn [filter]. now rewrite W.
Qed.

Lemma warn_free_of_line_ok {A} (m : Gen A) :
  always (tidy (line_ok False)) m -> always (fun out => filter is_warn out = []) m.
Proof.
  apply always_weaken. intros out [_ F].
  induction F as [|c out [_ W] _ IH]; [reflexivity|].
  cbn [filter]. destruct (is_warn c); [now destruct W | exact IH].
Qed.

Lemma warns_bind {A B} (m : Gen A) (k : A -> Gen B) (l1 l2 : list cmd) :
  always (fun out => filter is_warn out = l1) m ->
  (forall a, always (fun out => filter is_warn out = l2) (k a)) ->
  always (fun out => filter is_warn out = (l1 ++ l2)%list) (bind m k).
Proof.
  intros Hm Hk self b s2 out E.
  destruct (bind_inr m k self b s2 out E) as [a [s1 [o1 [o2 [E1 [E2 ->]]]]]].
  now rewrite filter_app, (Hm _ _ _ _ E1), (Hk a _ _ _ _ E2).
Qed.

Lemma warns_with_indent (body : Gen unit) (l : list cmd) :
  always (fun out => filter is_warn out = l) body ->
  always (fun out => filter is_warn out = l) (with_indent body).
Proof.
  intros Hb self b s2 out E. unfold with_indent in E.
  destruct (bind_inr _ _ _ _ _ _ E) as [[] [s1 [o1 [o2 [E1 [E2 ->]]]]]].
  injection E1 as <- <-.
  destruct (bind_inr _ _ _ _ _ _ E2) as [[] [s3 [o3 [o4 [E3 [E4 ->]]]]]].
  unfold tell in E4. injection E4 as _ E4. subst o4.
  cbn [app filter is_warn]. rewrite filter_app, (Hb _ _ _ _ E3).
  apply app_nil_r.
Qed.

Lemma deprecation_warns (r : route) :
  exists l,
    length l = (if is_deprecated r then 1 else 0)
    /\ always (fun out => filter is_warn out = l)
         (_maybe_generate_deprecation_warning r).
Proof.
  unfold _maybe_generate_deprecation_warning, is_deprecated.
  destruct (r_deprecated r) as [by_|].
  - eexists. split; [|intros self a self' out E; injection E as _ _ <-; reflexivity].
    reflexivity.
  - exists []. split; [reflexivity|].
    intros self a self' out E. injection E as _ _ <-. reflexivity.
Qed.

(** X19: a method generated for a route calls [warnings.warn] exactly once
    when the route is deprecated, and not at all otherwise. *)
Theorem route_helper_warns_iff_deprecated (ns : namespace) (r : route)
    (download_to_file : bool) self a self' out :
  _generate_route_helper ns r download_to_file self = inr (a, self', out) ->
  length (filter is_warn out) = if is_deprecated r then 1 else 0.
Proof.
  revert self a self' out.
  change (always (fun out => length (filter is_warn out)
                             = if is_deprecated r then 1 else 0)
            (_generate_route_helper ns r download_to_file)).
  destruct (deprecation_warns r) as [l [L W]].
  apply always_weaken
    with (Q := fun out => filter is_warn out
                          = ([] ++ [] ++ [] ++
                             ([] ++ [] ++ [] ++ l ++ [] ++ [] ++ []) ++ [])%list).
  { intros out ->. cbn [app]. now rewrite !app_nil_r. }
  unfold _generate_route_helper.
  apply warns_bind; [apply always_lift | intros rb].
  apply warns_bind; [apply always_lift | intros resp].
  apply warns_bind.
  { destruct download_to_file; [destruct resp|]; try apply always_raise;
      apply warn_free_of_quiet, method_decl_tidy. }
  intros _. apply warns_bind; [|intros _; now apply always_tell].
  apply warns_with_indent. cbv zeta.
  apply warns_bind; [apply always_get_self | intros self].
  apply warns_bind.
  { destruct (PyStr.truthy (r_doc r)); [|apply always_ret].
    apply always_bind; [apply always_lift | intros d; apply always_ret]. }
  intros overview.
  apply warns_bind; [apply warn_free_of_line_ok, docstring_tidy | intros _].
  apply warns_bind; [exact W | intros _].
  apply warns_bind; [apply warn_free_of_quiet, arg_construction_tidy | intros _].
  apply warns_bind; [apply warn_free_of_quiet, request_call_tidy | intros _].
  apply warn_free_of_quiet, return_statement_tidy.
Qed.

End MethodWarnings.

Lemma generate_declares_route_methods_witness :
  exists self' f,
    generate (H := Sample.helpers) Sample.api Sample.self0 = inr (self', f)
    /\ file_path f = "base.py"
    /\ method_decls (file_lines (file_content f))
       = [("files_get_metadata", ["self"; "path"]);
          ("files_old_upload", ["self"; "f"]);
          ("files_download", ["self"; "path"]);
          ("files_download_to_file", ["self"; "download_path"; "path"])].
Proof.
  apply (generate_declares_route_methods (H := Sample.helpers) Sample.api
           Sample.self0).
  - intros ns _ _. reflexivity.
  - intros ns r [<- | [<- | []]] Hr _; [|destruct Hr].
    destruct Hr as [<- | [<- | [<- | []]]]; repeat split;
      try (eexists; reflexivity);
      try (repeat constructor; intros; eexists; reflexivity);
      try (intros _; eexists; reflexivity).
Defined.

Lemma route_helper_warns_iff_deprecated_witness :
  _generate_route_helper (H := Sample.helpers) (Sample.files [Sample.old_upload])
    Sample.old_upload false (Sample.self_in (Sample.files [Sample.old_upload]))
  = inr (tt, Sample.self_in (Sample.files [Sample.old_upload]),
         Sample.old_upload_method)
  /\ length (filter is_warn Sample.old_upload_method) = 1.
Proof.
  split; [reflexivity|].
  apply (route_helper_warns_iff_deprecated (H := Sample.helpers)
           (Sample.files [Sample.old_upload]) Sample.old_upload false
           (Sample.self_in (Sample.files [Sample.old_upload])) tt
           (Sample.self_in (Sample.files [Sample.old_upload]))
           Sample.old_upload_method eq_refl).
Defined.

(* ================================================================= *)
(** ** The backend through a run *)

Section Keeps.

Lemma keeps_ret {A} (a : A) : keeps (ret a).
Proof. intros s b s' o E. unfold ret in E. congruence. Qed.

Lemma keeps_raise {A} (e : exn) : keeps (@raise A e).
Proof. intros s b s' o E. discriminate. Qed.

Lemma keeps_get_self : keeps get_self.
Proof. intros s b s' o E. unfold get_self in E. congruence. Qed.

Lemma keeps_lift {A} (r : exn + A) : keeps (lift r).
Proof.
  intros s b s' o E. unfold lift in E. destruct r; [discriminate | congruence].
Qed.

Lemma keeps_tell (c : cmd) : keeps (tell c).
Proof. intros s b s' o E. unfold tell in E. congruence. Qed.

Lemma keeps_bind {A B} (m : Gen A) (k : A -> Gen B) :
  keeps m -> (forall a, keeps (k a)) -> keeps (bind m k).
Proof.
  intros Hm Hk s b s2 out E.
  destruct (bind_inr m k s b s2 out E) as [a [s1 [o1 [o2 [E1 [E2 _]]]]]].
  rewrite (Hk a _ _ _ _ E2). exact (Hm _ _ _ _ E1).
Qed.

Lemma keeps_when (b : bool) (m : Gen unit) : keeps m -> keeps (when b m).
Proof. intros Hm. destruct b; [exact Hm | apply keeps_ret]. Qed.

Lemma keeps_for_each {A} (body : A -> Gen unit) (l : list A) :
  (forall x, keeps (body x)) -> keeps (for_each l body).
Proof.
  intros Hb. induction l as [|x l IH]; simpl; [apply keeps_ret|].
  apply keeps_bind; [apply Hb | intros _; exact IH].
Qed.

Lemma keeps_with_indent (body : Gen unit) : keeps body -> keeps (with_indent body).
Proof.
  intros Hb. unfold with_indent.
  apply keeps_bind; [apply keeps_tell | intros _].
  apply keeps_bind; [exact Hb | intros _; apply keeps_tell].
Qed.

End Keeps.

(** The walk through a run that leaves the backend alone: a lemma already
    proved of the run at hand ([known]), the rule of the construct at its
    head, or else the definition of the function at its head. *)
Ltac head_of t :=
  match t with
  | ?f _ => head_of f
  | _ => t
  end.

Ltac keeps_walk_with known :=
  repeat
    (cbv beta zeta;
     first
       [ known
       | match goal with
         | |- keeps (ret _) => apply keeps_ret
         | |- keeps (raise _) => apply keeps_raise
         | |- keeps get_self => apply keeps_get_self
         | |- keeps (lift _) => apply keeps_lift
         | |- keeps (tell _) => apply keeps_tell
         | |- keeps (with_indent _) => apply keeps_with_indent
         | |- keeps (when _ _) => apply keeps_when
         | |- keeps (bind _ _) => apply keeps_bind; [ | intros ? ]
         | |- keeps (for_each _ _) => apply keeps_for_each; intros ?
         | |- keeps (if ?b then _ else _) => destruct b
         | |- keeps (match ?x with _ => _ end) => destruct x
         | |- keeps ?m => let h := head_of m in progress unfold h
         end ]).

Section BackendState.

Context {H : Helpers}.

(** Generating a method reads the backend and never writes it. *)
Lemma route_helper_keeps (ns : namespace) (r : route) (dl : bool) :
  keeps (_generate_route_helper ns r dl).
Proof. keeps_walk_with fail. Qed.

Lemma generate_route_keeps (ns : namespace) (r : route) :
  keeps (generate_route ns r).
Proof.
  assert (V : keeps (generate_route_variants ns r)).
  { unfold generate_route_variants.
    keeps_walk_with
      ltac:(idtac; match goal with
            | |- keeps (_generate_route_helper _ _ _) => apply route_helper_keeps
            end). }
  intros s a s' o. rewrite generate_route_cases.
  destruct (supported_auth_types s) as [supported|]; [|apply V].
  destruct (route_auth_attr r) as [attr|]; [|apply keeps_ret].
  destruct (whitelisted supported attr); [apply V | apply keeps_ret].
Qed.

Lemma generate_routes_conflict (ns : namespace) (e : exn) s :
  check_route_name_conflict ns = Some e -> _generate_routes ns s = inl e.
Proof.
  intros Hc. unfold _generate_routes, bind, get_self, put_self, raise.
  rewrite Hc. simpl. now destruct (auth_type (args s)).
Qed.

Lemma generate_routes_scope (ns : namespace) s :
  check_route_name_conflict ns = None ->
  _generate_routes ns s = for_each (ns_routes ns) (generate_route ns) (scope s ns).
Proof. exact (generate_routes_prologue ns s). Qed.

(** [_generate_routes] writes the current namespace and the whitelist, and
    nothing else. *)
Lemma generate_routes_state (ns : namespace) s a s' out :
  _generate_routes ns s = inr (a, s', out) -> s' = scope s ns.
Proof.
  destruct (check_route_name_conflict ns) as [e|] eqn:Hc.
  - rewrite (generate_routes_conflict ns e s Hc). discriminate.
  - rewrite (generate_routes_scope ns s Hc).
    apply keeps_for_each. intros r. apply generate_route_keeps.
Qed.

(** [_generate_routes] reads the arguments and the effective whitelist of
    the backend only. *)
Lemma generate_routes_ext (ns : namespace) s t :
  args s = args t -> effective_whitelist s = effective_whitelist t ->
  _generate_routes ns s = _generate_routes ns t.
Proof.
  intros Ha Hw. destruct (check_route_name_conflict ns) as [e|] eqn:Hc.
  - now rewrite !(generate_routes_conflict ns e _ Hc).
  - rewrite !(generate_routes_scope ns _ Hc).
    now rewrite (scope_ext s t ns Ha Hw).
Qed.

Lemma bind_ret_l {A B} (a : A) (k : A -> Gen B) s : bind (ret a) k s = k a s.
Proof. unfold bind, ret. now destruct (k a s) as [e | [[b s'] o]]. Qed.

Lemma bind_same {A B} (m : Gen A) (k : A -> Gen B) s t :
  m s = m t -> bind m k s = bind m k t.
Proof. unfold bind. now intros ->. Qed.

Lemma route_methods_unfold (namespaces : list namespace) s :
  _generate_route_methods namespaces s
  = for_each namespaces
      (fun namespace =>
         when (nonempty (ns_routes namespace))
           (emit "# ------------------------------------------" ;;
            emit ("# Routes in " ++ ns_name namespace ++ " namespace") ;;
            emit_blank ;;
            _generate_routes namespace))
      (Backend (args s) None (supported_auth_types s)).
Proof.
  unfold _generate_route_methods, bind at 1 2, get_self, put_self.
  match goal with
  | |- context [for_each ?l ?f ?st] =>
      now destruct (for_each l f st) as [e | [[b s'] o]]
  end.
Qed.

(** The section of a namespace with routes: three lines, then its
    routes. *)
Lemma namespace_section_run (ns : namespace) s :
  (emit "# ------------------------------------------" ;;
   emit ("# Routes in " ++ ns_name ns ++ " namespace") ;;
   emit_blank ;;
   _generate_routes ns) s
  = match _generate_routes ns s with
    | inl e => inl e
    | inr (a, s', out) =>
        inr (a, s',
             Emit "# ------------------------------------------"
               :: Emit ("# Routes in " ++ ns_name ns ++ " namespace")
               :: EmitBlank :: out)
    end.
Proof.
  unfold bind, emit, emit_blank, tell.
  now destruct (_generate_routes ns s) as [e | [[a s'] o]].
Qed.

Lemma route_methods_loop_state (namespaces : list namespace) :
  forall s a s' out,
    for_each namespaces
      (fun namespace =>
         when (nonempty (ns_routes namespace))
           (emit "# ------------------------------------------" ;;
            emit ("# Routes in " ++ ns_name namespace ++ " namespace") ;;
            emit_blank ;;
            _generate_routes namespace)) s
    = inr (a, s', out) ->
    args s' = args s
    /\ cur_namespace s'
       = last (map Some (filter (fun ns => nonempty (ns_routes ns)) namespaces))
           (cur_namespace s)
    /\ supported_auth_types s'
       = if existsb (fun ns => nonempty (ns_routes ns)) namespaces
         then effective_whitelist s else supported_auth_types s.
Proof.
  induction namespaces as [|ns nss IH]; intros s a s' out E.
  - injection E as _ <- _. now repeat split.
  - cbn [for_each] in E.
    destruct (bind_inr _ _ _ _ _ _ E) as [[] [s1 [o1 [o2 [E1 [E2 _]]]]]].
    destruct (IH _ _ _ _ E2) as [Ha [Hcur Hsup]].
    cbn [filter existsb]. destruct (nonempty (ns_routes ns)).
    + unfold when in E1. rewrite namespace_section_run in E1.
      destruct (_generate_routes ns s) as [e | [[[] s1'] o]] eqn:Er;
        [discriminate|].
      injection E1 as <- _. apply generate_routes_state in Er. subst s1'.
      rewrite effective_whitelist_scope in Hsup.
      cbn [map orb]. rewrite last_cons. repeat split; try assumption.
      now destruct (existsb _ nss).
    + injection E1 as <- _. now repeat split.
Qed.

Lemma route_methods_state (namespaces : list namespace) s a s' out :
  _generate_route_methods namespaces s = inr (a, s', out) ->
  args s' = args s
  /\ cur_namespace s' = last_with_routes namespaces
  /\ supported_auth_types s'
     = if existsb (fun ns => nonempty (ns_routes ns)) namespaces
       then effective_whitelist s else supported_auth_types s.
Proof.
  rewrite route_methods_unfold. intros E.
  exact (route_methods_loop_state namespaces _ _ _ _ E).
Qed.

Lemma route_methods_loop_agree (namespaces : list namespace) :
  forall s t,
    args s = args t -> effective_whitelist s = effective_whitelist t ->
    result_of
      (for_each namespaces
         (fun namespace =>
            when (nonempty (ns_routes namespace))
              (emit "# ------------------------------------------" ;;
               emit ("# Routes in " ++ ns_name namespace ++ " namespace") ;;
               emit_blank ;;
               _generate_routes namespace)) s)
    = result_of
        (for_each namespaces
           (fun namespace =>
              when (nonempty (ns_routes namespace))
                (emit "# ------------------------------------------" ;;
                 emit ("# Routes in " ++ ns_name namespace ++ " namespace") ;;
                 emit_blank ;;
                 _generate_routes namespace)) t).
Proof.
  induction namespaces as [|ns nss IH]; intros s t Ha Hw; [reflexivity|].
  cbn [for_each]. destruct (nonempty (ns_routes ns)).
  - unfold when. f_equal. apply bind_same.
    rewrite !namespace_section_run.
    now rewrite (generate_routes_ext ns s t Ha Hw).
  - unfold when. rewrite !bind_ret_l. now apply IH.
Qed.

Lemma route_methods_agree (namespaces : list namespace) s t :
  args s = args t -> effective_whitelist s = effective_whitelist t ->
  result_of (_generate_route_methods namespaces s)
  = result_of (_generate_route_methods namespaces t).
Proof.
  intros Ha Hw. rewrite !route_methods_unfold.
  apply route_methods_loop_agree; [exact Ha | exact Hw].
Qed.

Lemma generate_agree (namespaces : list api_namespace) s t :
  args s = args t -> effective_whitelist s = effective_whitelist t ->
  file_of (generate namespaces s) = file_of (generate namespaces t).
Proof.
  intros Ha Hw.
  destruct (generate_parts namespaces s) as [pre [_ E]].
  rewrite (E s eq_refl), (E t (eq_sym Ha)).
  pose proof (route_methods_agree (map an_namespace namespaces) s t Ha Hw) as R.
  destruct (_generate_route_methods (map an_namespace namespaces) s)
    as [e1 | [[[] s1] o1]],
    (_generate_route_methods (map an_namespace namespaces) t)
    as [e2 | [[[] t1] o2]]; simpl in R; try discriminate.
  - now injection R as <-.
  - now injection R as <-.
Qed.

Lemma generate_state (namespaces : list api_namespace) self self' f :
  generate namespaces self = inr (self', f) ->
  args self' = args self
  /\ cur_namespace self' = last_with_routes (map an_namespace namespaces)
  /\ supported_auth_types self'
     = if existsb (fun ns => nonempty (ns_routes ns))
            (map an_namespace namespaces)
       then effective_whitelist self else supported_auth_types self.
Proof.
  destruct (generate_parts namespaces self) as [pre [_ E]].
  rewrite (E self eq_refl).
  destruct (_generate_route_methods (map an_namespace namespaces) self)
    as [e | [[[] s1] om]] eqn:Em; [discriminate|].
  intros G. injection G as <- _.
  exact (route_methods_state _ _ _ _ _ Em).
Qed.

(** X20: whenever [generate] returns, it has written nothing of the
    backend but the current namespace and the whitelist: the arguments are
    those it started with, the current namespace is the last namespace
    that has routes (none if no namespace has routes), and the whitelist
    is the effective one if some namespace has routes, and untouched
    otherwise. *)
Theorem generate_final_backend (namespaces : list api_namespace) self self' f :
  generate namespaces self = inr (self', f) ->
  self'
  = Backend (args self) (last_with_routes (map an_namespace namespaces))
      (if existsb (fun ns => nonempty (ns_routes ns))
            (map an_namespace namespaces)
       then effective_whitelist self else supported_auth_types self).
Proof.
  intros G. destruct (generate_state namespaces self self' f G) as [Ha [Hc Hs]].
  destruct self' as [a' c' w']. simpl in Ha, Hc, Hs. now subst a' c' w'.
Qed.

(** X21: the file that [generate] writes, or the exception it raises, does
    not depend on the current namespace the backend starts with, and
    depends on the whitelist it starts with only when no auth type is
    configured. *)
Theorem generate_reads_args_and_whitelist (namespaces : list api_namespace)
    (a : cli_args) (cur cur' : option namespace)
    (supported supported' : option (list string)) :
  auth_type a <> None \/ supported = supported' ->
  file_of (generate namespaces (Backend a cur supported))
  = file_of (generate namespaces (Backend a cur' supported')).
Proof.
  intros Hw. apply generate_agree; [reflexivity|].
  unfold effective_whitelist. simpl.
  destruct (auth_type a) as [t|]; [reflexivity|].
  destruct Hw as [Hw | Hw]; [now elim Hw | exact Hw].
Qed.

(** X22: generation is repeatable: run again from the backend it has
    left, [generate] writes the same file and leaves the same backend. *)
Theorem generate_repeatable (namespaces : list api_namespace) self self' f :
  generate namespaces self = inr (self', f) ->
  generate namespaces self' = inr (self', f).
Proof.
  intros G. destruct (generate_state namespaces self self' f G) as [Ha [Hc Hs]].
  assert (Hw : effective_whitelist self' = effective_whitelist self).
  { unfold effective_whitelist at 1. rewrite Ha, Hs.
    unfold effective_whitelist.
    destruct (auth_type (args self)); [reflexivity|].
    now destruct (existsb _ _). }
  pose proof (generate_agree namespaces self' self Ha Hw) as R.
  rewrite G in R.
  destruct (generate namespaces self') as [e | [self2 f2]] eqn:G2;
    [discriminate|].
  simpl in R. injection R as ->.
  destruct (generate_state namespaces self' self2 f G2) as [Ha2 [Hc2 Hs2]].
  rewrite Hw, Hs in Hs2.
  assert (self2 = self') as ->; [|reflexivity].
  destruct self2 as [a2 c2 w2], self' as [a1 c1 w1]. simpl in *.
  subst a2 c2 c1. f_equal. rewrite Hs2, Hs.
  now destruct (existsb _ _).
Qed.

End BackendState.

Lemma generate_final_backend_witness :
  generate (H := Sample.helpers) Sample.api Sample.self0
  = inr (Sample.after_generate, Sample.generated)
  /\ Sample.after_generate
     = Backend Sample.cli
         (Some (Sample.files [Sample.get_metadata; Sample.old_upload;
                              Sample.download]))
         None.
Proof.
  split; [reflexivity|].
  apply (generate_final_backend (H := Sample.helpers) Sample.api Sample.self0
           Sample.after_generate Sample.generated eq_refl).
Defined.

Lemma generate_reads_args_and_whitelist_witness :
  file_of (generate (H := Sample.helpers) Sample.api
             (Sample.self_filtered (Sample.files [])))
  = file_of (generate (H := Sample.helpers) Sample.api
               (Backend (args (Sample.self_filtered (Sample.files [])))
                  None (Some ["z"]))).
Proof.
  apply (generate_reads_args_and_whitelist (H := Sample.helpers) Sample.api
           (args (Sample.self_filtered (Sample.files [])))
           (Some (Sample.files [])) None (Some ["x"; "y"]) (Some ["z"])).
  left. discriminate.
Defined.

Lemma generate_repeatable_witness :
  generate (H := Sample.helpers) Sample.api Sample.self0
  = inr (Sample.after_generate, Sample.generated)
  /\ generate (H := Sample.helpers) Sample.api Sample.after_generate
     = inr (Sample.after_generate, Sample.generated).
Proof.
  split; [reflexivity|].
  apply (generate_repeatable (H := Sample.helpers) Sample.api Sample.self0
           Sample.after_generate Sample.generated eq_refl).
Defined.

(* ================================================================= *)
(** ** The frame of a docstring *)

Section From.

Context {Q : list cmd -> Prop} {C : Compositional Q} (self : backend).

Lemma from_ret {A} (a : A) : always_from self Q (ret a).
Proof. intros b s' o E. injection E as _ <- <-. split; [reflexivity | apply q_nil]. Qed.

Lemma from_tell (c : cmd) : Q [c] -> always_from self Q (tell c).
Proof. intros Hc b s' o E. injection E as _ <- <-. now split. Qed.

Lemma from_bind {A B} (m : Gen A) (k : A -> Gen B) :
  always_from self Q m -> (forall a, always_from self Q (k a)) ->
  always_from self Q (bind m k).
Proof.
  intros Hm Hk b s2 out E.
  destruct (bind_inr m k self b s2 out E) as [a [s1 [o1 [o2 [E1 [E2 ->]]]]]].
  destruct (Hm _ _ _ E1) as [-> Q1]. destruct (Hk a _ _ _ E2) as [-> Q2].
  split; [reflexivity | now apply q_app].
Qed.

(** The backend read is the one the run started from. *)
Lemma from_bind_get_self {B} (k : backend -> Gen B) :
  always_from self Q (k self) -> always_from self Q (bind get_self k).
Proof.
  intros Hk b s2 out E.
  destruct (bind_inr _ _ _ _ _ _ E) as [a [s1 [o1 [o2 [E1 [E2 ->]]]]]].
  injection E1 as <- <- <-. exact (Hk _ _ _ E2).
Qed.

(** The value bound is the one the lifted computation returned. *)
Lemma from_bind_lift {A B} (r : exn + A) (k : A -> Gen B) :
  (forall a, r = inr a -> always_from self Q (k a)) ->
  always_from self Q (bind (lift r) k).
Proof.
  intros Hk b s2 out E.
  destruct (bind_inr _ _ _ _ _ _ E) as [a [s1 [o1 [o2 [E1 [E2 ->]]]]]].
  unfold lift in E1. destruct r as [e|a']; [discriminate|].
  injection E1 as <- <- <-. exact (Hk a' eq_refl _ _ _ E2).
Qed.

Lemma from_when (b : bool) (m : Gen unit) :
  (b = true -> always_from self Q m) -> always_from self Q (when b m).
Proof. destruct b; intros Hm; [now apply Hm | apply from_ret]. Qed.

Lemma from_for_each {A} (body : A -> Gen unit) (l : list A) :
  (forall x, In x l -> always_from self Q (body x)) ->
  always_from self Q (for_each l body).
Proof.
  induction l as [|x l IH]; intros Hb; simpl; [apply from_ret|].
  apply from_bind; [apply Hb; now left|].
  intros _. apply IH. intros y Hy. apply Hb. now right.
Qed.

Lemma from_with_indent (body : Gen unit) :
  always_from self Q body -> always_from self Q (with_indent body).
Proof.
  intros Hb b s2 out E. unfold with_indent in E.
  destruct (bind_inr _ _ _ _ _ _ E) as [[] [s1 [o1 [o2 [E1 [E2 ->]]]]]].
  injection E1 as <- <-.
  destruct (bind_inr _ _ _ _ _ _ E2) as [[] [s3 [o3 [o4 [E3 [E4 ->]]]]]].
  destruct (Hb _ _ _ E3) as [-> Q3].
  unfold tell in E4. injection E4 as Es Eo. subst s2 o4.
  split; [reflexivity | now apply (q_indent o3)].
Qed.

End From.

Section DocstringFrame.

Context {H : Helpers}.

#[local] Instance quoteless_compositional :
  Compositional (Forall (fun c => cmd_quoteless c = true)) :=
  forall_compositional _ eq_refl eq_refl.

Lemma quoteless_app (a b : string) :
  quoteless (a ++ b) = quoteless a && quoteless b.
Proof. unfold quoteless. now rewrite PyStrFacts.contains_app, negb_orb. Qed.

Lemma quoteless_cons (c : ascii) (s : string) :
  quoteless (String c s) = true ->
  Ascii.eqb c PyStr.dquote = false /\ quoteless s = true.
Proof.
  unfold quoteless. simpl. destruct (Ascii.eqb c PyStr.dquote); [discriminate|].
  now split.
Qed.

Lemma rsplit1_quoteless (sep : ascii) (s : string) :
  quoteless s = true ->
  Forall (fun piece => quoteless piece = true) (PyStr.rsplit1 sep s).
Proof.
  induction s as [|c s IH]; intros Hs; [now repeat constructor|].
  destruct (quoteless_cons c s Hs) as [Hc Hs']. specialize (IH Hs').
  assert (K : forall t, quoteless t = true -> quoteless (String c t) = true).
  { intros t Ht. unfold quoteless in *. simpl. now rewrite Hc. }
  simpl. destruct (PyStr.rsplit1 sep s) as [|a [|b [|x l]]].
  - destruct (Ascii.eqb c sep); repeat constructor; auto.
  - destruct (Ascii.eqb c sep); repeat constructor; auto.
  - inversion IH as [|? ? Ha IH']; subst. inversion IH' as [|? ? Hb _]; subst.
    repeat constructor; auto.
  - destruct (Ascii.eqb c sep); repeat constructor; auto.
Qed.

Lemma last_quoteless (l : list string) :
  Forall (fun piece => quoteless piece = true) l -> quoteless (last l "") = true.
Proof.
  induction 1 as [|x l Hx F IH]; [reflexivity|].
  destruct l; [exact Hx | exact IH].
Qed.

Lemma format_type_quoteless (self : backend) (ns : namespace) :
  quoteless (types_package (args self)) = true ->
  quoteless (ns_name ns) = true ->
  forall t, leaves_quoteless t = true ->
            quoteless (_format_type_in_doc self ns t) = true.
Proof.
  intros Hpkg Hns.
  induction t as [ | name | inner IH | elem IH | k IHk v IHv | c | c ];
    intros Hleaf; cbn [leaves_quoteless] in Hleaf;
    cbn [_format_type_in_doc]; rewrite ?quoteless_app.
  - reflexivity.
  - exact Hleaf.
  - now rewrite (IH Hleaf).
  - now rewrite (IH Hleaf).
  - apply andb_prop in Hleaf. destruct Hleaf as [Hk Hv].
    now rewrite (IHk Hk), (IHv Hv).
  - now rewrite Hpkg, Hns, Hleaf.
  - now rewrite Hpkg, Hns, Hleaf.
Qed.

(** A single call none of whose texts has a double quote. *)
Ltac quoteless_line known :=
  apply from_tell; constructor; [|constructor];
  cbn [cmd_quoteless quoteless_opt forallb];
  rewrite ?quoteless_app; known;
  reflexivity.

Lemma extra_arg_doc_quoteless self (entry : string * string * string) :
  (let '(name, data_type_name, doc) := entry in
   quoteless name && quoteless data_type_name && quoteless doc = true) ->
  always_from self (Forall (fun c => cmd_quoteless c = true)) (extra_arg_doc entry).
Proof.
  destruct entry as [[name ty] doc]. intros Hq.
  apply andb_prop in Hq. destruct Hq as [Hq Hd].
  apply andb_prop in Hq. destruct Hq as [Hn Ht].
  unfold extra_arg_doc. destruct (PyStr.truthy (Some ty));
    unfold emit_wrapped_text; quoteless_line ltac:(rewrite ?Hn, ?Ht, ?Hd).
Qed.

Lemma field_doc_quoteless self (ns : namespace) (f : field) :
  quoteless (types_package (args self)) = true ->
  quoteless (ns_name ns) = true ->
  quoteless (f_name f) = true ->
  leaves_quoteless (f_data_type f) = true ->
  doc_quoteless self (f_doc f) ->
  always_from self (Forall (fun c => cmd_quoteless c = true)) (field_doc ns f).
Proof.
  intros Hpkg Hns Hn Hl Hd.
  pose proof (format_type_quoteless self ns Hpkg Hns _ Hl) as Ht.
  unfold field_doc. apply from_bind_get_self. cbv zeta.
  destruct (PyStr.truthy (f_doc f)).
  - apply from_bind_lift. intros d Ed. pose proof (Hd d Ed) as Hq.
    apply from_bind; [|intros _; apply from_when; intros _];
      destruct (is_user_defined_type (f_data_type f));
      unfold emit_wrapped_text, emit;
      quoteless_line ltac:(rewrite ?Hn, ?Ht, ?Hq).
  - unfold emit_wrapped_text. quoteless_line ltac:(rewrite ?Hn, ?Ht).
Qed.

Lemma union_arg_doc_quoteless self (ns : namespace) (arg : data_type)
    (doc : option string) :
  quoteless (types_package (args self)) = true ->
  quoteless (ns_name ns) = true ->
  leaves_quoteless arg = true ->
  doc_quoteless self doc ->
  always_from self (Forall (fun c => cmd_quoteless c = true))
    (union_arg_doc ns arg doc).
Proof.
  intros Hpkg Hns Hl Hd.
  pose proof (format_type_quoteless self ns Hpkg Hns _ Hl) as Ht.
  unfold union_arg_doc. apply from_bind_get_self.
  apply from_bind; [|intros _; unfold emit; quoteless_line ltac:(rewrite ?Ht)].
  destruct (PyStr.truthy doc); [|apply from_ret].
  apply from_bind_lift. intros d Ed. pose proof (Hd d Ed) as Hq.
  unfold emit_wrapped_text. quoteless_line ltac:(rewrite ?Hq).
Qed.

Lemma blank_quoteless self :
  always_from self (Forall (fun c => cmd_quoteless c = true)) emit_blank.
Proof. apply from_tell. now repeat constructor. Qed.

Lemma param_section_quoteless self (ns : namespace) (arg : data_type)
    (overview : option string)
    (extras : option (list (string * string * string))) :
  quoteless (types_package (args self)) = true ->
  quoteless (ns_name ns) = true ->
  Forall (fun entry : string * string * string =>
            let '(name, data_type_name, doc) := entry in
            quoteless name && quoteless data_type_name && quoteless doc = true)
    (items_of extras) ->
  arg_quoteless self arg ->
  always_from self (Forall (fun c => cmd_quoteless c = true))
    (param_section ns arg (own_fields arg) overview extras).
Proof.
  intros Hpkg Hns Hx Ha. unfold param_section.
  apply from_when. intros _.
  apply from_bind; [apply from_when; intros _; apply blank_quoteless | intros _].
  apply from_bind.
  { apply from_when. intros _. apply from_for_each. intros entry Hin.
    apply extra_arg_doc_quoteless.
    rewrite Forall_forall in Hx. exact (Hx entry Hin). }
  intros _. destruct arg as [ | name | inner | elem | k v | c | c ];
    try apply from_ret.
  - apply from_for_each. intros f Hin. simpl in Ha, Hin.
    rewrite Forall_forall in Ha. destruct (Ha f Hin) as [Hn [Hl Hd]].
    now apply field_doc_quoteless.
  - destruct Ha as [Hl Hd]. now apply union_arg_doc_quoteless.
Qed.

Lemma return_section_quoteless self (ns : namespace) (result : data_type)
    (extra_return_arg : option string) :
  quoteless (types_package (args self)) = true ->
  quoteless (ns_name ns) = true ->
  leaves_quoteless result = true ->
  quoteless_opt extra_return_arg = true ->
  always_from self (Forall (fun c => cmd_quoteless c = true))
    (return_section ns result extra_return_arg).
Proof.
  intros Hpkg Hns Hl Hx.
  pose proof (format_type_quoteless self ns Hpkg Hns _ Hl) as Ht.
  unfold return_section. apply from_bind_get_self.
  destruct extra_return_arg as [x|]; simpl in Hx.
  - destruct (PyStr.truthy (Some x)).
    + destruct (is_void_type result); unfold generate_multiline_list, py_append;
        cbn [text_of app];
        quoteless_line ltac:(rewrite ?Ht, ?Hx).
    + destruct (is_void_type result); unfold emit;
        quoteless_line ltac:(rewrite ?Ht).
  - cbn [PyStr.truthy]. destruct (is_void_type result); unfold emit;
      quoteless_line ltac:(rewrite ?Ht).
Qed.

Lemma error_section_quoteless self (ns : namespace) (err : data_type) :
  quoteless (types_package (args self)) = true ->
  quoteless (ns_name ns) = true ->
  quoteless (error_class_path (args self)) = true ->
  leaves_quoteless err = true ->
  always_from self (Forall (fun c => cmd_quoteless c = true))
    (error_section ns err).
Proof.
  intros Hpkg Hns Hp Hl.
  pose proof (format_type_quoteless self ns Hpkg Hns _ Hl) as Ht.
  pose proof (last_quoteless _ (rsplit1_quoteless "." _ Hp)) as Hname.
  unfold error_section. apply from_bind_get_self.
  destruct (negb (is_void_type err)); [|apply from_ret].
  apply from_bind_lift. intros fields _. apply from_when. intros _.
  apply from_bind; [unfold emit; quoteless_line ltac:(rewrite ?Hp) | intros _].
  apply from_bind; [apply blank_quoteless | intros _]. cbv zeta.
  apply from_bind; [unfold emit; quoteless_line ltac:(rewrite ?Hname) | intros _].
  apply from_with_indent. unfold emit. quoteless_line ltac:(rewrite ?Ht).
Qed.

Lemma footer_section_quoteless self (footer : option string) :
  quoteless_opt footer = true ->
  always_from self (Forall (fun c => cmd_quoteless c = true))
    (footer_section footer).
Proof.
  intros Hf. unfold footer_section. apply from_when. intros Ht.
  destruct footer as [text|]; [|discriminate]. simpl in Hf.
  apply from_bind; [apply blank_quoteless | intros _].
  unfold emit_wrapped_text. cbn [text_of]. quoteless_line ltac:(rewrite ?Hf).
Qed.

(** A run that ends with the closing delimiter, after calls that all
    satisfy [P]. *)
Lemma closes_after self (P : cmd -> Prop) (m k : Gen unit) :
  always_from self (Forall P) m ->
  always_from self
    (fun out => exists inner,
       out = (inner ++ [Emit PyStr.triple_quote])%list /\ Forall P inner) k ->
  always_from self
    (fun out => exists inner,
       out = (inner ++ [Emit PyStr.triple_quote])%list /\ Forall P inner)
    (m ;; k).
Proof.
  intros Hm Hk a s2 out E.
  destruct (bind_inr _ _ _ _ _ _ E) as [[] [s1 [o1 [o2 [E1 [E2 ->]]]]]].
  destruct (Hm _ _ _ E1) as [-> F1].
  destruct (Hk _ _ _ E2) as [-> [inner [-> F2]]].
  split; [reflexivity|].
  exists (o1 ++ inner)%list. split; [now rewrite app_assoc|].
  now apply Forall_app_intro.
Qed.

(** X17: when no text that goes into the docstring holds a double quote,
    and the argument and error types are ones the composer handles, the
    docstring is either absent or opens and closes with the delimiter, and
    none of the calls in between has a double quote in its texts: no line
    in between is a delimiter. *)
Theorem docstring_framed (ns : namespace) (arg result err : data_type)
    (overview : option string)
    (extras : option (list (string * string * string)))
    (extra_return_arg footer : option string) self :
  arg_documentable self arg ->
  error_documentable err ->
  docstring_quoteless self ns arg result err overview extras extra_return_arg
    footer ->
  exists out,
    yields (_generate_docstring_for_func ns arg result err overview extras
              extra_return_arg footer) self tt out
    /\ framed out.
Proof.
  intros Harg Herr [Hpkg [Hns [Hp [Ho [Hx [Hf [He [Ha [Hr Hl]]]]]]]]].
  destruct (docstring_not_decl ns arg result err overview extras
              extra_return_arg footer self Harg Herr) as [out [Y _]].
  exists out. split; [exact Y|].
  unfold yields, _generate_docstring_for_func in Y.
  destruct (bind_inr _ _ _ _ _ _ Y) as [fields [s1 [o1 [o2 [E1 [E2 ->]]]]]].
  assert (fields = own_fields arg /\ s1 = self /\ o1 = []) as [-> [-> ->]].
  { destruct arg; simpl in E1 |- *; try discriminate;
      injection E1 as <- <- <-; now repeat split. }
  simpl. destruct (negb (nonempty (own_fields arg)) && negb (PyStr.truthy overview)).
  - injection E2 as <-. now left.
  - destruct (bind_inr _ _ _ _ _ _ E2) as [[] [s2 [o3 [o4 [E3 [E4 ->]]]]]].
    injection E3 as <- <-.
    assert (X : always_from self
                  (fun out => exists inner,
                     out = (inner ++ [Emit PyStr.triple_quote])%list
                     /\ Forall (fun c => cmd_quoteless c = true) inner)
                  (when (PyStr.truthy overview)
                     (emit_wrapped_text (text_of overview) None) ;;
                   param_section ns arg (own_fields arg) overview extras ;;
                   overview_separator (own_fields arg) overview extras ;;
                   return_section ns result extra_return_arg ;;
                   error_section ns err ;;
                   footer_section footer ;;
                   emit PyStr.triple_quote)).
    { apply closes_after.
      { apply from_when. intros Ht.
        destruct overview as [text|]; [|discriminate]. simpl in Ho.
        unfold emit_wrapped_text. cbn [text_of].
        quoteless_line ltac:(rewrite ?Ho). }
      apply closes_after; [now apply param_section_quoteless|].
      apply closes_after.
      { unfold overview_separator. apply from_when. intros _.
        apply blank_quoteless. }
      apply closes_after; [now apply return_section_quoteless|].
      apply closes_after; [now apply error_section_quoteless|].
      apply closes_after; [now apply footer_section_quoteless|].
      intros b s' o Eo. injection Eo as _ <- <-.
      split; [reflexivity|]. exists []. now split. }
    destruct (X _ _ _ E4) as [_ [inner [-> F]]].
    right. exists inner. now split.
Qed.

End DocstringFrame.

Lemma docstring_framed_witness :
  exists out,
    yields (_generate_docstring_for_func (H := Sample.helpers)
              (Sample.files []) (Struct Sample.list_folder_arg) Sample.entry_t
              Sample.mode_t (Some "List a folder.")
              (Some [("f", "bytes", "Contents to upload.")])
              (Some ":class:`requests.models.Response`") None)
      (Sample.self_in (Sample.files [])) tt out
    /\ framed out.
Proof.
  apply (docstring_framed (H := Sample.helpers)
           (Sample.files []) (Struct Sample.list_folder_arg) Sample.entry_t
           Sample.mode_t (Some "List a folder.")
           (Some [("f", "bytes", "Contents to upload.")])
           (Some ":class:`requests.models.Response`") None
           (Sample.self_in (Sample.files []))).
  - repeat constructor; intros _; eexists; reflexivity.
  - reflexivity.
  - repeat split; try reflexivity.
    + repeat constructor.
    + repeat (constructor; [repeat split; try reflexivity;
                            intros d E; injection E as <-; reflexivity|]).
      constructor.
Defined.

(* ================================================================= *)
(** ** The depth of declarations and statements *)

Section GradedRuns.

Context {Q : nat -> list cmd -> Prop} {G : Graded Q} (d : nat).

Lemma graded_ret {A} (a : A) : always (Q d) (ret a).
Proof. intros self b self' out E. injection E as _ _ <-. apply g_nil. Qed.

Lemma graded_raise {A} (e : exn) : always (Q d) (@raise A e).
Proof. intros self b self' out E. discriminate. Qed.

Lemma graded_get_self : always (Q d) get_self.
Proof. intros self b self' out E. injection E as _ _ <-. apply g_nil. Qed.

Lemma graded_put_self (s : backend) : always (Q d) (put_self s).
Proof. intros self b self' out E. injection E as _ _ <-. apply g_nil. Qed.

Lemma graded_lift {A} (r : exn + A) : always (Q d) (lift r).
Proof.
  intros self b self' out E. unfold lift in E. destruct r; [discriminate|].
  injection E as _ _ <-. apply g_nil.
Qed.

Lemma graded_tell (c : cmd) : Q d [c] -> always (Q d) (tell c).
Proof. intros Hc self b self' out E. injection E as _ _ <-. exact Hc. Qed.

Lemma graded_bind {A B} (m : Gen A) (k : A -> Gen B) :
  always (Q d) m -> (forall a, always (Q d) (k a)) -> always (Q d) (bind m k).
Proof.
  intros Hm Hk self b s2 out E.
  destruct (bind_inr m k self b s2 out E) as [a [s1 [o1 [o2 [E1 [E2 ->]]]]]].
  apply g_app; [eapply Hm | eapply Hk]; eassumption.
Qed.

Lemma graded_when (b : bool) (m : Gen unit) :
  always (Q d) m -> always (Q d) (when b m).
Proof. intros Hm. destruct b; [exact Hm | apply graded_ret]. Qed.

Lemma graded_for_each {A} (body : A -> Gen unit) (l : list A) :
  (forall x, always (Q d) (body x)) -> always (Q d) (for_each l body).
Proof.
  intros Hb. induction l as [|x l IH]; simpl; [apply graded_ret|].
  apply graded_bind; [apply Hb | intros _; exact IH].
Qed.

End GradedRuns.

Lemma graded_with_indent {Q : nat -> list cmd -> Prop} {G : Graded Q} (d : nat)
    (body : Gen unit) :
  always (Q (S d)) body -> always (Q d) (with_indent body).
Proof.
  intros Hb self b s2 out E. unfold with_indent in E.
  destruct (bind_inr _ _ _ _ _ _ E) as [[] [s1 [o1 [o2 [E1 [E2 ->]]]]]].
  injection E1 as <- <-.
  destruct (bind_inr _ _ _ _ _ _ E2) as [[] [s3 [o3 [o4 [E3 [E4 ->]]]]]].
  unfold tell in E4. injection E4 as _ E4. subst o4.
  apply (g_indent d o3). eapply Hb; eassumption.
Qed.

Lemma depths_app (o1 o2 : list cmd) : forall d d',
  indent_scan d o1 = Some d' ->
  depths d (o1 ++ o2) = (depths d o1 ++ depths d' o2)%list.
Proof.
  induction o1 as [|c o1 IH]; intros d d' E; simpl in E.
  - now injection E as <-.
  - destruct c; simpl; try (f_equal; now apply IH); try now apply IH.
    destruct d as [|d0]; [discriminate | now apply IH].
Qed.

#[local] Instance laid_out_graded (base : nat) : Graded (laid_out base).
Proof.
  split.
  - intros d. split; [intros depth; reflexivity | constructor].
  - intros d o1 o2 [B1 F1] [B2 F2]. split; [now apply q_app|].
    rewrite (depths_app o1 o2 d d (B1 d)). now apply Forall_app_intro.
  - intros d o [B F]. split; [now apply q_indent|].
    cbn [depths]. rewrite (depths_app o [IndentExit] (S d) (S d) (B (S d))).
    cbn [depths]. now rewrite app_nil_r.
Qed.

(** The walk through a run, by the rule of the construct at its head or
    else the definition of the function at its head, with the depth
    followed through the indentation scopes. *)
Ltac graded_walk_with known :=
  repeat
    (cbv beta zeta;
     first
       [ known
       | match goal with
         | |- always _ (ret _) => apply graded_ret
         | |- always _ (raise _) => apply graded_raise
         | |- always _ get_self => apply graded_get_self
         | |- always _ (put_self _) => apply graded_put_self
         | |- always _ (lift _) => apply graded_lift
         | |- always _ (with_indent _) => apply graded_with_indent
         | |- always _ (when _ _) => apply graded_when
         | |- always _ (bind _ _) => apply graded_bind; [ | intros ? ]
         | |- always _ (for_each _ _) => apply graded_for_each; intros ?
         | |- always _ (if ?b then _ else _) => destruct b
         | |- always _ (match ?x with _ => _ end) => destruct x
         | |- always _ (tell _) => fail 1
         | |- always _ ?m => let h := head_of m in progress unfold h
         end ]).

(** A single call that is placed as it should. *)
Ltac laid_line :=
  apply graded_tell; split;
  [ intros depth; reflexivity
  | cbn [depths]; constructor; [unfold placed; cbn; try reflexivity; exact I
                               | constructor] ].

Section Placement.

Context {H : Helpers}.

(** A method is declared at the depth it is generated at, and the
    multi-line lists of its docstring and of its body are one level
    deeper. *)
Lemma route_helper_laid_out (d : nat) (ns : namespace) (r : route) (dl : bool) :
  always (laid_out d d) (_generate_route_helper ns r dl).
Proof. graded_walk_with fail; laid_line. Qed.

Lemma generate_route_laid_out (d : nat) (ns : namespace) (r : route) :
  always (laid_out d d) (generate_route ns r).
Proof.
  assert (V : always (laid_out d d) (generate_route_variants ns r)).
  { unfold generate_route_variants.
    graded_walk_with
      ltac:(idtac; match goal with
            | |- always _ (_generate_route_helper _ _ _) =>
                apply route_helper_laid_out
            end). }
  intros s a s' o. rewrite generate_route_cases.
  destruct (supported_auth_types s) as [supported|]; [|apply V].
  destruct (route_auth_attr r) as [attr|]; [|apply graded_ret].
  destruct (whitelisted supported attr); [apply V | apply graded_ret].
Qed.

Lemma route_methods_laid_out (d : nat) (namespaces : list namespace) :
  always (laid_out d d) (_generate_route_methods namespaces).
Proof.
  unfold _generate_route_methods, _generate_routes.
  graded_walk_with
    ltac:(idtac; match goal with
          | |- always _ (generate_route _ _) => apply generate_route_laid_out
          end);
    laid_line.
Qed.

Lemma import_warnings_laid_out (namespaces : list api_namespace) self a self' out :
  import_warnings namespaces self = inr (a, self', out) -> laid_out 1 0 out.
Proof.
  rewrite import_warnings_run. intros E. injection E as _ _ <-.
  destruct (any_deprecated namespaces);
    (split; [intros depth; reflexivity | repeat constructor]).
Qed.

(** X16: in a generated module every route method is declared at
    indentation depth one, directly inside the class, and every other
    multi-line list (the return types of a docstring, the deprecation
    warning, the construction of the argument, the request) is at depth
    two, inside a method. *)
Theorem generate_methods_inside_class (namespaces : list api_namespace)
    self self' f :
  generate namespaces self = inr (self', f) ->
  Forall (placed 1) (depths 0 (file_lines (file_content f))).
Proof.
  intros E. destruct (generate_inr namespaces self self' f E) as [out [Eb [_ ->]]].
  revert Eb. generalize self tt self' out.
  change (always (fun out => Forall (placed 1) (depths 0 out))
            (generate_body namespaces)).
  unfold generate_body.
  apply always_weaken with (Q := laid_out 1 0); [now intros o [_ F]|].
  graded_walk_with
    ltac:(idtac; match goal with
          | |- always _ (import_warnings _) =>
              intros ? ? ? ?; apply import_warnings_laid_out
          | |- always _ (_generate_route_methods _) =>
              apply route_methods_laid_out
          end);
    laid_line.
Qed.

End Placement.

Lemma generate_methods_inside_class_witness :
  generate (H := Sample.helpers) Sample.api Sample.self0
  = inr (Sample.after_generate, Sample.generated)
  /\ Forall (placed 1) (depths 0 (file_lines (file_content Sample.generated))).
Proof.
  split; [reflexivity|].
  apply (generate_methods_inside_class (H := Sample.helpers) Sample.api
           Sample.self0 Sample.after_generate Sample.generated eq_refl).
Defined.
